(** * emerge: the C++ structural parser ([emerge/languages/cppparser.py])

    A shallow embedding of [CPPParser]: the entity pass
    ([generate_entity_results_from_analysis]), the unique-name composer
    ([create_unique_entity_name]) and the include pass
    ([_add_imports_to_result], [try_resolve_dependency]).

    Text is [string] (a Python [str] restricted to one-byte characters), a
    token stream is [list string].  The grammar patterns of the source are
    [pyparsing] expressions; the module [PP] below gives the part of
    pyparsing's matching semantics those patterns use, at character level on
    the read-ahead string, so that the patterns can be written down the way
    the source writes them. *)

From Stdlib Require Import String Ascii List Bool Arith Lia.
Import ListNotations.
Open Scope string_scope.

(** ** Python [str] operations used by the parser *)

Module PyStr.

(** [c in chars] for a character and a string used as a character set. *)
Fixpoint char_in (c : ascii) (chars : string) : bool :=
  match chars with
  | "" => false
  | String a chars' => Ascii.eqb c a || char_in c chars'
  end.

(** [sep.join(parts)] *)
Definition join (sep : string) (parts : list string) : string :=
  String.concat sep parts.

(** [sub in s] *)
Fixpoint contains (sub s : string) : bool :=
  String.prefix sub s ||
  match s with
  | "" => false
  | String _ s' => contains sub s'
  end.

(** [s.split(sep)] for a non-empty [sep]: cut at every occurrence of [sep],
    found left to right without overlap.  [skip] counts the characters of an
    occurrence still to be passed over, [cur] is the segment being built. *)
Fixpoint split_from (sep : string) (skip : nat) (cur s : string) : list string :=
  match s with
  | "" => [cur]
  | String a s' =>
      match skip with
      | S k => split_from sep k cur s'
      | O =>
          if String.prefix sep s
          then cur :: split_from sep (String.length sep - 1) "" s'
          else split_from sep 0 (cur ++ String a "") s'
      end
  end.

Definition split (sep s : string) : list string := split_from sep 0 "" s.

(** [s.replace(old, new)] for a non-empty [old]. *)
Definition replace (old new s : string) : string := join new (split old s).

(** The characters [str.split()] treats as white space (one-byte range). *)
Definition isspace (c : ascii) : bool :=
  let n := nat_of_ascii c in
  (Nat.leb 9 n && Nat.leb n 13) || (Nat.leb 28 n && Nat.leb n 32).

(** [s.split()]: maximal runs of non-space characters, in order. *)
Fixpoint words_from (cur s : string) : list string :=
  match s with
  | "" => if String.eqb cur "" then [] else [cur]
  | String a s' =>
      if isspace a
      then (if String.eqb cur "" then words_from "" s' else cur :: words_from "" s')
      else words_from (cur ++ String a "") s'
  end.

Definition words (s : string) : list string := words_from "" s.

(** [l[-1]] with a default for the empty list. *)
Definition last_of (l : list string) : string := List.last l "".

(** Truth value of a list ([if l:]). *)
Definition truthy {A : Type} (l : list A) : bool :=
  match l with [] => false | _ :: _ => true end.

End PyStr.

(** ** The fragment of pyparsing used by the patterns *)

Module PP.

(** Position in the string being parsed: [rest] is [instring[loc:]] and
    [before] is [instring[loc-1]] ([None] when [loc = 0]). *)
Record cursor : Type := { before : option ascii; rest : string }.

Definition start (instring : string) : cursor :=
  {| before := None; rest := instring |}.

Definition remaining (c : cursor) : nat := String.length (rest c).

(** A token of a [ParseResults]: a string, or the nested list of a [Group]. *)
#[warnings="-register-all"] Inductive ptok : Type :=
| PStr (s : string)
| PGroup (g : list ptok).

Record ParseResults : Type :=
  { toklist : list ptok; tokdict : list (string * list ptok) }.

Definition no_results : ParseResults := {| toklist := []; tokdict := [] |}.

Definition one_result (s : string) : ParseResults :=
  {| toklist := [PStr s]; tokdict := [] |}.

(** [res1 += res2] *)
Definition add_results (r1 r2 : ParseResults) : ParseResults :=
  {| toklist := toklist r1 ++ toklist r2; tokdict := tokdict r1 ++ tokdict r2 |}.

(** [results.name]: the value stored last under [name]; an absent name
    reads as the empty value. *)
Fixpoint lookup (name : string) (d : list (string * list ptok)) : list ptok :=
  match d with
  | [] => []
  | (k, v) :: d' =>
      match lookup name d' with
      | [] => if String.eqb k name then v else []
      | found => found
      end
  end.

Definition get (name : string) (r : ParseResults) : list ptok :=
  lookup name (tokdict r).

Definition tok_string (t : ptok) : string :=
  match t with PStr s => s | PGroup _ => "" end.

(** A named result read as one string (the name was set on a single token). *)
Definition get_string (name : string) (r : ParseResults) : string :=
  match get name r with t :: _ => tok_string t | [] => "" end.

(** [list(results.name)] for a name set on a flat list of tokens. *)
Definition get_strings (name : string) (r : ParseResults) : list string :=
  map tok_string (get name r).

(** A parser element: [parseImpl] is tried at a cursor and either fails
    ([None], a [ParseException]) or returns results and the new cursor. *)
Record ParserElement : Type :=
  { skipWhitespace : bool;
    saveAsList : bool;
    parseImpl : cursor -> option (ParseResults * cursor) }.

(** Character sets *)
Definition alphas : string :=
  "ABCDEFGHIJKLMNOPQRSTUVWXYZabcdefghijklmnopqrstuvwxyz".
Definition nums : string := "0123456789".
Definition alphanums : string := alphas ++ nums.
Definition DEFAULT_KEYWORD_CHARS : string := alphanums ++ "_$".
Definition DEFAULT_WHITE_CHARS : list ascii :=
  [" "%char; ascii_of_nat 10; ascii_of_nat 9; ascii_of_nat 13].

Definition is_white (a : ascii) : bool :=
  existsb (Ascii.eqb a) DEFAULT_WHITE_CHARS.

(** [preParse]: pass over leading white space. *)
Fixpoint skip_white (prev : option ascii) (s : string) : cursor :=
  match s with
  | "" => {| before := prev; rest := "" |}
  | String a s' =>
      if is_white a then skip_white (Some a) s'
      else {| before := prev; rest := s |}
  end.

Definition preParse (c : cursor) : cursor := skip_white (before c) (rest c).

(** [_parse(instring, loc, callPreParse)] *)
Definition parse_at (callPreParse : bool) (e : ParserElement) (c : cursor)
  : option (ParseResults * cursor) :=
  parseImpl e (if callPreParse && skipWhitespace e then preParse c else c).

(** [instring.startswith(lit, loc)], returning the cursor after [lit]. *)
Fixpoint eat (lit : string) (c : cursor) : option cursor :=
  match lit with
  | "" => Some c
  | String a lit' =>
      match rest c with
      | "" => None
      | String b s' =>
          if Ascii.eqb a b then eat lit' {| before := Some b; rest := s' |}
          else None
      end
  end.

Definition next_char_in (chars : string) (c : cursor) : bool :=
  match rest c with
  | "" => false
  | String a _ => PyStr.char_in a chars
  end.

Definition prev_char_in (chars : string) (c : cursor) : bool :=
  match before c with
  | None => false
  | Some a => PyStr.char_in a chars
  end.

(** [Literal(lit)] *)
Definition Literal (lit : string) : ParserElement :=
  {| skipWhitespace := true; saveAsList := false;
     parseImpl := fun c =>
       match eat lit c with
       | Some c' => Some (one_result lit, c')
       | None => None
       end |}.

(** [Keyword(kw)]: the literal, not preceded and not followed by an
    identifier character. *)
Definition Keyword (kw : string) : ParserElement :=
  {| skipWhitespace := true; saveAsList := false;
     parseImpl := fun c =>
       match eat kw c with
       | Some c' =>
           if negb (next_char_in DEFAULT_KEYWORD_CHARS c')
              && negb (prev_char_in DEFAULT_KEYWORD_CHARS c)
           then Some (one_result kw, c')
           else None
       | None => None
       end |}.

(** Longest run of characters of [body] at the head of [s]. *)
Fixpoint span (body : string) (prev : ascii) (s : string) : string * cursor :=
  match s with
  | "" => ("", {| before := Some prev; rest := "" |})
  | String a s' =>
      if PyStr.char_in a body
      then let (w, c) := span body a s' in (String a w, c)
      else ("", {| before := Some prev; rest := s |})
  end.

(** [Word(init, body)]: one character of [init], then as many characters of
    [body] as there are. *)
Definition Word (init body : string) : ParserElement :=
  {| skipWhitespace := true; saveAsList := false;
     parseImpl := fun c =>
       match rest c with
       | "" => None
       | String a s' =>
           if PyStr.char_in a init
           then let (w, c') := span body a s' in Some (one_result (String a w), c')
           else None
       end |}.

(** [oneOf(symbols)]: the first symbol found at the cursor.  No symbol of
    the lists used here is a prefix of another one, so the reordering
    [oneOf] performs to protect longer symbols leaves them as written. *)
Fixpoint first_symbol (symbols : list string) (c : cursor)
  : option (ParseResults * cursor) :=
  match symbols with
  | [] => None
  | sym :: more =>
      match eat sym c with
      | Some c' => Some (one_result sym, c')
      | None => first_symbol more c
      end
  end.

Definition oneOf (symbols : list string) : ParserElement :=
  {| skipWhitespace := true; saveAsList := false;
     parseImpl := first_symbol symbols |}.

(** [Suppress(e)] / [e.suppress()] *)
Definition Suppress (e : ParserElement) : ParserElement :=
  {| skipWhitespace := skipWhitespace e; saveAsList := saveAsList e;
     parseImpl := fun c =>
       match parse_at false e c with
       | Some (_, c') => Some (no_results, c')
       | None => None
       end |}.

(** [Group(e)] *)
Definition Group (e : ParserElement) : ParserElement :=
  {| skipWhitespace := skipWhitespace e; saveAsList := true;
     parseImpl := fun c =>
       match parse_at false e c with
       | Some (r, c') => Some ({| toklist := [PGroup (toklist r)]; tokdict := [] |}, c')
       | None => None
       end |}.

(** [Optional(e)]: a failure of [e] is a match of nothing. *)
Definition Optional (e : ParserElement) : ParserElement :=
  {| skipWhitespace := skipWhitespace e; saveAsList := saveAsList e;
     parseImpl := fun c =>
       match parse_at false e c with
       | Some rc => Some rc
       | None => Some (no_results, c)
       end |}.

(** [~e] ([NotAny]): succeeds, consuming nothing, when [e] cannot be parsed
    next. *)
Definition NotAny (e : ParserElement) : ParserElement :=
  {| skipWhitespace := false; saveAsList := false;
     parseImpl := fun c =>
       match parse_at true e c with
       | Some _ => None
       | None => Some (no_results, c)
       end |}.

(** The elements of an [And] after the first one, each with its own
    [preParse]. *)
Fixpoint and_rest (exprs : list ParserElement) (acc : ParseResults) (c : cursor)
  : option (ParseResults * cursor) :=
  match exprs with
  | [] => Some (acc, c)
  | e :: more =>
      match parse_at true e c with
      | Some (r, c') => and_rest more (add_results acc r) c'
      | None => None
      end
  end.

(** [e1 + e2 + ...] ([And]): all elements in sequence, no backtracking. *)
Definition And (exprs : list ParserElement) : ParserElement :=
  match exprs with
  | [] => {| skipWhitespace := true; saveAsList := true;
             parseImpl := fun c => Some (no_results, c) |}
  | e :: more =>
      {| skipWhitespace := skipWhitespace e; saveAsList := true;
         parseImpl := fun c =>
           match parse_at false e c with
           | Some (r, c') => and_rest more r c'
           | None => None
           end |}
  end.

(** [e1 | e2 | ...] ([MatchFirst]) *)
Fixpoint first_match (exprs : list ParserElement) (c : cursor)
  : option (ParseResults * cursor) :=
  match exprs with
  | [] => None
  | e :: more =>
      match parse_at true e c with
      | Some rc => Some rc
      | None => first_match more c
      end
  end.

Definition MatchFirst (exprs : list ParserElement) : ParserElement :=
  {| skipWhitespace := true; saveAsList := false;
     parseImpl := first_match exprs |}.

(** Repetitions of [e] after the first attempt.  Every repetition of the
    patterns below consumes at least one character, so [fuel] is set to
    more than the number of characters left (see [ZeroOrMore]). *)
Fixpoint repeat (fuel : nat) (e : ParserElement) (acc : ParseResults) (c : cursor)
  : ParseResults * cursor :=
  match fuel with
  | O => (acc, c)
  | S fuel' =>
      match parse_at true e c with
      | Some (r, c') => repeat fuel' e (add_results acc r) c'
      | None => (acc, c)
      end
  end.

(** [ZeroOrMore(e)] *)
Definition ZeroOrMore (e : ParserElement) : ParserElement :=
  {| skipWhitespace := skipWhitespace e; saveAsList := true;
     parseImpl := fun c =>
       match parse_at false e c with
       | Some (r, c') => Some (repeat (S (remaining c')) e r c')
       | None => Some (no_results, c)
       end |}.

(** [delimitedList(e)]: [e + ZeroOrMore(Suppress(",") + e)] *)
Definition delimitedList (e : ParserElement) : ParserElement :=
  And [e; ZeroOrMore (And [Suppress (Literal ","); e])].

(** First position at or after the cursor where [target] matches (tried
    without [preParse]); the text passed over is returned with it. *)
Fixpoint skip_until (target : ParserElement) (prev : option ascii) (s : string)
  : option (string * cursor) :=
  let here := {| before := prev; rest := s |} in
  match parse_at false target here with
  | Some _ => Some ("", here)
  | None =>
      match s with
      | "" => None
      | String a s' =>
          match skip_until target (Some a) s' with
          | Some (skipped, c) => Some (String a skipped, c)
          | None => None
          end
      end
  end.

(** [SkipTo(target)]: the text up to, and not including, the first match of
    [target]; fails when [target] matches nowhere. *)
Definition SkipTo (target : ParserElement) : ParserElement :=
  {| skipWhitespace := skipWhitespace target; saveAsList := saveAsList target;
     parseImpl := fun c =>
       match skip_until target (before c) (rest c) with
       | Some (skiptext, c') => Some (one_result skiptext, c')
       | None => None
       end |}.

(** [e.setResultsName(name)] / [e(name)]: a non-empty result is also stored
    under [name], whole for a list-valued element and as its first token
    otherwise. *)
Definition setResultsName (name : string) (e : ParserElement) : ParserElement :=
  {| skipWhitespace := skipWhitespace e; saveAsList := saveAsList e;
     parseImpl := fun c =>
       match parseImpl e c with
       | Some (r, c') =>
           match toklist r with
           | [] => Some (r, c')
           | t :: _ =>
               let value := if saveAsList e then toklist r else [t] in
               Some ({| toklist := toklist r;
                        tokdict := tokdict r ++ [(name, value)] |}, c')
           end
       | None => None
       end |}.

(** [e.parseString(instring)]: [e] at the start of the string; trailing
    text is allowed. *)
Definition parseString (e : ParserElement) (instring : string)
  : option ParseResults :=
  match parse_at true e (start instring) with
  | Some (r, _) => Some r
  | None => None
  end.

(** [scanString]: from the cursor, try [e] after [preParse]; a match that
    moved past the position tried is collected and scanning goes on behind
    it, anything else moves one character past the position tried. *)
Fixpoint scan (fuel : nat) (e : ParserElement) (c : cursor) : list ParseResults :=
  match fuel with
  | O => []
  | S fuel' =>
      let pre := preParse c in
      let step_one :=
        match rest pre with
        | "" => []
        | String a s' => scan fuel' e {| before := Some a; rest := s' |}
        end in
      match parse_at false e pre with
      | Some (r, c') =>
          if Nat.ltb (remaining c') (remaining c)
          then r :: scan fuel' e c'
          else step_one
      | None => step_one
      end
  end.

(** [e.searchString(instring)] *)
Definition searchString (e : ParserElement) (instring : string)
  : list ParseResults :=
  scan (S (String.length instring)) e (start instring).

(** [repr(s)] of a Python string, for printable one-byte text: quoted with
    ['], or with ["] when the text has a ['] and no ["]; backslashes and
    the quote used are escaped. *)
Fixpoint escape (quote : ascii) (s : string) : string :=
  match s with
  | "" => ""
  | String a s' =>
      if Ascii.eqb a "\"%char || Ascii.eqb a quote
      then String "\"%char (String a (escape quote s'))
      else String a (escape quote s')
  end.

Definition repr (s : string) : string :=
  let sq := "'"%char in
  let dq := ascii_of_nat 34 in
  if PyStr.char_in sq s && negb (PyStr.char_in dq s)
  then String dq (escape dq s ++ String dq "")
  else String sq (escape sq s ++ String sq "").

(** [str(results)]: the token list in brackets, strings by [repr]. *)
Fixpoint str_tok (t : ptok) : string :=
  match t with
  | PStr s => repr s
  | PGroup g =>
      "[" ++ PyStr.join ", " ((fix each (l : list ptok) : list string :=
                                 match l with
                                 | [] => []
                                 | x :: l' => str_tok x :: each l'
                                 end) g) ++ "]"
  end.

Definition str (r : ParseResults) : string :=
  "[" ++ PyStr.join ", " (map str_tok (toklist r)) ++ "]".

End PP.

(** ** Keywords and token mappings of the parser *)

(** [CPPParsingKeyword] *)
Module CPPParsingKeyword.
Definition INCLUDE : string := "#include".
Definition OPEN_SCOPE : string := "{".
Definition CLOSE_SCOPE : string := "}".
Definition INLINE_COMMENT : string := "//".
Definition START_BLOCK_COMMENT : string := "/*".
Definition STOP_BLOCK_COMMENT : string := "*/".
Definition CLASS : string := "class".
Definition STRUCT : string := "struct".
Definition NAMESPACE : string := "namespace".
Definition VIRTUAL : string := "virtual".
Definition PUBLIC : string := "public".
Definition PRIVATE : string := "private".
Definition PROTECTED : string := "protected".
Definition TEMPLATE : string := "template".
Definition COLON : string := ":".
Definition PURE_VIRTUAL : string := "= 0".
Definition SEMICOLON : string := ";".
Definition TYPENAME : string := "typename".
Definition OVERRIDE : string := "override".
End CPPParsingKeyword.

(** Modelled from the spec: the members of [CoreParsingKeyword]
    ([emerge/languages/abstractparser.py], absent) that the include pattern
    uses; the spec gives the include path as "alphanumerics, [.], [/], [_]",
    quoted or angle-bracketed. *)
Module CoreParsingKeyword.
Definition DOT : string := ".".
Definition SLASH : string := "/".
Definition UNDERSCORE : string := "_".
Definition DOUBLE_QUOTE : string := String (ascii_of_nat 34) "".
Definition OPENING_ANGLE_BRACKET : string := "<".
Definition CLOSING_ANGLE_BRACKET : string := ">".
Definition IMPORT_ENTITY_NAME : string := "import_entity_name".
End CoreParsingKeyword.

(** [CPPParser._token_mappings], in the order of the dict. *)
Definition _token_mappings : list (string * string) :=
  [ (":", " : "); (";", " ; "); ("{", " { "); ("}", " } ");
    ("(", " ( "); (")", " ) "); ("[", " [ "); ("]", " ] ");
    ("?", " ? "); ("!", " ! "); (",", " , "); ("<", " < "); (">", " > ");
    (CoreParsingKeyword.DOUBLE_QUOTE,
     " " ++ CoreParsingKeyword.DOUBLE_QUOTE ++ " ") ].

(** ** Helpers of [ParsingMixin] *)

(** Modelled from the spec: [preprocess_file_content_and_generate_token_list_by_mapping]
    of [ParsingMixin] (absent).  "Every occurrence of a mapped substring is
    surrounded by separators then the whole text is split on whitespace". *)
Definition preprocess_file_content_and_generate_token_list_by_mapping
    (file_content : string) (mapping : list (string * string)) : list string :=
  PyStr.words
    (fold_left (fun content m => PyStr.replace (fst m) (snd m) content)
               mapping file_content).

(** Modelled from the spec: [_gen_word_read_ahead] of [ParsingMixin] (absent).
    "For index i in [0, n), the tuple (i, token[i], token[i+1..n])". *)
Fixpoint gen_word_read_ahead_from (index : nat) (list_of_words : list string)
  : list (nat * string * list string) :=
  match list_of_words with
  | [] => []
  | obj :: following =>
      (index, obj, following) :: gen_word_read_ahead_from (S index) following
  end.

Definition _gen_word_read_ahead (list_of_words : list string)
  : list (nat * string * list string) :=
  gen_word_read_ahead_from 0 list_of_words.

(** Modelled from the spec: [create_read_ahead_string] of [ParsingMixin]
    (absent).  "A read-ahead string built by concatenating the current token
    with following tokens up to end-of-stream"; the tokens are separated by
    one blank, which is what lets keyword and identifier patterns see token
    boundaries. *)
Definition create_read_ahead_string (obj : string) (following : list string)
  : string :=
  PyStr.join " " (obj :: following).

(** The token stream of a comment-free source text: on such a text the
    comment filter has nothing to remove, and the tokenizer gives the stream
    the passes iterate over. *)
Definition tokens_of_source (source : string) : list string :=
  preprocess_file_content_and_generate_token_list_by_mapping source _token_mappings.

(** ** Records *)

(** Modelled from the spec: the entity record built by
    [EntityResult.create_entity_result] ([emerge/results.py], absent), with the
    attributes the parser sets on it.  An attribute the parser may leave unset
    is an [option]; the two flags start out false. *)
Record EntityResult : Type :=
  { entity_name : string;
    entity_type : string;
    namespace : string;
    template_parameters : option (list string);
    base_types : option (list string);
    is_abstract : bool;
    has_virtual_methods : bool;
    template_signature : option string;
    unique_name : string;
    display_name : string }.

Definition create_entity_result (entity_name entity_type namespace : string)
  : EntityResult :=
  {| entity_name := entity_name;
     entity_type := entity_type;
     namespace := namespace;
     template_parameters := None;
     base_types := None;
     is_abstract := false;
     has_virtual_methods := false;
     template_signature := None;
     unique_name := "";
     display_name := "" |}.

Definition set_template_parameters (ps : list string) (e : EntityResult) : EntityResult :=
  {| entity_name := entity_name e; entity_type := entity_type e;
     namespace := namespace e; template_parameters := Some ps;
     base_types := base_types e; is_abstract := is_abstract e;
     has_virtual_methods := has_virtual_methods e;
     template_signature := template_signature e;
     unique_name := unique_name e; display_name := display_name e |}.

Definition set_base_types (bs : list string) (e : EntityResult) : EntityResult :=
  {| entity_name := entity_name e; entity_type := entity_type e;
     namespace := namespace e; template_parameters := template_parameters e;
     base_types := Some bs; is_abstract := is_abstract e;
     has_virtual_methods := has_virtual_methods e;
     template_signature := template_signature e;
     unique_name := unique_name e; display_name := display_name e |}.

Definition set_virtual_flags (abstract virt : bool) (e : EntityResult) : EntityResult :=
  {| entity_name := entity_name e; entity_type := entity_type e;
     namespace := namespace e; template_parameters := template_parameters e;
     base_types := base_types e; is_abstract := abstract;
     has_virtual_methods := virt;
     template_signature := template_signature e;
     unique_name := unique_name e; display_name := display_name e |}.

Definition set_names (signature : option string) (unique display : string)
    (e : EntityResult) : EntityResult :=
  {| entity_name := entity_name e; entity_type := entity_type e;
     namespace := namespace e; template_parameters := template_parameters e;
     base_types := base_types e; is_abstract := is_abstract e;
     has_virtual_methods := has_virtual_methods e;
     template_signature := signature;
     unique_name := unique; display_name := display |}.

(** Modelled from the spec: the statistics sink ([emerge/stats.py], absent),
    "a parse-hit counter" and "the miss counter". *)
Record Statistics : Type := { PARSING_HITS : nat; PARSING_MISSES : nat }.

Definition increment_hits (s : Statistics) : Statistics :=
  {| PARSING_HITS := S (PARSING_HITS s); PARSING_MISSES := PARSING_MISSES s |}.

Definition increment_misses (s : Statistics) : Statistics :=
  {| PARSING_HITS := PARSING_HITS s; PARSING_MISSES := S (PARSING_MISSES s) |}.

(** ** The grammar patterns, as the source builds them *)

Module Patterns.
Import PP CPPParsingKeyword.

(** [pp.Word(pp.alphas + '_', pp.alphanums + '_')] *)
Definition identifier : ParserElement :=
  Word (alphas ++ "_") (alphanums ++ "_").

Definition template_pattern : ParserElement :=
  And [ Keyword TEMPLATE;
        Suppress (Literal "<");
        setResultsName "params"
          (delimitedList
             (Group (And [ Optional (MatchFirst [Keyword "typename"; Keyword "class"]);
                           Word (alphas ++ "_") (alphanums ++ "_") ])));
        Suppress (Literal ">") ].

Definition template_params : ParserElement :=
  Optional
    (And [ Suppress (Literal "<");
           delimitedList
             (MatchFirst [ Word (alphas ++ "_") (alphanums ++ "_");
                           And [Literal "typename"; identifier] ]);
           Suppress (Literal ">") ]).

Definition class_pattern (token : string) : ParserElement :=
  And [ Keyword token;
        setResultsName "name" identifier;
        setResultsName "template_params" template_params;
        Optional
          (And [ Suppress (Literal ":");
                 setResultsName "bases"
                   (delimitedList
                      (And [ Optional (oneOf ["public"; "private"; "protected"]);
                             Word (alphas ++ "_") (alphanums ++ "_") ])) ]) ].

Definition virtual_method_pattern : ParserElement :=
  And [ Keyword VIRTUAL;
        NotAny (Keyword OVERRIDE);
        SkipTo (oneOf [SEMICOLON; PURE_VIRTUAL]) ].

Definition namespace_pattern : ParserElement :=
  And [ Keyword NAMESPACE;
        setResultsName "name" (Word (alphas ++ "_") (alphanums ++ "_")) ].

Definition include_name : ParserElement :=
  Word (alphanums ++ CoreParsingKeyword.DOT ++ CoreParsingKeyword.SLASH
          ++ CoreParsingKeyword.DOUBLE_QUOTE ++ CoreParsingKeyword.UNDERSCORE)
       (alphanums ++ CoreParsingKeyword.DOT ++ CoreParsingKeyword.SLASH
          ++ CoreParsingKeyword.DOUBLE_QUOTE ++ CoreParsingKeyword.UNDERSCORE).

Definition expression_to_match : ParserElement :=
  And [ Keyword INCLUDE;
        ZeroOrMore
          (MatchFirst [ Suppress (Literal CoreParsingKeyword.OPENING_ANGLE_BRACKET);
                        Suppress (Literal CoreParsingKeyword.CLOSING_ANGLE_BRACKET);
                        Suppress (Literal CoreParsingKeyword.DOUBLE_QUOTE) ]);
        setResultsName CoreParsingKeyword.IMPORT_ENTITY_NAME include_name ].

(** [param[-1]] for an element of [parsed.params] *)
Definition last_item (param : ptok) : string :=
  match param with
  | PGroup g => tok_string (List.last g (PStr ""))
  | PStr s => PyStr.last_of (map (fun a => String a "") (list_ascii_of_string s))
  end.

End Patterns.

(** ** The unique-name composer *)

(** [create_unique_entity_name]; every record of this model is an
    [EntityResult], so the [isinstance] guard of the source always passes.
    The record returned is the entity after the assignments. *)
Definition create_unique_entity_name (entity : EntityResult) : EntityResult :=
  let name_parts :=
    (if String.eqb (namespace entity) "" then [] else [namespace entity]) in
  match template_parameters entity with
  | Some (p :: ps) =>
      let template_params :=
        map (fun param =>
               if PyStr.contains "::" param then param
               else PyStr.last_of (PyStr.split "::" param))
            (p :: ps) in
      let template_str := "<" ++ PyStr.join "," template_params ++ ">" in
      let simple_params :=
        map (fun p => PyStr.last_of (PyStr.split "::" p)) (p :: ps) in
      set_names (Some template_str)
                (PyStr.join "::" (name_parts ++ [entity_name entity ++ template_str]))
                (entity_name entity ++ "<" ++ PyStr.join "," simple_params ++ ">")
                entity
  | _ =>
      set_names (template_signature entity)
                (PyStr.join "::" (name_parts ++ [entity_name entity]))
                (entity_name entity)
                entity
  end.

(** ** The entity pass: [generate_entity_results_from_analysis] *)

(** State of the loop over one file's tokens: the three locals of the pass,
    the file record's entity list, the statistics sink and the warnings
    logged so far. *)
Record scan_state : Type :=
  { current_namespace : list string;
    current_template_params : option (list string);
    class_scope_stack : list string;
    scanned_entities : list EntityResult;
    statistics : Statistics;
    warnings : list string }.

Definition initial_state : scan_state :=
  {| current_namespace := [];
     current_template_params := None;
     class_scope_stack := [];
     scanned_entities := [];
     statistics := {| PARSING_HITS := 0; PARSING_MISSES := 0 |};
     warnings := [] |}.

(** [l.pop()]: [None] stands for the [IndexError] of an empty list. *)
Definition pop {A : Type} (l : list A) : option (A * list A) :=
  match rev l with
  | [] => None
  | x :: _ => Some (x, removelast l)
  end.

(** Truth value of [current_template_params] ([None] or a list). *)
Definition params_set (pending : option (list string)) : bool :=
  match pending with
  | Some ps => PyStr.truthy ps
  | None => false
  end.

(** The [for next_token in following] loop of a class/struct match: the
    first [{] pushes the name, a [;] met before it ends the loop. *)
Fixpoint track_scope (following : list string) (name : string)
    (class_scope_stack : list string) : list string :=
  match following with
  | [] => class_scope_stack
  | next_token :: more =>
      if String.eqb next_token CPPParsingKeyword.OPEN_SCOPE
      then class_scope_stack ++ [name]
      else if String.eqb next_token CPPParsingKeyword.SEMICOLON
      then class_scope_stack
      else track_scope more name class_scope_stack
  end.

(** The virtual-method scan of a class/struct match, over the read-ahead
    string of all the tokens that follow. *)
Definition virtual_scan (entity : EntityResult) (following : list string)
  : EntityResult :=
  let read_ahead_class_body := create_read_ahead_string "" following in
  let virtual_methods :=
    PP.searchString Patterns.virtual_method_pattern read_ahead_class_body in
  if existsb (fun method =>
                PyStr.contains CPPParsingKeyword.PURE_VIRTUAL (PP.str method))
             virtual_methods
  then set_virtual_flags true true entity
  else if PyStr.truthy virtual_methods
  then set_virtual_flags (is_abstract entity) true entity
  else entity.

(** ['::'.join(full_namespace) if full_namespace else ''] *)
Definition namespace_of_path (full_namespace : list string) : string :=
  if PyStr.truthy full_namespace then PyStr.join "::" full_namespace else "".

(** The entity a successful class/struct match builds and appends. *)
Definition build_entity (st : scan_state) (token : string)
    (following : list string) (parsed : PP.ParseResults) : EntityResult :=
  let full_namespace := (current_namespace st ++ class_scope_stack st)%list in
  let entity :=
    create_entity_result
      (PP.get_string "name" parsed) token (namespace_of_path full_namespace) in
  let entity :=
    match current_template_params st with
    | Some (p :: ps) => set_template_parameters (p :: ps) entity
    | _ =>
        if PyStr.truthy (PP.get "template_params" parsed)
        then set_template_parameters (PP.get_strings "template_params" parsed) entity
        else entity
    end in
  let entity :=
    if PyStr.truthy (PP.get "bases" parsed)
    then set_base_types (PP.get_strings "bases" parsed) entity
    else entity in
  create_unique_entity_name (virtual_scan entity following).

(** The [template] branch. *)
Definition on_template (st : scan_state) (token : string) (following : list string)
  : scan_state :=
  let read_ahead := create_read_ahead_string token following in
  match PP.parseString Patterns.template_pattern read_ahead with
  | Some parsed =>
      {| current_namespace := current_namespace st;
         current_template_params :=
           Some (map Patterns.last_item (PP.get "params" parsed));
         class_scope_stack := class_scope_stack st;
         scanned_entities := scanned_entities st;
         statistics := increment_hits (statistics st);
         warnings := warnings st |}
  | None =>
      {| current_namespace := current_namespace st;
         current_template_params := None;
         class_scope_stack := class_scope_stack st;
         scanned_entities := scanned_entities st;
         statistics := increment_misses (statistics st);
         warnings := warnings st ++ ["Failed to parse template declaration"] |}
  end.

(** The [class] / [struct] branch. *)
Definition on_class (st : scan_state) (token : string) (following : list string)
  : scan_state :=
  let read_ahead := create_read_ahead_string token following in
  match PP.parseString (Patterns.class_pattern token) read_ahead with
  | Some parsed =>
      {| current_namespace := current_namespace st;
         current_template_params :=
           (if params_set (current_template_params st) then None
            else current_template_params st);
         class_scope_stack :=
           track_scope following (PP.get_string "name" parsed) (class_scope_stack st);
         scanned_entities :=
           scanned_entities st ++ [build_entity st token following parsed];
         statistics := increment_hits (statistics st);
         warnings := warnings st |}
  | None =>
      {| current_namespace := current_namespace st;
         current_template_params := current_template_params st;
         class_scope_stack := class_scope_stack st;
         scanned_entities := scanned_entities st;
         statistics := increment_misses (statistics st);
         warnings := warnings st ++ ["Failed to parse class/struct declaration"] |}
  end.

(** The [namespace] branch. *)
Definition on_namespace (st : scan_state) (token : string) (following : list string)
  : scan_state :=
  let read_ahead := create_read_ahead_string token following in
  match PP.parseString Patterns.namespace_pattern read_ahead with
  | Some parsed =>
      {| current_namespace := current_namespace st ++ [PP.get_string "name" parsed];
         current_template_params := current_template_params st;
         class_scope_stack := class_scope_stack st;
         scanned_entities := scanned_entities st;
         statistics := increment_hits (statistics st);
         warnings := warnings st |}
  | None =>
      {| current_namespace := current_namespace st;
         current_template_params := current_template_params st;
         class_scope_stack := class_scope_stack st;
         scanned_entities := scanned_entities st;
         statistics := increment_misses (statistics st);
         warnings := warnings st ++ ["Failed to parse namespace declaration"] |}
  end.

(** The [}] branch; [None] would be an [IndexError] escaping the pass. *)
Definition on_close_scope (st : scan_state) : option scan_state :=
  if PyStr.truthy (class_scope_stack st) then
    match pop (class_scope_stack st) with
    | Some (_, stack) =>
        Some {| current_namespace := current_namespace st;
                current_template_params := current_template_params st;
                class_scope_stack := stack;
                scanned_entities := scanned_entities st;
                statistics := statistics st;
                warnings := warnings st |}
    | None => None
    end
  else if PyStr.truthy (current_namespace st) then
    match pop (current_namespace st) with
    | Some (_, stack) =>
        Some {| current_namespace := stack;
                current_template_params := current_template_params st;
                class_scope_stack := class_scope_stack st;
                scanned_entities := scanned_entities st;
                statistics := statistics st;
                warnings := warnings st |}
    | None => None
    end
  else Some st.

(** One iteration of the loop over [(idx, token, following)]. *)
Definition scan_token (st : scan_state) (token : string) (following : list string)
  : option scan_state :=
  if String.eqb token CPPParsingKeyword.TEMPLATE then
    Some (on_template st token following)
  else if String.eqb token CPPParsingKeyword.CLASS
          || String.eqb token CPPParsingKeyword.STRUCT then
    Some (on_class st token following)
  else if String.eqb token CPPParsingKeyword.NAMESPACE then
    Some (on_namespace st token following)
  else if String.eqb token CPPParsingKeyword.CLOSE_SCOPE then
    on_close_scope st
  else Some st.

(** The loop over the read-ahead triples. *)
Fixpoint scan_from (st : scan_state) (triples : list (nat * string * list string))
  : option scan_state :=
  match triples with
  | [] => Some st
  | (_, token, following) :: more =>
      match scan_token st token following with
      | Some st' => scan_from st' more
      | None => None
      end
  end.

(** The pass over the tokens of one header file, from empty scope state. *)
Definition scan_entities (filtered_tokens : list string) : option scan_state :=
  scan_from initial_state (_gen_word_read_ahead filtered_tokens).

(** Modelled from the spec: the attributes of a file record ([FileResult],
    [emerge/results.py], absent) that the entity pass reads. *)
Record FileResult : Type :=
  { scanned_file_name : string; scanned_tokens : list string }.

(** [s.endswith(suffix)] *)
Fixpoint endswith (s suffix : string) : bool :=
  String.eqb s suffix ||
  match s with
  | "" => false
  | String _ s' => endswith s' suffix
  end.

Section EntityPass.

(** [_filter_source_tokens_without_comments] of [ParsingMixin] (absent): from
    the scanned tokens and the three comment markers to the source text
    without comments. *)
Variable _filter_source_tokens_without_comments :
  list string -> string -> string -> string -> string.

(** The body of the loop over the results for one file record: files that
    are not headers are skipped; the statistics sink and the log are those of
    the analysis, the scope state starts empty. *)
Definition generate_entity_results_for (stats : Statistics) (log : list string)
    (result : FileResult) : option scan_state :=
  let fresh :=
    {| current_namespace := [];
       current_template_params := None;
       class_scope_stack := [];
       scanned_entities := [];
       statistics := stats;
       warnings := log |} in
  if negb (endswith (scanned_file_name result) ".h"
           || endswith (scanned_file_name result) ".hpp"
           || endswith (scanned_file_name result) ".hxx")
  then Some fresh
  else
    let source_without_comments :=
      _filter_source_tokens_without_comments
        (scanned_tokens result)
        CPPParsingKeyword.INLINE_COMMENT
        CPPParsingKeyword.START_BLOCK_COMMENT
        CPPParsingKeyword.STOP_BLOCK_COMMENT in
    let filtered_tokens :=
      preprocess_file_content_and_generate_token_list_by_mapping
        source_without_comments _token_mappings in
    scan_from fresh (_gen_word_read_ahead filtered_tokens).


End EntityPass.

(** ** Definitions used to state the properties *)

(** The spec's formulas.  Unique name: "join(namespace path segments, [::])
    + [::] + entity name [+ [<] + joined template parameter names + [>]],
    omitting the namespace prefix if empty". *)
Definition spec_template_suffix (names : list string) : string :=
  match names with
  | [] => ""
  | _ :: _ => "<" ++ PyStr.join "," names ++ ">"
  end.

Definition parameters_of (tps : option (list string)) : list string :=
  match tps with Some ps => ps | None => [] end.

Definition spec_unique_name (path : list string) (name : string)
    (tps : option (list string)) : string :=
  match path with
  | [] => name ++ spec_template_suffix (parameters_of tps)
  | _ :: _ =>
      PyStr.join "::" path ++ "::" ++ name ++ spec_template_suffix (parameters_of tps)
  end.

(** Display name: the entity name, then the last [::]-segment of each
    template parameter. *)
Definition last_scope_segment (param : string) : string :=
  PyStr.last_of (PyStr.split "::" param).

Definition spec_display_name (name : string) (tps : option (list string)) : string :=
  name ++ spec_template_suffix (map last_scope_segment (parameters_of tps)).

(** The names of the entity a token stream yields, in order. *)
Definition entity_names (o : option scan_state) : list (string * string) :=
  match o with
  | Some st => map (fun e => (unique_name e, display_name e)) (scanned_entities st)
  | None => []
  end.

(** The token of a class/struct branch. *)
Definition class_or_struct (token : string) : Prop :=
  token = CPPParsingKeyword.CLASS \/ token = CPPParsingKeyword.STRUCT.

(** The template parameters a successful class/struct match attaches. *)
Definition attached_parameters (pending : option (list string))
    (parsed : PP.ParseResults) : option (list string) :=
  match pending with
  | Some (p :: ps) => Some (p :: ps)
  | _ =>
      if PyStr.truthy (PP.get "template_params" parsed)
      then Some (PP.get_strings "template_params" parsed)
      else None
  end.

(** The pattern tried at a token, if the token opens one of the three
    declaration branches. *)
Definition pattern_for (token : string) : option PP.ParserElement :=
  if String.eqb token CPPParsingKeyword.TEMPLATE then
    Some Patterns.template_pattern
  else if String.eqb token CPPParsingKeyword.CLASS
          || String.eqb token CPPParsingKeyword.STRUCT then
    Some (Patterns.class_pattern token)
  else if String.eqb token CPPParsingKeyword.NAMESPACE then
    Some Patterns.namespace_pattern
  else None.

(** The pattern of the token's branch fails on the read-ahead string. *)
Definition grammar_mismatch (token : string) (following : list string) : Prop :=
  exists pattern,
    pattern_for token = Some pattern /\
    PP.parseString pattern (create_read_ahead_string token following) = None.

(** The flags of the entities a token stream yields, in order:
    name, [is_abstract], [has_virtual_methods]. *)
Definition entity_flags (o : option scan_state) : list (string * bool * bool) :=
  match o with
  | Some st =>
      map (fun e => (entity_name e, is_abstract e, has_virtual_methods e))
          (scanned_entities st)
  | None => []
  end.

(** Every name stored in the results of [e] is one of [keys]. *)
Definition keys_in (keys : list string) (e : PP.ParserElement) : Prop :=
  forall c r c',
    PP.parseImpl e c = Some (r, c') ->
    Forall (fun kv => In (fst kv) keys) (PP.tokdict r).

(** Both scope stacks hold non-empty names only. *)
Definition names_nonempty (st : scan_state) : Prop :=
  Forall (fun segment => segment <> "") (current_namespace st) /\
  Forall (fun segment => segment <> "") (class_scope_stack st).

(** A match of [e] does not move backwards, respectively consumes at least
    one character. *)
Definition holds_position (e : PP.ParserElement) : Prop :=
  forall c r c',
    PP.parseImpl e c = Some (r, c') -> PP.remaining c' <= PP.remaining c.

Definition advances (e : PP.ParserElement) : Prop :=
  forall c r c',
    PP.parseImpl e c = Some (r, c') -> PP.remaining c' < PP.remaining c.

(** ** Definitions used to state further properties *)

(** Every character of [s] is one of [chars]. *)
Fixpoint all_in (chars s : string) : bool :=
  match s with
  | "" => true
  | String a s' => PyStr.char_in a chars && all_in chars s'
  end.

(** A whole token that the identifier [Word] of the patterns matches: a
    letter or underscore, then letters, digits and underscores. *)
Definition is_identifier (s : string) : bool :=
  match s with
  | "" => false
  | String a s' =>
      PyStr.char_in a (PP.alphas ++ "_") && all_in (PP.alphanums ++ "_") s'
  end.

(** The tokens that open a declaration branch of the entity pass. *)
Definition declaration_keyword (token : string) : bool :=
  String.eqb token CPPParsingKeyword.TEMPLATE
  || String.eqb token CPPParsingKeyword.CLASS
  || String.eqb token CPPParsingKeyword.STRUCT
  || String.eqb token CPPParsingKeyword.NAMESPACE.

(** The tokens some branch of the entity pass reacts to. *)
Definition changes_state (token : string) : bool :=
  declaration_keyword token || String.eqb token CPPParsingKeyword.CLOSE_SCOPE.

(** Number of read-ahead triples whose token satisfies [p]. *)
Fixpoint count_tokens (p : string -> bool)
    (triples : list (nat * string * list string)) : nat :=
  match triples with
  | [] => 0
  | (_, token, _) :: more =>
      (if p token then 1 else 0) + count_tokens p more
  end.

(** The namespace prefix of a unique name, from the entity's namespace
    string. *)
Definition namespace_prefix (namespace : string) : string :=
  if String.eqb namespace "" then "" else namespace ++ "::".

(** The names of an entity record agree with its other attributes. *)
Definition names_consistent (e : EntityResult) : Prop :=
  unique_name e
    = namespace_prefix (namespace e) ++ entity_name e
        ++ spec_template_suffix (parameters_of (template_parameters e)) /\
  display_name e = spec_display_name (entity_name e) (template_parameters e).


(** The first character of the token after the keyword can start an
    identifier. *)
Definition identifier_follows (following : list string) : bool :=
  match following with
  | String a _ :: _ => PyStr.char_in a (PP.alphas ++ "_")
  | _ => false
  end.

(** The first token after the keyword is there and starts with a character
    that is neither white space nor the start of an identifier. *)
Definition other_token_follows (following : list string) : bool :=
  match following with
  | [] => true
  | String a _ :: _ =>
      negb (PyStr.char_in a (PP.alphas ++ "_")) && negb (PP.is_white a)
  | "" :: _ => false
  end.

(** The characters of the [include_name] word. *)
Definition include_chars : string :=
  PP.alphanums ++ CoreParsingKeyword.DOT ++ CoreParsingKeyword.SLASH
    ++ CoreParsingKeyword.DOUBLE_QUOTE ++ CoreParsingKeyword.UNDERSCORE.

(** A path token: not empty, made of letters, digits, [.], [/] and [_]
    ([_token_mappings] sets a quote apart as a token of its own). *)
Definition is_include_path (s : string) : bool :=
  match s with
  | "" => false
  | String _ _ =>
      all_in (PP.alphanums ++ CoreParsingKeyword.DOT ++ CoreParsingKeyword.SLASH
                ++ CoreParsingKeyword.UNDERSCORE) s
  end.


(** The tokens the include pattern passes over in front of the path. *)
Definition is_include_bracket (token : string) : bool :=
  String.eqb token CoreParsingKeyword.OPENING_ANGLE_BRACKET
  || String.eqb token CoreParsingKeyword.CLOSING_ANGLE_BRACKET
  || String.eqb token CoreParsingKeyword.DOUBLE_QUOTE.

(** [full_file_path.replace(parent_analysis_source_path, "")] of
    [generate_file_result_from_analysis], where [parent] is
    [str(Path(analysis.source_directory).parent)]. *)
Definition relative_file_path_to_analysis (parent full_file_path : string)
  : string :=
  let parent_analysis_source_path := parent ++ "/" in
  PyStr.replace parent_analysis_source_path "" full_file_path.


(** The last character of [s], or [prev] for the empty string. *)
Fixpoint last_char (prev : ascii) (s : string) : ascii :=
  match s with
  | "" => prev
  | String a s' => last_char a s'
  end.

(** What [create_read_ahead_string] puts behind its first token. *)
Definition read_ahead_tail (following : list string) : string :=
  match following with
  | [] => ""
  | _ :: _ => " " ++ PyStr.join " " following
  end.

(** The text behind a word does not go on with a character of [body]. *)
Definition ends_word (body tail : string) : bool :=
  match tail with
  | "" => true
  | String c _ => negb (PyStr.char_in c body)
  end.

(** The tokens of a template header with the given parameter names, each
    introduced by [typename]: [< typename T1 , typename T2 ... >]. *)
Definition more_parameter_tokens (names : list string) : list string :=
  flat_map (fun name => [","; CPPParsingKeyword.TYPENAME; name]) names.

Definition template_header_tokens (first : string) (others : list string)
  : list string :=
  "<" :: CPPParsingKeyword.TYPENAME :: first
      :: (more_parameter_tokens others ++ [">"])%list.

(** The group the template pattern builds for one such parameter. *)
Definition parameter_group (name : string) : PP.ptok :=
  PP.PGroup [PP.PStr CPPParsingKeyword.TYPENAME; PP.PStr name].

(** One parameter of the template pattern, and the body of its
    repetition. *)
Definition template_parameter : PP.ParserElement :=
  PP.Group
    (PP.And [ PP.Optional (PP.MatchFirst [PP.Keyword "typename"; PP.Keyword "class"]);
              PP.Word (PP.alphas ++ "_") (PP.alphanums ++ "_") ]).

Definition next_template_parameter : PP.ParserElement :=
  PP.And [PP.Suppress (PP.Literal ","); template_parameter].

(** ** The include pass: [_add_imports_to_result] *)

Section Imports.

(** [resolve_relative_dependency_path] of [ParsingMixin] (absent): called
    with the include string, the owning file's directory and the source
    directory of the analysis. *)
Variable resolve_relative_dependency_path : string -> string -> string -> string.

(** [_is_dependency_in_ignore_list] of [AbstractParser] (absent), for the
    analysis at hand. *)
Variable _is_dependency_in_ignore_list : string -> bool.

(** [os.path.exists] on the file system of the run, and
    [str(Path(p).parent)]. *)
Variable path_exists : string -> bool.
Variable path_parent : string -> string.

(** [analysis.source_directory] and [str(result.absolute_dir_path)] *)
Variable source_directory : string.
Variable absolute_dir_path : string.

(** [try_resolve_dependency] *)
Definition try_resolve_dependency (dependency : string) : string :=
  let resolved_dependency :=
    resolve_relative_dependency_path dependency absolute_dir_path source_directory in
  let check_dependency_path :=
    path_parent source_directory ++ "/" ++ resolved_dependency in
  if path_exists check_dependency_path then resolved_dependency else dependency.

(** The file record's dependency list, the statistics sink and the
    warnings logged so far. *)
Record import_state : Type :=
  { scanned_import_dependencies : list string;
    import_statistics : Statistics;
    import_warnings : list string }.

Definition initial_imports : import_state :=
  {| scanned_import_dependencies := [];
     import_statistics := {| PARSING_HITS := 0; PARSING_MISSES := 0 |};
     import_warnings := [] |}.

(** One iteration of the loop over [(_, obj, following)]. *)
Definition add_import (st : import_state) (obj : string) (following : list string)
  : import_state :=
  if String.eqb obj CPPParsingKeyword.INCLUDE then
    let read_ahead_string := create_read_ahead_string obj following in
    match PP.parseString Patterns.expression_to_match read_ahead_string with
    | None =>
        {| scanned_import_dependencies := scanned_import_dependencies st;
           import_statistics := increment_misses (import_statistics st);
           import_warnings :=
             import_warnings st ++ ["warning: could not parse result"; "next tokens"] |}
    | Some parsing_result =>
        let dependency :=
          PP.get_string CoreParsingKeyword.IMPORT_ENTITY_NAME parsing_result in
        let resolved_dependency := try_resolve_dependency dependency in
        {| scanned_import_dependencies :=
             (if _is_dependency_in_ignore_list resolved_dependency
              then scanned_import_dependencies st
              else scanned_import_dependencies st ++ [resolved_dependency]);
           import_statistics := increment_hits (import_statistics st);
           import_warnings := import_warnings st |}
    end
  else st.

Fixpoint add_imports_from (st : import_state)
    (triples : list (nat * string * list string)) : import_state :=
  match triples with
  | [] => st
  | (_, obj, following) :: more => add_imports_from (add_import st obj following) more
  end.

(** The pass over the comment-free tokens of one file. *)
Definition _add_imports_to_result (filtered_list_no_comments : list string)
  : import_state :=
  add_imports_from initial_imports (_gen_word_read_ahead filtered_list_no_comments).

(** The include path matched at a token, if the token is [#include] and
    the include pattern matches its read-ahead string. *)
Definition matched_include (obj : string) (following : list string)
  : option string :=
  if String.eqb obj CPPParsingKeyword.INCLUDE then
    match PP.parseString Patterns.expression_to_match
                         (create_read_ahead_string obj following) with
    | Some parsing_result =>
        Some (PP.get_string CoreParsingKeyword.IMPORT_ENTITY_NAME parsing_result)
    | None => None
    end
  else None.

(** The matched include paths of a token stream, in encounter order. *)
Fixpoint matched_includes (triples : list (nat * string * list string))
  : list string :=
  match triples with
  | [] => []
  | (_, obj, following) :: more =>
      match matched_include obj following with
      | Some dependency => dependency :: matched_includes more
      | None => matched_includes more
      end
  end.

(** What one matched include adds to a dependency list. *)
Definition record_dependency (ignored : string -> bool) (resolved : string)
    (dependencies : list string) : list string :=
  if ignored resolved then dependencies else (dependencies ++ [resolved])%list.

(** The state of the include pass after a match whose path resolves to [resolved]. *)
Definition imported (ignored : string -> bool) (resolved : string)
    (st : import_state) : import_state :=
  {| scanned_import_dependencies :=
       (if ignored resolved then scanned_import_dependencies st
        else scanned_import_dependencies st ++ [resolved]);
     import_statistics := increment_hits (import_statistics st);
     import_warnings := import_warnings st |}.


(** *** Properties of the include pass *)

Lemma add_import_dependencies :
  forall st obj following,
    scanned_import_dependencies (add_import st obj following)
    = match matched_include obj following with
      | Some dependency =>
          record_dependency _is_dependency_in_ignore_list
                            (try_resolve_dependency dependency)
                            (scanned_import_dependencies st)
      | None => scanned_import_dependencies st
      end.
Proof.
  intros st obj following. unfold add_import, matched_include.
  destruct (String.eqb obj CPPParsingKeyword.INCLUDE); [|reflexivity].
  destruct (PP.parseString _ _); reflexivity.
Qed.

Lemma add_imports_from_dependencies :
  forall triples st,
    scanned_import_dependencies (add_imports_from st triples)
    = (scanned_import_dependencies st
         ++ filter (fun d => negb (_is_dependency_in_ignore_list d))
                   (map try_resolve_dependency (matched_includes triples)))%list.
Proof.
  induction triples as [|[[index obj] following] more IH]; intros st.
  - cbn. now rewrite app_nil_r.
  - cbn [add_imports_from matched_includes]. rewrite IH.
    rewrite add_import_dependencies.
    destruct (matched_include obj following) as [dependency|]; [|reflexivity].
    cbn [map filter]. unfold record_dependency.
    destruct (_is_dependency_in_ignore_list (try_resolve_dependency dependency));
      cbn [negb].
    + reflexivity.
    + now rewrite <- app_assoc.
Qed.

(** C8.  A matched include path is resolved by
    [resolve_relative_dependency_path] from the include string, the owning
    file's directory and the source directory; the resolved path is adopted
    when it exists below the parent of the source directory (the base the
    resolved path is relative to), otherwise the include string is kept as
    it is.  The resulting string is dropped when the ignore-list predicate
    holds of it and appended to the dependency list otherwise.  Over a whole
    token stream the dependency list is therefore the resolved strings of
    the matched includes, in encounter order, without the ignored ones and
    with repetitions kept: two includes of the same header give two
    entries. *)
Theorem include_dependencies_recorded :
  (forall dependency,
      try_resolve_dependency dependency =
        let resolved :=
          resolve_relative_dependency_path dependency absolute_dir_path
                                           source_directory in
        if path_exists (path_parent source_directory ++ "/" ++ resolved)
        then resolved else dependency) /\
  (forall st obj following,
      scanned_import_dependencies (add_import st obj following)
      = match matched_include obj following with
        | Some dependency =>
            if _is_dependency_in_ignore_list (try_resolve_dependency dependency)
            then scanned_import_dependencies st
            else (scanned_import_dependencies st
                    ++ [try_resolve_dependency dependency])%list
        | None => scanned_import_dependencies st
        end) /\
  (forall tokens,
      scanned_import_dependencies (_add_imports_to_result tokens)
      = filter (fun d => negb (_is_dependency_in_ignore_list d))
               (map try_resolve_dependency
                    (matched_includes (_gen_word_read_ahead tokens)))) /\
  scanned_import_dependencies
    (_add_imports_to_result
       (tokens_of_source "#include <a/b.h> #include <vector> #include <a/b.h>"))
  = filter (fun d => negb (_is_dependency_in_ignore_list d))
           [try_resolve_dependency "a/b.h"; try_resolve_dependency "vector";
            try_resolve_dependency "a/b.h"].
Proof.
  split; [|split; [|split]].
  - intros dependency. reflexivity.
  - intros st obj following.
    rewrite add_import_dependencies.
    destruct (matched_include obj following); reflexivity.
  - intros tokens. unfold _add_imports_to_result.
    rewrite add_imports_from_dependencies. reflexivity.
  - unfold _add_imports_to_result.
    rewrite add_imports_from_dependencies. reflexivity.
Qed.

End Imports.

(** * Properties *)

(** ** Strings *)

Lemma append_empty_r : forall s : string, s ++ "" = s.
Proof.
  induction s as [|a s IH]; simpl; [reflexivity | now rewrite IH].
Qed.

Lemma append_assoc : forall s t u : string, (s ++ t) ++ u = s ++ t ++ u.
Proof.
  induction s as [|a s IH]; intros t u; simpl; [reflexivity | now rewrite IH].
Qed.

Lemma contains_false_inv :
  forall sub a s,
    PyStr.contains sub (String a s) = false ->
    String.prefix sub (String a s) = false /\ PyStr.contains sub s = false.
Proof.
  intros sub a s H.
  change (String.prefix sub (String a s) || PyStr.contains sub s = false) in H.
  now apply orb_false_elim in H.
Qed.

(** A string without the separator is its own single segment. *)
Lemma split_from_without_sep :
  forall sep s cur,
    PyStr.contains sep s = false ->
    PyStr.split_from sep 0 cur s = [cur ++ s].
Proof.
  intros sep s; induction s as [|a s IH]; intros cur H.
  - simpl. now rewrite append_empty_r.
  - apply contains_false_inv in H as [Hpre Hrest].
    cbn [PyStr.split_from]. rewrite Hpre, (IH _ Hrest), append_assoc.
    reflexivity.
Qed.

Lemma last_segment_without_sep :
  forall sep s,
    PyStr.contains sep s = false ->
    PyStr.last_of (PyStr.split sep s) = s.
Proof.
  intros sep s H. unfold PyStr.split.
  now rewrite (split_from_without_sep _ _ _ H).
Qed.

(** What the unique name keeps of a template parameter is the parameter. *)
Lemma unique_name_parameter_kept :
  forall param,
    (if PyStr.contains "::" param then param
     else PyStr.last_of (PyStr.split "::" param)) = param.
Proof.
  intros param. destruct (PyStr.contains "::" param) eqn:H; [reflexivity|].
  now apply last_segment_without_sep.
Qed.

Lemma join_nonempty_head :
  forall sep seg segs, seg <> "" -> PyStr.join sep (seg :: segs) <> "".
Proof.
  intros sep seg segs Hseg. unfold PyStr.join.
  destruct seg as [|a seg]; [contradiction|].
  destruct segs; simpl; discriminate.
Qed.

Lemma join_two : forall sep x y, PyStr.join sep [x; y] = x ++ sep ++ y.
Proof. reflexivity. Qed.

(** ** The loop over the file records *)

(** For a header file the pass is the scan of the re-tokenized comment-free
    text, from empty scope state; other files get no entity. *)
Lemma header_file_pass :
  forall (filter : list string -> string -> string -> string -> string)
         (result : FileResult),
    endswith (scanned_file_name result) ".h"
    || endswith (scanned_file_name result) ".hpp"
    || endswith (scanned_file_name result) ".hxx" = true ->
    generate_entity_results_for filter {| PARSING_HITS := 0; PARSING_MISSES := 0 |} [] result
    = scan_entities
        (preprocess_file_content_and_generate_token_list_by_mapping
           (filter (scanned_tokens result)
                   CPPParsingKeyword.INLINE_COMMENT
                   CPPParsingKeyword.START_BLOCK_COMMENT
                   CPPParsingKeyword.STOP_BLOCK_COMMENT)
           _token_mappings).
Proof.
  intros filter result Hheader.
  unfold generate_entity_results_for. now rewrite Hheader.
Qed.

Lemma implementation_file_skipped :
  forall (filter : list string -> string -> string -> string -> string)
         (stats : Statistics) (log : list string) (result : FileResult),
    endswith (scanned_file_name result) ".h"
    || endswith (scanned_file_name result) ".hpp"
    || endswith (scanned_file_name result) ".hxx" = false ->
    exists st,
      generate_entity_results_for filter stats log result = Some st /\
      scanned_entities st = [] /\ statistics st = stats /\ warnings st = log.
Proof.
  intros filter stats log result Hother.
  unfold generate_entity_results_for. rewrite Hother.
  eexists. repeat split.
Qed.

(** ** The unique-name composer *)

(** The composer against the spec's formulas, for a namespace built from a
    path of non-empty segments. *)
Lemma composed_names :
  forall (path : list string) (name : string) (tps : option (list string))
         (entity : EntityResult),
    Forall (fun segment => segment <> "") path ->
    namespace entity = namespace_of_path path ->
    entity_name entity = name ->
    template_parameters entity = tps ->
    unique_name (create_unique_entity_name entity) = spec_unique_name path name tps /\
    display_name (create_unique_entity_name entity) = spec_display_name name tps.
Proof.
  intros path name tps entity Hpath Hns Hname Htps.
  assert (Hkept : forall ps : list string,
             map (fun param => if PyStr.contains "::" param then param
                               else PyStr.last_of (PyStr.split "::" param)) ps = ps).
  { induction ps as [|q ps IH]; [reflexivity|].
    cbn [map]. now rewrite unique_name_parameter_kept, IH. }
  assert (Hparts :
            forall last_part,
              PyStr.join "::"
                ((if String.eqb (namespace entity) "" then [] else [namespace entity])
                   ++ [last_part])
              = match path with
                | [] => last_part
                | _ :: _ => PyStr.join "::" path ++ "::" ++ last_part
                end).
  { intros last_part. rewrite Hns. destruct path as [|seg segs].
    - reflexivity.
    - unfold namespace_of_path. cbn [PyStr.truthy].
      inversion Hpath as [|? ? Hseg _]; subst.
      destruct (String.eqb_spec (PyStr.join "::" (seg :: segs)) "") as [E|_].
      + now apply join_nonempty_head with (sep := "::") (segs := segs) in Hseg.
      + reflexivity. }
  split.
  - unfold create_unique_entity_name, spec_unique_name.
    rewrite Htps, Hname.
    destruct tps as [[|p ps]|]; cbn [unique_name set_names parameters_of spec_template_suffix];
      rewrite ?Hkept, Hparts; destruct path; now rewrite ?append_empty_r, ?append_assoc.
  - unfold create_unique_entity_name, spec_display_name.
    rewrite Htps, Hname.
    destruct tps as [[|p ps]|]; cbn [display_name set_names parameters_of spec_template_suffix map];
      now rewrite ?append_empty_r.
Qed.

(** C2.  For an entity whose namespace was built from a path of non-empty
    segments (identifiers), [create_unique_entity_name] sets the unique name
    to the path joined with [::], then [::] and the entity name, then the
    template parameter names, whole, joined with a comma between [<] and [>]
    when there are any; the namespace prefix is left out for the empty path.
    The display name is the entity name followed by the last [::]-segment of
    each template parameter.  [template<typename T> class Box { };] yields
    unique name [Box<T>] and display name [Box<T>]. *)
Theorem unique_name_composition :
  forall (path : list string) (name : string) (tps : option (list string))
         (entity : EntityResult),
    Forall (fun segment => segment <> "") path ->
    namespace entity = namespace_of_path path ->
    entity_name entity = name ->
    template_parameters entity = tps ->
    unique_name (create_unique_entity_name entity) = spec_unique_name path name tps /\
    display_name (create_unique_entity_name entity) = spec_display_name name tps /\
    entity_names (scan_entities (tokens_of_source "template<typename T> class Box { };"))
      = [("Box<T>", "Box<T>")].
Proof.
  intros path name tps entity Hpath Hns Hname Htps.
  destruct (composed_names path name tps entity Hpath Hns Hname Htps) as [Hu Hd].
  split; [exact Hu|]. split; [exact Hd|].
  vm_compute. reflexivity.
Qed.

Lemma unique_name_composition_witness :
  unique_name
    (create_unique_entity_name
       (set_template_parameters ["std::string"; "T"]
          (create_entity_result "Box" "class" (namespace_of_path ["app"; "Outer"]))))
    = "app::Outer::Box<std::string,T>" /\
  display_name
    (create_unique_entity_name
       (set_template_parameters ["std::string"; "T"]
          (create_entity_result "Box" "class" (namespace_of_path ["app"; "Outer"]))))
    = "Box<string,T>".
Proof.
  pose proof
    (unique_name_composition ["app"; "Outer"] "Box" (Some ["std::string"; "T"])
       (set_template_parameters ["std::string"; "T"]
          (create_entity_result "Box" "class" (namespace_of_path ["app"; "Outer"]))))
    as H.
  destruct H as (Hu & Hd & _).
  - repeat constructor; discriminate.
  - reflexivity.
  - reflexivity.
  - reflexivity.
  - split; [exact Hu | exact Hd].
Defined.

(** ** The scope tracker *)

Lemma pop_nonempty :
  forall (A : Type) (l : list A),
    l <> [] -> exists x, pop l = Some (x, removelast l) /\ l = (removelast l ++ [x])%list.
Proof.
  intros A l Hl.
  destruct (exists_last Hl) as (l' & x & ->).
  exists x. unfold pop. rewrite rev_unit, removelast_last. split; reflexivity.
Qed.

Lemma truthy_nonempty :
  forall (A : Type) (l : list A), PyStr.truthy l = true -> l <> [].
Proof. intros A [|x l] H; [discriminate | discriminate]. Qed.

(** C5.  A close-scope token pops the class-name stack when it is not
    empty, otherwise the namespace stack when that one is not empty, and
    otherwise changes nothing; the step always returns a state (no pop of an
    empty list, no error), and entities, pending template parameters,
    statistics and warnings stay as they were. *)
Theorem close_scope_pops_innermost :
  forall (st : scan_state) (following : list string),
  exists st',
    scan_token st CPPParsingKeyword.CLOSE_SCOPE following = Some st' /\
    scanned_entities st' = scanned_entities st /\
    current_template_params st' = current_template_params st /\
    statistics st' = statistics st /\
    warnings st' = warnings st /\
    match class_scope_stack st, current_namespace st with
    | _ :: _, _ =>
        (exists name, class_scope_stack st = (class_scope_stack st' ++ [name])%list) /\
        current_namespace st' = current_namespace st
    | [], _ :: _ =>
        class_scope_stack st' = [] /\
        (exists name, current_namespace st = (current_namespace st' ++ [name])%list)
    | [], [] => st' = st
    end.
Proof.
  intros st following.
  change (scan_token st CPPParsingKeyword.CLOSE_SCOPE following) with (on_close_scope st).
  unfold on_close_scope.
  destruct (class_scope_stack st) as [|c cs] eqn:Hc.
  - destruct (current_namespace st) as [|n ns] eqn:Hn.
    + exists st. cbn. repeat split; reflexivity.
    + cbn [PyStr.truthy].
      destruct (pop_nonempty _ (n :: ns)) as (x & Hpop & Hsplit); [discriminate|].
      rewrite Hpop. eexists. split; [reflexivity|]. cbn.
      repeat split; try reflexivity; try assumption.
      exists x. exact Hsplit.
  - cbn [PyStr.truthy].
    destruct (pop_nonempty _ (c :: cs)) as (x & Hpop & Hsplit); [discriminate|].
    rewrite Hpop. eexists. split; [reflexivity|]. cbn.
    repeat split; try reflexivity.
    exists x. exact Hsplit.
Qed.

Lemma scan_token_class :
  forall st token following,
    class_or_struct token ->
    scan_token st token following = Some (on_class st token following).
Proof.
  intros st token following [-> | ->]; reflexivity.
Qed.

Lemma on_class_matched :
  forall st token following parsed,
    PP.parseString (Patterns.class_pattern token)
                   (create_read_ahead_string token following) = Some parsed ->
    on_class st token following =
      {| current_namespace := current_namespace st;
         current_template_params :=
           (if params_set (current_template_params st) then None
            else current_template_params st);
         class_scope_stack :=
           track_scope following (PP.get_string "name" parsed) (class_scope_stack st);
         scanned_entities :=
           scanned_entities st ++ [build_entity st token following parsed];
         statistics := increment_hits (statistics st);
         warnings := warnings st |}.
Proof.
  intros st token following parsed H. unfold on_class. now rewrite H.
Qed.

(** A semicolon met before any open-scope token ends the look-ahead loop
    without a push. *)
Lemma track_scope_forward_declaration :
  forall before_semicolon after_semicolon name stack,
    ~ In CPPParsingKeyword.OPEN_SCOPE before_semicolon ->
    track_scope (before_semicolon ++ CPPParsingKeyword.SEMICOLON :: after_semicolon)
                name stack = stack.
Proof.
  induction before_semicolon as [|t ts IH]; intros after_semicolon name stack Hno.
  - reflexivity.
  - cbn [app track_scope].
    destruct (String.eqb_spec t CPPParsingKeyword.OPEN_SCOPE) as [->|_].
    + exfalso. apply Hno. now left.
    + destruct (String.eqb t CPPParsingKeyword.SEMICOLON); [reflexivity|].
      apply IH. intros Hin. apply Hno. now right.
Qed.

(** C4.  A successful class/struct match whose following tokens show a
    semicolon before any open-scope token (a forward declaration) pushes
    nothing: the class-name stack and the namespace stack are those of
    before the match. *)
Theorem forward_declaration_keeps_stacks :
  forall (st : scan_state) (token : string) (parsed : PP.ParseResults)
         (before_semicolon after_semicolon : list string),
    class_or_struct token ->
    ~ In CPPParsingKeyword.OPEN_SCOPE before_semicolon ->
    PP.parseString
      (Patterns.class_pattern token)
      (create_read_ahead_string
         token (before_semicolon ++ CPPParsingKeyword.SEMICOLON :: after_semicolon))
      = Some parsed ->
    exists st',
      scan_token st token
                 (before_semicolon ++ CPPParsingKeyword.SEMICOLON :: after_semicolon)
        = Some st' /\
      class_scope_stack st' = class_scope_stack st /\
      current_namespace st' = current_namespace st /\
      List.length (class_scope_stack st') = List.length (class_scope_stack st) /\
      List.length (current_namespace st') = List.length (current_namespace st).
Proof.
  intros st token parsed pre post Htoken Hno Hparsed.
  rewrite (scan_token_class _ _ _ Htoken), (on_class_matched _ _ _ _ Hparsed).
  eexists. split; [reflexivity|]. cbn.
  rewrite (track_scope_forward_declaration _ _ _ _ Hno).
  repeat split; reflexivity.
Qed.

Lemma forward_declaration_keeps_stacks_witness :
  exists st',
    scan_token initial_state "class" ["Fwd"; ";"] = Some st' /\
    class_scope_stack st' = [] /\
    current_namespace st' = [] /\
    List.length (class_scope_stack st') = 0 /\
    List.length (current_namespace st') = 0.
Proof.
  refine (forward_declaration_keeps_stacks
            initial_state "class"
            {| PP.toklist := [PP.PStr "class"; PP.PStr "Fwd"];
               PP.tokdict := [("name", [PP.PStr "Fwd"])] |}
            ["Fwd"] [] _ _ _).
  - left. reflexivity.
  - intros [H | []]. discriminate H.
  - vm_compute. reflexivity.
Defined.

(** C3.  [class Outer { class Inner { }; };] from empty scope state: once
    the first three tokens are processed the class-name stack holds [Outer];
    the entity of [Inner] is built under namespace [Outer] and gets the unique
    name [Outer::Inner]; at the end of the stream both stacks are empty. *)
Theorem nested_classes_scope :
  let triples :=
    _gen_word_read_ahead (tokens_of_source "class Outer { class Inner { }; };") in
  (exists st3,
      scan_from initial_state (firstn 3 triples) = Some st3 /\
      class_scope_stack st3 = ["Outer"] /\
      current_namespace st3 = []) /\
  (exists st outer inner,
      scan_from initial_state triples = Some st /\
      scanned_entities st = [outer; inner] /\
      entity_name outer = "Outer" /\ unique_name outer = "Outer" /\
      entity_name inner = "Inner" /\ namespace inner = "Outer" /\
      unique_name inner = "Outer::Inner" /\
      current_namespace st = [] /\
      class_scope_stack st = []).
Proof.
  split.
  - eexists. split; [vm_compute; reflexivity|]. split; reflexivity.
  - do 3 eexists. split; [vm_compute; reflexivity|].
    repeat split; reflexivity.
Qed.

(** ** The entity builder *)

Lemma create_unique_entity_name_keeps :
  forall e,
    entity_name (create_unique_entity_name e) = entity_name e /\
    namespace (create_unique_entity_name e) = namespace e /\
    template_parameters (create_unique_entity_name e) = template_parameters e /\
    is_abstract (create_unique_entity_name e) = is_abstract e /\
    has_virtual_methods (create_unique_entity_name e) = has_virtual_methods e /\
    entity_type (create_unique_entity_name e) = entity_type e.
Proof.
  intros e. unfold create_unique_entity_name.
  destruct (template_parameters e) as [[|p ps]|] eqn:H; cbn; rewrite ?H; repeat split.
Qed.

Lemma virtual_scan_keeps :
  forall e following,
    entity_name (virtual_scan e following) = entity_name e /\
    namespace (virtual_scan e following) = namespace e /\
    template_parameters (virtual_scan e following) = template_parameters e /\
    entity_type (virtual_scan e following) = entity_type e.
Proof.
  intros e following. unfold virtual_scan.
  destruct (existsb _ _); [repeat split|].
  destruct (PyStr.truthy _); repeat split.
Qed.

Lemma build_entity_fields :
  forall st token following parsed,
    entity_name (build_entity st token following parsed) = PP.get_string "name" parsed /\
    namespace (build_entity st token following parsed)
      = namespace_of_path (current_namespace st ++ class_scope_stack st) /\
    template_parameters (build_entity st token following parsed)
      = attached_parameters (current_template_params st) parsed /\
    entity_type (build_entity st token following parsed) = token.
Proof.
  intros st token following parsed. unfold build_entity.
  match goal with
  | |- context [create_unique_entity_name (virtual_scan ?e following)] =>
      destruct (create_unique_entity_name_keeps (virtual_scan e following))
        as (Hn & Hs & Ht & _ & _ & Hk);
      destruct (virtual_scan_keeps e following) as (Hn' & Hs' & Ht' & Hk');
      rewrite Hn, Hs, Ht, Hk, Hn', Hs', Ht', Hk'
  end.
  unfold attached_parameters.
  destruct (current_template_params st) as [[|p ps]|];
    destruct (PyStr.truthy (PP.get "template_params" parsed));
    destruct (PyStr.truthy (PP.get "bases" parsed)); repeat split.
Qed.

Lemma pending_stays_unset :
  forall st token following st',
    token <> CPPParsingKeyword.TEMPLATE ->
    params_set (current_template_params st) = false ->
    scan_token st token following = Some st' ->
    params_set (current_template_params st') = false.
Proof.
  intros st token following st' Htoken Hunset H. unfold scan_token in H.
  destruct (String.eqb_spec token CPPParsingKeyword.TEMPLATE); [contradiction|].
  destruct (String.eqb token CPPParsingKeyword.CLASS
            || String.eqb token CPPParsingKeyword.STRUCT).
  { injection H as <-. unfold on_class.
    destruct (PP.parseString _ _); cbn; [|exact Hunset].
    now rewrite Hunset. }
  destruct (String.eqb token CPPParsingKeyword.NAMESPACE).
  { injection H as <-. unfold on_namespace.
    destruct (PP.parseString _ _); exact Hunset. }
  destruct (String.eqb token CPPParsingKeyword.CLOSE_SCOPE).
  { unfold on_close_scope in H.
    destruct (PyStr.truthy (class_scope_stack st)).
    - destruct (pop (class_scope_stack st)) as [[? ?]|]; [|discriminate].
      now injection H as <-.
    - destruct (PyStr.truthy (current_namespace st)).
      + destruct (pop (current_namespace st)) as [[? ?]|]; [|discriminate].
        now injection H as <-.
      + now injection H as <-. }
  now injection H as <-.
Qed.

Lemma pending_unset_over :
  forall later st0 st_later,
    Forall (fun triple => snd (fst triple) <> CPPParsingKeyword.TEMPLATE) later ->
    params_set (current_template_params st0) = false ->
    scan_from st0 later = Some st_later ->
    params_set (current_template_params st_later) = false.
Proof.
  induction later as [|[[index t] f] later IH]; intros st0 st_later Hlater H0 Hrun.
  - now injection Hrun as <-.
  - cbn [scan_from] in Hrun. inversion Hlater as [|? ? Ht0 Hmore]; subst.
    destruct (scan_token st0 t f) as [st1|] eqn:E; [|discriminate].
    apply (IH st1); [exact Hmore | | exact Hrun].
    now apply (pending_stays_unset st0 t f st1).
Qed.

(** C6.  At a successful class/struct match, pending template parameters
    that are set are the ones attached to the entity, whatever the matcher
    captured inline, and are cleared; the inline capture is attached only
    when no pending parameters are set.  After the match no pending
    parameters are set, and they stay unset over every later token that is
    not a template header, so no later class/struct match gets them. *)
Theorem pending_template_parameters_used_once :
  forall (st : scan_state) (token : string) (following : list string)
         (parsed : PP.ParseResults),
    class_or_struct token ->
    PP.parseString (Patterns.class_pattern token)
                   (create_read_ahead_string token following) = Some parsed ->
    exists st' entity,
      scan_token st token following = Some st' /\
      scanned_entities st' = (scanned_entities st ++ [entity])%list /\
      match current_template_params st with
      | Some (p :: ps) =>
          template_parameters entity = Some (p :: ps) /\
          current_template_params st' = None
      | _ =>
          current_template_params st' = current_template_params st /\
          template_parameters entity =
            (if PyStr.truthy (PP.get "template_params" parsed)
             then Some (PP.get_strings "template_params" parsed)
             else None)
      end /\
      params_set (current_template_params st') = false /\
      (forall later st_later,
          Forall (fun triple => snd (fst triple) <> CPPParsingKeyword.TEMPLATE) later ->
          scan_from st' later = Some st_later ->
          params_set (current_template_params st_later) = false).
Proof.
  intros st token following parsed Htoken Hparsed.
  rewrite (scan_token_class _ _ _ Htoken), (on_class_matched _ _ _ _ Hparsed).
  do 2 eexists. split; [reflexivity|]. cbn.
  split; [reflexivity|].
  destruct (build_entity_fields st token following parsed) as (_ & _ & Ht & _).
  rewrite Ht. unfold attached_parameters.
  assert (Hunset :
            params_set (if params_set (current_template_params st) then None
                        else current_template_params st) = false).
  { destruct (params_set (current_template_params st)) eqn:E; [reflexivity | exact E]. }
  split; [destruct (current_template_params st) as [[|p ps]|]; cbn; repeat split|].
  split; [exact Hunset|].
  intros later st_later Hlater Hrun.
  eapply pending_unset_over; [exact Hlater | | exact Hrun].
  exact Hunset.
Qed.

Lemma pending_template_parameters_used_once_witness :
  exists st' entity,
    scan_token
      {| current_namespace := []; current_template_params := Some ["T"];
         class_scope_stack := []; scanned_entities := [];
         statistics := {| PARSING_HITS := 1; PARSING_MISSES := 0 |};
         warnings := [] |}
      "class" ["Foo"; "<"; "Bar"; ">"; "{"; "}"; ";"] = Some st' /\
    scanned_entities st' = [entity] /\
    template_parameters entity = Some ["T"] /\
    current_template_params st' = None.
Proof.
  destruct (pending_template_parameters_used_once
              {| current_namespace := []; current_template_params := Some ["T"];
                 class_scope_stack := []; scanned_entities := [];
                 statistics := {| PARSING_HITS := 1; PARSING_MISSES := 0 |};
                 warnings := [] |}
              "class" ["Foo"; "<"; "Bar"; ">"; "{"; "}"; ";"]
              {| PP.toklist := [PP.PStr "class"; PP.PStr "Foo"; PP.PStr "Bar"];
                 PP.tokdict := [("name", [PP.PStr "Foo"]);
                                ("template_params", [PP.PStr "Bar"])] |}
              (or_introl eq_refl) eq_refl)
    as (st' & entity & Hstep & Hentities & (Hattached & Hcleared) & _).
  exists st', entity. repeat split; assumption.
Defined.

(** C10.  A successful class/struct match appends exactly one entity
    record, named as matched, to the file's entity list, and does so whatever
    follows: the forward declaration [class Fwd;] yields the entity [Fwd]
    while the class-name stack stays empty. *)
Theorem class_match_appends_one_entity :
  forall (st : scan_state) (token : string) (following : list string)
         (parsed : PP.ParseResults),
    class_or_struct token ->
    PP.parseString (Patterns.class_pattern token)
                   (create_read_ahead_string token following) = Some parsed ->
    (exists st' entity,
        scan_token st token following = Some st' /\
        scanned_entities st' = (scanned_entities st ++ [entity])%list /\
        List.length (scanned_entities st') = S (List.length (scanned_entities st)) /\
        entity_name entity = PP.get_string "name" parsed /\
        entity_type entity = token) /\
    (exists st_fwd entity_fwd,
        scan_entities (tokens_of_source "class Fwd;") = Some st_fwd /\
        scanned_entities st_fwd = [entity_fwd] /\
        entity_name entity_fwd = "Fwd" /\
        class_scope_stack st_fwd = []).
Proof.
  intros st token following parsed Htoken Hparsed. split.
  - rewrite (scan_token_class _ _ _ Htoken), (on_class_matched _ _ _ _ Hparsed).
    do 2 eexists. split; [reflexivity|]. cbn.
    split; [reflexivity|]. split.
    + rewrite length_app. cbn. lia.
    + destruct (build_entity_fields st token following parsed) as (Hn & _ & _ & Hk).
      split; [exact Hn | exact Hk].
  - do 2 eexists. split; [vm_compute; reflexivity|]. repeat split; reflexivity.
Qed.

Lemma class_match_appends_one_entity_witness :
  exists st' entity,
    scan_token initial_state "struct" ["Point"; "{"; "}"; ";"] = Some st' /\
    scanned_entities st' = [entity] /\
    List.length (scanned_entities st') = 1 /\
    entity_name entity = "Point" /\
    entity_type entity = "struct".
Proof.
  exact (proj1
           (class_match_appends_one_entity
              initial_state "struct" ["Point"; "{"; "}"; ";"]
              {| PP.toklist := [PP.PStr "struct"; PP.PStr "Point"];
                 PP.tokdict := [("name", [PP.PStr "Point"])] |}
              (or_intror eq_refl) eq_refl)).
Defined.

(** ** Grammar mismatches *)

(** C7.  When the pattern of a template, class/struct or namespace branch
    fails on its read-ahead string, the step returns a state in which the
    miss counter is one higher, one warning is logged, the hit counter, the
    entity list, the namespace stack and the class-name stack are as before,
    and the pending template parameters are as before except on a template
    mismatch, which clears them; the loop goes on with the next token. *)
Theorem grammar_mismatch_recovers :
  forall (st : scan_state) (index : nat) (token : string)
         (following : list string) (more : list (nat * string * list string)),
    grammar_mismatch token following ->
    exists st' warning,
      scan_token st token following = Some st' /\
      PARSING_MISSES (statistics st') = S (PARSING_MISSES (statistics st)) /\
      PARSING_HITS (statistics st') = PARSING_HITS (statistics st) /\
      warnings st' = (warnings st ++ [warning])%list /\
      scanned_entities st' = scanned_entities st /\
      current_namespace st' = current_namespace st /\
      class_scope_stack st' = class_scope_stack st /\
      current_template_params st' =
        (if String.eqb token CPPParsingKeyword.TEMPLATE then None
         else current_template_params st) /\
      scan_from st ((index, token, following) :: more) = scan_from st' more.
Proof.
  intros st index token following more (pattern & Hpattern & Hfail).
  unfold pattern_for in Hpattern. cbn [scan_from]. unfold scan_token.
  destruct (String.eqb token CPPParsingKeyword.TEMPLATE) eqn:Etemplate.
  - injection Hpattern as <-.
    unfold on_template. rewrite Hfail.
    do 2 eexists. repeat split; reflexivity.
  - destruct (String.eqb token CPPParsingKeyword.CLASS
              || String.eqb token CPPParsingKeyword.STRUCT) eqn:Eclass.
    + injection Hpattern as <-.
      unfold on_class. rewrite Hfail.
      do 2 eexists. repeat split; reflexivity.
    + destruct (String.eqb token CPPParsingKeyword.NAMESPACE) eqn:Enamespace;
        [|discriminate].
      injection Hpattern as <-.
      unfold on_namespace. rewrite Hfail.
      do 2 eexists. repeat split; reflexivity.
Qed.

Lemma grammar_mismatch_recovers_witness :
  exists st' warning,
    scan_token
      {| current_namespace := ["N"]; current_template_params := Some ["T"];
         class_scope_stack := ["Outer"]; scanned_entities := [];
         statistics := {| PARSING_HITS := 3; PARSING_MISSES := 0 |};
         warnings := [] |}
      "template" ["<"; ">"; "class"; "X"; ";"] = Some st' /\
    PARSING_MISSES (statistics st') = 1 /\
    PARSING_HITS (statistics st') = 3 /\
    warnings st' = [warning] /\
    scanned_entities st' = [] /\
    current_namespace st' = ["N"] /\
    class_scope_stack st' = ["Outer"] /\
    current_template_params st' = None /\
    scan_from
      {| current_namespace := ["N"]; current_template_params := Some ["T"];
         class_scope_stack := ["Outer"]; scanned_entities := [];
         statistics := {| PARSING_HITS := 3; PARSING_MISSES := 0 |};
         warnings := [] |}
      [(0, "template", ["<"; ">"; "class"; "X"; ";"])] = scan_from st' [].
Proof.
  exact (grammar_mismatch_recovers
           {| current_namespace := ["N"]; current_template_params := Some ["T"];
              class_scope_stack := ["Outer"]; scanned_entities := [];
              statistics := {| PARSING_HITS := 3; PARSING_MISSES := 0 |};
              warnings := [] |}
           0 "template" ["<"; ">"; "class"; "X"; ";"] []
           (ex_intro _ Patterns.template_pattern (conj eq_refl eq_refl))).
Defined.

(** ** The virtual-method scan *)

Lemma existsb_truthy :
  forall (A : Type) (f : A -> bool) (l : list A),
    existsb f l = true -> PyStr.truthy l = true.
Proof. intros A f [|x l] H; [discriminate | reflexivity]. Qed.

(** The has-virtual-methods flag the scan leaves is decided by the whole
    read-ahead string of the following tokens. *)
Lemma virtual_scan_has_virtual_methods :
  forall e following,
    has_virtual_methods e = false ->
    has_virtual_methods (virtual_scan e following)
      = PyStr.truthy
          (PP.searchString Patterns.virtual_method_pattern
                           (create_read_ahead_string "" following)).
Proof.
  intros e following He. unfold virtual_scan.
  destruct (existsb _ _) eqn:Hany.
  - apply existsb_truthy in Hany. now rewrite Hany.
  - destruct (PyStr.truthy _); [reflexivity | exact He].
Qed.

(** C9.  The virtual-method scan of a class/struct match searches the
    read-ahead string of all the tokens that follow the keyword, to the end of
    the stream: the flag of the built entity is true exactly when the pattern
    is found anywhere in it.  In [class A { }; class B { virtual void f(); };]
    only [B] declares a virtual method and the entity of [A] has
    has_virtual_methods set as well, while [class A { };] alone leaves it
    unset. *)
Theorem virtual_scan_covers_rest_of_file :
  (forall (st : scan_state) (token : string) (following : list string)
          (parsed : PP.ParseResults),
      has_virtual_methods (build_entity st token following parsed)
        = PyStr.truthy
            (PP.searchString Patterns.virtual_method_pattern
                             (PyStr.join " " ("" :: following)))) /\
  entity_flags
    (scan_entities (tokens_of_source "class A { }; class B { virtual void f(); };"))
    = [("A", false, true); ("B", false, true)] /\
  entity_flags (scan_entities (tokens_of_source "class A { };"))
    = [("A", false, false)].
Proof.
  split; [|split; vm_compute; reflexivity].
  intros st token following parsed. unfold build_entity.
  match goal with
  | |- context [create_unique_entity_name (virtual_scan ?e following)] =>
      destruct (create_unique_entity_name_keeps (virtual_scan e following))
        as (_ & _ & _ & _ & Hv & _);
      rewrite Hv; apply virtual_scan_has_virtual_methods
  end.
  destruct (current_template_params st) as [[|p ps]|];
    destruct (PyStr.truthy (PP.get "template_params" parsed));
    destruct (PyStr.truthy (PP.get "bases" parsed)); reflexivity.
Qed.

(** C1, evaluated.  For [class Shape { virtual void area() = 0; };] the
    entity has has_virtual_methods set and is_abstract unset: the text the
    pattern collects after [virtual] stops before the pure-virtual marker, so
    the marker is never found in it.  For
    [class Shape { virtual void area() override; };] the entity has
    has_virtual_methods set and is_abstract unset. *)
Theorem pure_virtual_example_flags :
  entity_flags
    (scan_entities (tokens_of_source "class Shape { virtual void area() = 0; };"))
    = [("Shape", false, true)] /\
  map PP.str
      (PP.searchString
         Patterns.virtual_method_pattern
         (create_read_ahead_string
            "" (tl (tokens_of_source "class Shape { virtual void area() = 0; };"))))
    = ["['virtual', 'void area ( ) ']"] /\
  entity_flags
    (scan_entities (tokens_of_source "class Shape { virtual void area() override; };"))
    = [("Shape", false, true)].
Proof.
  repeat split; vm_compute; reflexivity.
Qed.

(** ** The pure-virtual marker is never found *)

Lemma prefix_append :
  forall p x y, String.prefix p x = true -> String.prefix p (x ++ y) = true.
Proof.
  induction p as [|a p IH]; intros x y H.
  - destruct (x ++ y); reflexivity.
  - destruct x as [|b x]; [discriminate|].
    cbn [String.append String.prefix] in *.
    destruct (ascii_dec a b); [now apply IH | discriminate].
Qed.

Lemma prefix_eat :
  forall lit prev s,
    String.prefix lit s = true ->
    PP.eat lit {| PP.before := prev; PP.rest := s |} <> None.
Proof.
  induction lit as [|a lit IH]; intros prev s H.
  - discriminate.
  - destruct s as [|b s]; [discriminate|].
    cbn [String.prefix] in H. cbn [PP.eat PP.rest].
    destruct (ascii_dec a b) as [->|]; [|discriminate].
    rewrite Ascii.eqb_refl. now apply IH.
Qed.

Lemma first_symbol_none :
  forall symbols c sym,
    PP.first_symbol symbols c = None -> In sym symbols -> PP.eat sym c = None.
Proof.
  induction symbols as [|s symbols IH]; intros c sym H Hin; [contradiction|].
  cbn [PP.first_symbol] in H.
  destruct (PP.eat s c) eqn:E; [discriminate|].
  destruct Hin as [<-|Hin]; [exact E | now apply IH].
Qed.

(** The text [SkipTo] passes over is a prefix of the input, and holds no
    occurrence of a symbol it was looking for. *)
Lemma skip_until_text :
  forall target s prev skipped c,
    PP.skip_until target prev s = Some (skipped, c) ->
    s = skipped ++ PP.rest c.
Proof.
  intros target s; induction s as [|a s IH]; intros prev skipped c H;
    cbn [PP.skip_until] in H.
  - destruct (PP.parse_at false target _); [|discriminate].
    now injection H as <- <-.
  - destruct (PP.parse_at false target _).
    + now injection H as <- <-.
    + destruct (PP.skip_until target (Some a) s) as [[skipped' c']|] eqn:E;
        [|discriminate].
      injection H as <- <-. cbn. f_equal. now apply IH with (prev := Some a).
Qed.

Lemma skip_until_symbol_free :
  forall symbols sym s prev skipped c,
    In sym symbols ->
    PP.skip_until (PP.oneOf symbols) prev s = Some (skipped, c) ->
    PyStr.contains sym skipped = String.prefix sym "".
Proof.
  intros symbols sym s; induction s as [|a s IH]; intros prev skipped c Hin H;
    cbn [PP.skip_until] in H.
  - destruct (PP.parse_at false _ _); [|discriminate].
    injection H as <- <-. cbn. now rewrite orb_false_r.
  - destruct (PP.parse_at false (PP.oneOf symbols) _) eqn:Ehere.
    + injection H as <- <-. cbn. now rewrite orb_false_r.
    + destruct (PP.skip_until (PP.oneOf symbols) (Some a) s)
        as [[skipped' c']|] eqn:E; [|discriminate].
      injection H as <- <-.
      pose proof (skip_until_text _ _ _ _ _ E) as Htext.
      cbn [PyStr.contains]. rewrite (IH _ _ _ Hin E).
      destruct (String.prefix sym (String a skipped')) eqn:Epre.
      * exfalso.
        apply (prefix_eat sym prev (String a s)).
        -- rewrite Htext. now apply (prefix_append sym (String a skipped')).
        -- now apply (first_symbol_none symbols _ sym Ehere).
      * destruct sym; [discriminate Epre | reflexivity].
Qed.

Lemma char_in_cons_false :
  forall c a p,
    PyStr.char_in c (String a p) = false -> a <> c /\ PyStr.char_in c p = false.
Proof.
  intros c a p H.
  change (Ascii.eqb c a || PyStr.char_in c p = false) in H.
  apply orb_false_elim in H as [Hca Hp].
  split; [|exact Hp]. intros ->. now rewrite Ascii.eqb_refl in Hca.
Qed.

Lemma prefix_head_outside :
  forall p c y,
    p <> "" -> PyStr.char_in c p = false -> String.prefix p (String c y) = false.
Proof.
  intros [|a p] c y Hp Hc; [contradiction|].
  apply char_in_cons_false in Hc as [Hac _].
  cbn [String.prefix]. destruct (ascii_dec a c); [contradiction | reflexivity].
Qed.

Lemma prefix_separator :
  forall p c x y,
    PyStr.char_in c p = false ->
    String.prefix p (x ++ String c y) = String.prefix p x.
Proof.
  induction p as [|a p IH]; intros c x y Hc.
  - destruct x; reflexivity.
  - apply char_in_cons_false in Hc as [Hac Hc].
    destruct x as [|b x]; cbn [String.append String.prefix].
    + destruct (ascii_dec a c); [contradiction | reflexivity].
    + destruct (ascii_dec a b); [now apply IH | reflexivity].
Qed.

(** A character outside [p] separates the occurrences of [p]. *)
Lemma contains_separator :
  forall p c x y,
    p <> "" -> PyStr.char_in c p = false ->
    PyStr.contains p (x ++ String c y) = PyStr.contains p x || PyStr.contains p y.
Proof.
  intros p c x y Hp Hc. induction x as [|b x IH].
  - cbn [String.append PyStr.contains].
    rewrite (prefix_head_outside p c y Hp Hc).
    destruct p; [contradiction | reflexivity].
  - cbn [String.append PyStr.contains].
    change (String b (x ++ String c y)) with (String b x ++ String c y).
    rewrite (prefix_separator p c (String b x) y Hc), IH.
    now rewrite orb_assoc.
Qed.

Lemma prefix_escape :
  forall p quote s,
    PyStr.char_in "\"%char p = false -> PyStr.char_in quote p = false ->
    String.prefix p (PP.escape quote s) = String.prefix p s.
Proof.
  induction p as [|a p IH]; intros quote s Hb Hq.
  - destruct s as [|b s]; cbn; [reflexivity|].
    destruct (_ || _); reflexivity.
  - apply char_in_cons_false in Hb as [Hab Hb].
    apply char_in_cons_false in Hq as [Haq Hq].
    destruct s as [|b s]; [reflexivity|]. cbn [PP.escape].
    destruct (Ascii.eqb b "\"%char || Ascii.eqb b quote) eqn:Especial.
    + cbn [String.prefix].
      destruct (ascii_dec a "\"%char); [contradiction|].
      destruct (ascii_dec a b) as [->|]; [|reflexivity].
      apply orb_true_iff in Especial as [E|E]; apply Ascii.eqb_eq in E;
        congruence.
    + cbn [String.prefix]. destruct (ascii_dec a b); [now apply IH | reflexivity].
Qed.

Lemma contains_escape :
  forall p quote s,
    p <> "" ->
    PyStr.char_in "\"%char p = false -> PyStr.char_in quote p = false ->
    PyStr.contains p (PP.escape quote s) = PyStr.contains p s.
Proof.
  intros p quote s Hp Hb Hq. induction s as [|b s IH]; [reflexivity|].
  pose proof (prefix_escape p quote (String b s) Hb Hq) as Hpre.
  cbn [PP.escape] in *.
  destruct (Ascii.eqb b "\"%char || Ascii.eqb b quote) eqn:Especial.
  - cbn [PyStr.contains]. rewrite Hpre, IH.
    assert (Hb' : PyStr.char_in b p = false).
    { apply orb_true_iff in Especial as [E|E]; apply Ascii.eqb_eq in E; now subst. }
    rewrite (prefix_head_outside p b _ Hp Hb'), (prefix_head_outside p b _ Hp Hb').
    reflexivity.
  - cbn [PyStr.contains]. now rewrite Hpre, IH.
Qed.

(** [str] of a match of the virtual-method pattern has the marker only if
    the collected text has it. *)
Lemma str_virtual_match :
  forall skiptext d,
    PyStr.contains CPPParsingKeyword.PURE_VIRTUAL
      (PP.str {| PP.toklist := [PP.PStr "virtual"; PP.PStr skiptext];
                 PP.tokdict := d |})
    = PyStr.contains CPPParsingKeyword.PURE_VIRTUAL skiptext.
Proof.
  intros skiptext d.
  assert (Hshape :
            exists quote,
              PyStr.char_in quote CPPParsingKeyword.PURE_VIRTUAL = false /\
              PP.str {| PP.toklist := [PP.PStr "virtual"; PP.PStr skiptext];
                        PP.tokdict := d |}
              = "['virtual', "
                  ++ String quote (PP.escape quote skiptext ++ String quote "]")).
  { unfold PP.str. cbn [PP.toklist map PP.str_tok].
    change (PP.repr "virtual") with "'virtual'".
    unfold PP.repr.
    destruct (PyStr.char_in "'"%char skiptext
              && negb (PyStr.char_in (ascii_of_nat 34) skiptext)).
    - exists (ascii_of_nat 34). split; [reflexivity|].
      cbn. now rewrite !append_assoc.
    - exists "'"%char. split; [reflexivity|].
      cbn. now rewrite !append_assoc. }
  destruct Hshape as (quote & Hquote & ->).
  rewrite contains_separator by (discriminate || assumption).
  rewrite contains_separator by (discriminate || assumption).
  rewrite contains_escape by (discriminate || assumption || reflexivity).
  change (PyStr.contains CPPParsingKeyword.PURE_VIRTUAL "['virtual', ") with false.
  change (PyStr.contains CPPParsingKeyword.PURE_VIRTUAL "]") with false.
  now rewrite orb_false_r.
Qed.

(** A match of the virtual-method pattern: the keyword, and the text up to
    the first [;] or [= 0]. *)
Lemma virtual_match_shape :
  forall c r c',
    PP.parse_at false Patterns.virtual_method_pattern c = Some (r, c') ->
    exists skiptext,
      r = {| PP.toklist := [PP.PStr "virtual"; PP.PStr skiptext]; PP.tokdict := [] |} /\
      PyStr.contains CPPParsingKeyword.PURE_VIRTUAL skiptext = false.
Proof.
  intros c r c' H.
  unfold Patterns.virtual_method_pattern, PP.And in H.
  unfold PP.parse_at in H at 1. cbn [PP.parseImpl andb PP.skipWhitespace] in H.
  destruct (PP.parse_at false (PP.Keyword CPPParsingKeyword.VIRTUAL) c)
    as [[r0 c0]|] eqn:Ekw; [|discriminate].
  assert (Hr0 : r0 = PP.one_result "virtual").
  { unfold PP.parse_at, PP.Keyword in Ekw. cbn [PP.parseImpl andb] in Ekw.
    destruct (PP.eat _ _); [|discriminate].
    destruct (_ && _); [|discriminate]. now injection Ekw as <- _. }
  subst r0. cbn [PP.and_rest] in H.
  destruct (PP.parse_at true (PP.NotAny _) c0) as [[r1 c1]|] eqn:Enot; [|discriminate].
  assert (Hr1 : r1 = PP.no_results).
  { unfold PP.parse_at, PP.NotAny in Enot. cbn [PP.parseImpl andb PP.skipWhitespace] in Enot.
    destruct (PP.parse_at true _ _); [discriminate|]. now injection Enot as <- _. }
  subst r1.
  destruct (PP.parse_at true (PP.SkipTo _) c1) as [[r2 c2]|] eqn:Eskip; [|discriminate].
  injection H as <- <-.
  unfold PP.parse_at, PP.SkipTo in Eskip.
  cbn [PP.parseImpl andb PP.skipWhitespace PP.oneOf] in Eskip.
  destruct (PP.skip_until _ _ _) as [[skiptext c3]|] eqn:Euntil; [|discriminate].
  injection Eskip as <- <-.
  exists skiptext. split; [reflexivity|].
  apply (skip_until_symbol_free _ CPPParsingKeyword.PURE_VIRTUAL) in Euntil.
  - exact Euntil.
  - right. left. reflexivity.
Qed.

Lemma scan_Forall :
  forall (P : PP.ParseResults -> Prop) e,
    (forall c r c', PP.parse_at false e c = Some (r, c') -> P r) ->
    forall fuel c, Forall P (PP.scan fuel e c).
Proof.
  intros P e He. induction fuel as [|fuel IH]; intros c; [constructor|].
  cbn [PP.scan].
  assert (Hstep : Forall P
            match PP.rest (PP.preParse c) with
            | "" => []
            | String a s' => PP.scan fuel e {| PP.before := Some a; PP.rest := s' |}
            end).
  { destruct (PP.rest (PP.preParse c)); [constructor | apply IH]. }
  destruct (PP.parse_at false e (PP.preParse c)) as [[r c']|] eqn:E; [|exact Hstep].
  destruct (Nat.ltb _ _); [|exact Hstep].
  constructor; [now apply He with (c := PP.preParse c) (c' := c') | apply IH].
Qed.

(** The scan never takes its abstract branch. *)
Lemma virtual_scan_never_abstract :
  forall e following,
    is_abstract (virtual_scan e following) = is_abstract e.
Proof.
  intros e following. unfold virtual_scan.
  match goal with
  | |- context [existsb ?f ?l] =>
      assert (Hnone : existsb f l = false)
  end.
  { unfold PP.searchString.
    match goal with
    | |- existsb _ (PP.scan ?fuel ?e ?c) = false =>
        pose proof (scan_Forall
                      (fun r => PyStr.contains CPPParsingKeyword.PURE_VIRTUAL (PP.str r)
                                = false)
                      e) as Hall;
        specialize (fun H => Hall H fuel c)
    end.
    assert (Hall' := Hall ltac:(
      intros c r c' Hm; apply virtual_match_shape in Hm as (skiptext & -> & Hfree);
      now rewrite str_virtual_match)).
    clear Hall. induction Hall' as [|r l Hr _ IH]; [reflexivity|].
    cbn [existsb]. now rewrite Hr, IH. }
  rewrite Hnone. destruct (PyStr.truthy _); reflexivity.
Qed.

Lemma build_entity_not_abstract :
  forall st token following parsed,
    is_abstract (build_entity st token following parsed) = false.
Proof.
  intros st token following parsed. unfold build_entity.
  match goal with
  | |- context [create_unique_entity_name (virtual_scan ?e following)] =>
      destruct (create_unique_entity_name_keeps (virtual_scan e following))
        as (_ & _ & _ & Ha & _);
      rewrite Ha, virtual_scan_never_abstract
  end.
  destruct (current_template_params st) as [[|p ps]|];
    destruct (PyStr.truthy (PP.get "template_params" parsed));
    destruct (PyStr.truthy (PP.get "bases" parsed)); reflexivity.
Qed.

Lemma scan_token_entities :
  forall st token following st',
    scan_token st token following = Some st' ->
    scanned_entities st' = scanned_entities st \/
    exists parsed,
      scanned_entities st'
      = (scanned_entities st ++ [build_entity st token following parsed])%list.
Proof.
  intros st token following st' H. unfold scan_token in H.
  destruct (String.eqb token CPPParsingKeyword.TEMPLATE).
  { injection H as <-. unfold on_template.
    destruct (PP.parseString _ _); left; reflexivity. }
  destruct (String.eqb token CPPParsingKeyword.CLASS
            || String.eqb token CPPParsingKeyword.STRUCT).
  { injection H as <-. unfold on_class.
    destruct (PP.parseString _ _) as [parsed|]; [right; now exists parsed | now left]. }
  destruct (String.eqb token CPPParsingKeyword.NAMESPACE).
  { injection H as <-. unfold on_namespace.
    destruct (PP.parseString _ _); left; reflexivity. }
  destruct (String.eqb token CPPParsingKeyword.CLOSE_SCOPE).
  { unfold on_close_scope in H.
    destruct (PyStr.truthy (class_scope_stack st)).
    - destruct (pop (class_scope_stack st)) as [[? ?]|]; [|discriminate].
      injection H as <-. now left.
    - destruct (PyStr.truthy (current_namespace st)).
      + destruct (pop (current_namespace st)) as [[? ?]|]; [|discriminate].
        injection H as <-. now left.
      + injection H as <-. now left. }
  injection H as <-. now left.
Qed.

(** No entity of any token stream is ever marked abstract. *)
Theorem entity_pass_never_abstract :
  forall filtered_tokens st,
    scan_entities filtered_tokens = Some st ->
    Forall (fun e => is_abstract e = false) (scanned_entities st).
Proof.
  intros filtered_tokens st. unfold scan_entities.
  assert (Hgen : forall triples st0,
             Forall (fun e => is_abstract e = false) (scanned_entities st0) ->
             scan_from st0 triples = Some st ->
             Forall (fun e => is_abstract e = false) (scanned_entities st)).
  { induction triples as [|[[index token] following] more IH]; intros st0 H0 Hrun.
    - now injection Hrun as <-.
    - cbn [scan_from] in Hrun.
      destruct (scan_token st0 token following) as [st1|] eqn:E; [|discriminate].
      apply (IH st1); [|exact Hrun].
      destruct (scan_token_entities _ _ _ _ E) as [->|(parsed & ->)]; [exact H0|].
      apply Forall_app. split; [exact H0|].
      constructor; [apply build_entity_not_abstract | constructor]. }
  apply Hgen. constructor.
Qed.

(** ** Names matched by the patterns are not empty *)

Lemma keys_in_parse_at :
  forall keys e b c r c',
    keys_in keys e -> PP.parse_at b e c = Some (r, c') ->
    Forall (fun kv => In (fst kv) keys) (PP.tokdict r).
Proof.
  intros keys e b c r c' He H. unfold PP.parse_at in H. now apply He in H.
Qed.

Lemma keys_in_Literal : forall keys lit, keys_in keys (PP.Literal lit).
Proof.
  intros keys lit c r c' H. cbn in H.
  destruct (PP.eat lit c); [|discriminate]. injection H as <- _. constructor.
Qed.

Lemma keys_in_Word : forall keys init body, keys_in keys (PP.Word init body).
Proof.
  intros keys init body c r c' H. cbn in H.
  destruct (PP.rest c) as [|a s]; [discriminate|].
  destruct (PyStr.char_in a init); [|discriminate].
  destruct (PP.span body a s). injection H as <- _. constructor.
Qed.

Lemma keys_in_oneOf : forall keys symbols, keys_in keys (PP.oneOf symbols).
Proof.
  intros keys symbols c r c' H. cbn in H.
  induction symbols as [|sym symbols IH]; [discriminate|].
  cbn in H. destruct (PP.eat sym c); [|now apply IH].
  injection H as <- _. constructor.
Qed.

Lemma keys_in_Suppress : forall keys e, keys_in keys (PP.Suppress e).
Proof.
  intros keys e c r c' H. cbn in H.
  destruct (PP.parse_at false e c) as [[? ?]|]; [|discriminate].
  injection H as <- _. constructor.
Qed.

Lemma keys_in_Optional :
  forall keys e, keys_in keys e -> keys_in keys (PP.Optional e).
Proof.
  intros keys e He c r c' H. cbn in H.
  destruct (PP.parse_at false e c) as [[r0 c0]|] eqn:E.
  - injection H as <- _. now apply (keys_in_parse_at _ _ _ _ _ _ He E).
  - injection H as <- _. constructor.
Qed.

Lemma keys_in_and_rest :
  forall keys exprs acc c r c',
    Forall (keys_in keys) exprs ->
    Forall (fun kv => In (fst kv) keys) (PP.tokdict acc) ->
    PP.and_rest exprs acc c = Some (r, c') ->
    Forall (fun kv => In (fst kv) keys) (PP.tokdict r).
Proof.
  intros keys exprs. induction exprs as [|e exprs IH]; intros acc c r c' He Hacc H.
  - now injection H as <- _.
  - cbn [PP.and_rest] in H. inversion He as [|? ? He1 He2]; subst.
    destruct (PP.parse_at true e c) as [[r1 c1]|] eqn:E; [|discriminate].
    apply (IH _ _ _ _ He2) in H; [exact H|].
    cbn. apply Forall_app. split; [exact Hacc|].
    now apply (keys_in_parse_at _ _ _ _ _ _ He1 E).
Qed.

Lemma keys_in_And :
  forall keys exprs, Forall (keys_in keys) exprs -> keys_in keys (PP.And exprs).
Proof.
  intros keys [|e exprs] He c r c' H.
  - cbn in H. injection H as <- _. constructor.
  - cbn in H. inversion He as [|? ? He1 He2]; subst.
    destruct (PP.parse_at false e c) as [[r1 c1]|] eqn:E; [|discriminate].
    apply (keys_in_and_rest _ _ _ _ _ _ He2) in H; [exact H|].
    now apply (keys_in_parse_at _ _ _ _ _ _ He1 E).
Qed.

Lemma keys_in_MatchFirst :
  forall keys exprs, Forall (keys_in keys) exprs -> keys_in keys (PP.MatchFirst exprs).
Proof.
  intros keys exprs He c r c' H. cbn in H.
  induction He as [|e exprs He1 _ IH]; [discriminate|].
  cbn in H. destruct (PP.parse_at true e c) as [[r1 c1]|] eqn:E; [|now apply IH].
  injection H as <- _. now apply (keys_in_parse_at _ _ _ _ _ _ He1 E).
Qed.

Lemma keys_in_repeat :
  forall keys e fuel acc c,
    keys_in keys e ->
    Forall (fun kv => In (fst kv) keys) (PP.tokdict acc) ->
    Forall (fun kv => In (fst kv) keys) (PP.tokdict (fst (PP.repeat fuel e acc c))).
Proof.
  intros keys e fuel. induction fuel as [|fuel IH]; intros acc c He Hacc; [exact Hacc|].
  cbn [PP.repeat].
  destruct (PP.parse_at true e c) as [[r1 c1]|] eqn:E; [|exact Hacc].
  apply IH; [exact He|]. cbn. apply Forall_app. split; [exact Hacc|].
  now apply (keys_in_parse_at _ _ _ _ _ _ He E).
Qed.

Lemma keys_in_ZeroOrMore :
  forall keys e, keys_in keys e -> keys_in keys (PP.ZeroOrMore e).
Proof.
  intros keys e He c r c' H. unfold PP.ZeroOrMore in H. cbn [PP.parseImpl] in H.
  destruct (PP.parse_at false e c) as [[r1 c1]|] eqn:E.
  - injection H as H.
    change (PP.repeat (S (PP.remaining c1)) e r1 c1 = (r, c')) in H.
    pose proof (keys_in_repeat keys e (S (PP.remaining c1)) r1 c1 He
                  (keys_in_parse_at _ _ _ _ _ _ He E)) as Hrep.
    rewrite H in Hrep. exact Hrep.
  - injection H as <- _. constructor.
Qed.

Lemma keys_in_delimitedList :
  forall keys e, keys_in keys e -> keys_in keys (PP.delimitedList e).
Proof.
  intros keys e He. unfold PP.delimitedList.
  apply keys_in_And. repeat constructor; [exact He|].
  apply keys_in_ZeroOrMore, keys_in_And.
  repeat constructor; [apply keys_in_Suppress | exact He].
Qed.

Lemma keys_in_setResultsName :
  forall keys name e,
    In name keys -> keys_in keys e -> keys_in keys (PP.setResultsName name e).
Proof.
  intros keys name e Hname He c r c' H. cbn in H.
  destruct (PP.parseImpl e c) as [[r0 c0]|] eqn:E; [|discriminate].
  apply He in E.
  destruct (PP.toklist r0); injection H as <- _; [exact E|].
  cbn. apply Forall_app. split; [exact E|]. now constructor.
Qed.

Lemma lookup_absent :
  forall name d,
    Forall (fun kv => fst kv <> name) d -> PP.lookup name d = [].
Proof.
  intros name d H. induction H as [|[k v] d Hk _ IH]; [reflexivity|].
  cbn [PP.lookup]. rewrite IH. cbn in Hk.
  now destruct (String.eqb_spec k name).
Qed.

(** What a named [Word] returns: one non-empty token, stored under the
    name. *)
Lemma named_word_result :
  forall name init body b c r c',
    PP.parse_at b (PP.setResultsName name (PP.Word init body)) c = Some (r, c') ->
    exists w, w <> "" /\
      r = {| PP.toklist := [PP.PStr w]; PP.tokdict := [(name, [PP.PStr w])] |}.
Proof.
  intros name init body b c r c' H.
  unfold PP.parse_at in H. cbn in H.
  destruct (PP.rest _) as [|a s]; [discriminate|].
  destruct (PyStr.char_in a init); [|discriminate].
  destruct (PP.span body a s) as [w c0]. cbn in H. injection H as <- _.
  exists (String a w). split; [discriminate | reflexivity].
Qed.

Lemma keyword_result :
  forall kw b c r c',
    PP.parse_at b (PP.Keyword kw) c = Some (r, c') -> r = PP.one_result kw.
Proof.
  intros kw b c r c' H. unfold PP.parse_at in H. cbn in H.
  destruct (PP.eat kw _); [|discriminate].
  destruct (_ && _); [|discriminate]. now injection H as <- _.
Qed.

Lemma template_params_keys :
  keys_in ["template_params"]
          (PP.setResultsName "template_params" Patterns.template_params).
Proof.
  apply keys_in_setResultsName; [now left|].
  apply keys_in_Optional, keys_in_And.
  repeat constructor.
  - apply keys_in_Suppress.
  - apply keys_in_delimitedList, keys_in_MatchFirst.
    repeat constructor; [apply keys_in_Word|].
    apply keys_in_And. repeat constructor; [apply keys_in_Literal | apply keys_in_Word].
  - apply keys_in_Suppress.
Qed.

Lemma bases_keys :
  keys_in ["bases"]
    (PP.Optional
       (PP.And [ PP.Suppress (PP.Literal ":");
                 PP.setResultsName "bases"
                   (PP.delimitedList
                      (PP.And [ PP.Optional (PP.oneOf ["public"; "private"; "protected"]);
                                PP.Word (PP.alphas ++ "_") (PP.alphanums ++ "_") ])) ])).
Proof.
  apply keys_in_Optional, keys_in_And.
  repeat constructor; [apply keys_in_Suppress|].
  apply keys_in_setResultsName; [now left|].
  apply keys_in_delimitedList, keys_in_And.
  repeat constructor; [apply keys_in_Optional, keys_in_oneOf | apply keys_in_Word].
Qed.

(** The name a class/struct match captures is not empty. *)
Lemma class_name_nonempty :
  forall token read_ahead parsed,
    PP.parseString (Patterns.class_pattern token) read_ahead = Some parsed ->
    PP.get_string "name" parsed <> "".
Proof.
  intros token read_ahead parsed H.
  unfold PP.parseString in H.
  destruct (PP.parse_at true _ _) as [[r c]|] eqn:E; [|discriminate].
  injection H as ->.
  unfold Patterns.class_pattern, PP.And in E.
  unfold PP.parse_at in E at 1. cbn [PP.parseImpl] in E.
  destruct (PP.parse_at false (PP.Keyword token) _) as [[r0 c0]|] eqn:E0; [|discriminate].
  apply keyword_result in E0 as ->.
  cbn [PP.and_rest] in E.
  destruct (PP.parse_at true (PP.setResultsName "name" _) c0) as [[r1 c1]|] eqn:E1;
    [|discriminate].
  apply named_word_result in E1 as (w & Hw & ->).
  destruct (PP.parse_at true (PP.setResultsName "template_params" _) c1)
    as [[r2 c2]|] eqn:E2; [|discriminate].
  apply (keys_in_parse_at _ _ _ _ _ _ template_params_keys) in E2.
  destruct (PP.parse_at true (PP.Optional _) c2) as [[r3 c3]|] eqn:E3; [|discriminate].
  apply (keys_in_parse_at _ _ _ _ _ _ bases_keys) in E3.
  injection E as <- _.
  unfold PP.get_string, PP.get. cbn [PP.tokdict PP.add_results PP.one_result app PP.lookup].
  rewrite lookup_absent.
  - cbn. exact Hw.
  - apply Forall_app. split.
    + eapply Forall_impl; [|exact E2]. intros [k v] [<-|[]]. discriminate.
    + eapply Forall_impl; [|exact E3]. intros [k v] [<-|[]]. discriminate.
Qed.

(** So is the name a namespace match captures. *)
Lemma namespace_name_nonempty :
  forall read_ahead parsed,
    PP.parseString Patterns.namespace_pattern read_ahead = Some parsed ->
    PP.get_string "name" parsed <> "".
Proof.
  intros read_ahead parsed H.
  unfold PP.parseString in H.
  destruct (PP.parse_at true _ _) as [[r c]|] eqn:E; [|discriminate].
  injection H as ->.
  unfold Patterns.namespace_pattern, PP.And in E.
  unfold PP.parse_at in E at 1. cbn [PP.parseImpl] in E.
  destruct (PP.parse_at false (PP.Keyword _) _) as [[r0 c0]|] eqn:E0; [|discriminate].
  apply keyword_result in E0 as ->.
  cbn [PP.and_rest] in E.
  destruct (PP.parse_at true (PP.setResultsName "name" _) c0) as [[r1 c1]|] eqn:E1;
    [|discriminate].
  apply named_word_result in E1 as (w & Hw & ->).
  injection E as <- _. exact Hw.
Qed.

Lemma Forall_removelast :
  forall (A : Type) (P : A -> Prop) (l : list A),
    Forall P l -> Forall P (removelast l).
Proof.
  intros A P l H. induction H as [|x l Hx Hl IH]; [constructor|].
  cbn [removelast]. destruct l; [constructor | now constructor].
Qed.

Lemma track_scope_cases :
  forall following name stack,
    track_scope following name stack = stack \/
    track_scope following name stack = (stack ++ [name])%list.
Proof.
  induction following as [|t ts IH]; intros name stack; [now left|].
  cbn [track_scope].
  destruct (String.eqb t CPPParsingKeyword.OPEN_SCOPE); [now right|].
  destruct (String.eqb t CPPParsingKeyword.SEMICOLON); [now left | apply IH].
Qed.

Lemma on_close_scope_cases :
  forall st,
    exists ns cls,
      on_close_scope st =
        Some {| current_namespace := ns;
                current_template_params := current_template_params st;
                class_scope_stack := cls;
                scanned_entities := scanned_entities st;
                statistics := statistics st;
                warnings := warnings st |} /\
      (ns = current_namespace st \/ ns = removelast (current_namespace st)) /\
      (cls = class_scope_stack st \/ cls = removelast (class_scope_stack st)).
Proof.
  intros st. unfold on_close_scope.
  destruct (class_scope_stack st) as [|c cs] eqn:Hc.
  - destruct (current_namespace st) as [|n ns] eqn:Hn.
    + exists [], []. cbn [PyStr.truthy].
      split; [|auto]. destruct st; cbn in *; now subst.
    + destruct (pop_nonempty _ (n :: ns)) as (x & Hpop & _); [discriminate|].
      cbn [PyStr.truthy]. rewrite Hpop.
      exists (removelast (n :: ns)), []. auto.
  - destruct (pop_nonempty _ (c :: cs)) as (x & Hpop & _); [discriminate|].
    cbn [PyStr.truthy]. rewrite Hpop.
    exists (current_namespace st), (removelast (c :: cs)). auto.
Qed.

(** The pass never stops on an error: every step returns a state. *)
Lemma scan_token_total :
  forall st token following, exists st', scan_token st token following = Some st'.
Proof.
  intros st token following. unfold scan_token.
  destruct (String.eqb token CPPParsingKeyword.TEMPLATE); [eauto|].
  destruct (_ || _); [eauto|].
  destruct (String.eqb token CPPParsingKeyword.NAMESPACE); [eauto|].
  destruct (String.eqb token CPPParsingKeyword.CLOSE_SCOPE); [|eauto].
  destruct (on_close_scope_cases st) as (ns & cls & -> & _). eauto.
Qed.

Lemma scan_entities_total :
  forall filtered_tokens, exists st, scan_entities filtered_tokens = Some st.
Proof.
  intros filtered_tokens. unfold scan_entities.
  generalize initial_state.
  induction (_gen_word_read_ahead filtered_tokens) as [|[[index token] following] more IH];
    intros st; [now exists st|].
  cbn [scan_from].
  destruct (scan_token_total st token following) as (st' & ->). apply IH.
Qed.

Lemma scan_token_names_nonempty :
  forall st token following st',
    names_nonempty st ->
    scan_token st token following = Some st' ->
    names_nonempty st'.
Proof.
  intros st token following st' [Hns Hcls] H. unfold scan_token in H.
  destruct (String.eqb token CPPParsingKeyword.TEMPLATE).
  { injection H as <-. unfold on_template.
    destruct (PP.parseString _ _); split; assumption. }
  destruct (String.eqb token CPPParsingKeyword.CLASS
            || String.eqb token CPPParsingKeyword.STRUCT).
  { injection H as <-. unfold on_class.
    destruct (PP.parseString _ _) as [parsed|] eqn:E; split; try assumption.
    cbn. destruct (track_scope_cases following (PP.get_string "name" parsed)
                                     (class_scope_stack st)) as [-> | ->];
      [assumption|].
    apply Forall_app. split; [assumption|].
    constructor; [now apply class_name_nonempty in E | constructor]. }
  destruct (String.eqb token CPPParsingKeyword.NAMESPACE).
  { injection H as <-. unfold on_namespace.
    destruct (PP.parseString _ _) as [parsed|] eqn:E; split; try assumption.
    cbn. apply Forall_app. split; [assumption|].
    constructor; [now apply namespace_name_nonempty in E | constructor]. }
  destruct (String.eqb token CPPParsingKeyword.CLOSE_SCOPE).
  { destruct (on_close_scope_cases st) as (ns & cls & E & Hn & Hc).
    rewrite E in H. injection H as <-. split; cbn.
    - destruct Hn as [-> | ->]; [assumption | now apply Forall_removelast].
    - destruct Hc as [-> | ->]; [assumption | now apply Forall_removelast]. }
  injection H as <-. now split.
Qed.

Lemma scan_from_names_nonempty :
  forall triples st st',
    names_nonempty st -> scan_from st triples = Some st' -> names_nonempty st'.
Proof.
  induction triples as [|[[index token] following] more IH]; intros st st' Hst H.
  - now injection H as <-.
  - cbn [scan_from] in H.
    destruct (scan_token st token following) as [st1|] eqn:E; [|discriminate].
    apply (IH st1); [|exact H]. now apply (scan_token_names_nonempty _ _ _ _ Hst E).
Qed.

(** ** Enough fuel *)

Lemma skip_white_remaining :
  forall s prev, PP.remaining (PP.skip_white prev s) <= String.length s.
Proof.
  induction s as [|a s IH]; intros prev; cbn [PP.skip_white].
  - cbn. lia.
  - destruct (PP.is_white a); [|cbn; lia].
    specialize (IH (Some a)). cbn [String.length]. lia.
Qed.

Lemma preParse_remaining :
  forall c, PP.remaining (PP.preParse c) <= PP.remaining c.
Proof. intros c. apply skip_white_remaining. Qed.

Lemma parse_at_holds :
  forall e b c r c',
    holds_position e -> PP.parse_at b e c = Some (r, c') ->
    PP.remaining c' <= PP.remaining c.
Proof.
  intros e b c r c' He H. unfold PP.parse_at in H. apply He in H.
  destruct (b && PP.skipWhitespace e); [|exact H].
  pose proof (preParse_remaining c). lia.
Qed.

Lemma parse_at_advances :
  forall e b c r c',
    advances e -> PP.parse_at b e c = Some (r, c') ->
    PP.remaining c' < PP.remaining c.
Proof.
  intros e b c r c' He H. unfold PP.parse_at in H. apply He in H.
  destruct (b && PP.skipWhitespace e); [|exact H].
  pose proof (preParse_remaining c). lia.
Qed.

Lemma advances_holds : forall e, advances e -> holds_position e.
Proof. intros e He c r c' H. apply He in H. lia. Qed.

Lemma eat_remaining :
  forall lit c c',
    PP.eat lit c = Some c' ->
    PP.remaining c' + String.length lit = PP.remaining c.
Proof.
  induction lit as [|a lit IH]; intros c c' H.
  - injection H as <-. cbn. lia.
  - cbn [PP.eat] in H. unfold PP.remaining at 2.
    destruct (PP.rest c) as [|b s]; [discriminate|].
    destruct (Ascii.eqb a b); [|discriminate].
    apply IH in H. cbn in *. lia.
Qed.

Lemma span_remaining :
  forall body s prev,
    PP.remaining (snd (PP.span body prev s)) <= String.length s.
Proof.
  induction s as [|a s IH]; intros prev; cbn [PP.span].
  - cbn. lia.
  - destruct (PyStr.char_in a body); [|cbn; lia].
    specialize (IH a). destruct (PP.span body a s). cbn in *. lia.
Qed.

Lemma advances_Literal :
  forall lit, lit <> "" -> advances (PP.Literal lit).
Proof.
  intros lit Hlit c r c' H. cbn in H.
  destruct (PP.eat lit c) eqn:E; [|discriminate]. injection H as _ <-.
  apply eat_remaining in E. destruct lit; [contradiction|]. cbn in E. lia.
Qed.

Lemma advances_Keyword :
  forall kw, kw <> "" -> advances (PP.Keyword kw).
Proof.
  intros kw Hkw c r c' H. cbn in H.
  destruct (PP.eat kw c) eqn:E; [|discriminate].
  destruct (_ && _); [|discriminate]. injection H as _ <-.
  apply eat_remaining in E. destruct kw; [contradiction|]. cbn in E. lia.
Qed.

Lemma advances_Word : forall init body, advances (PP.Word init body).
Proof.
  intros init body c r c' H. cbn in H. unfold PP.remaining at 2.
  destruct (PP.rest c) as [|a s]; [discriminate|].
  destruct (PyStr.char_in a init); [|discriminate].
  pose proof (span_remaining body s a) as Hspan.
  destruct (PP.span body a s). injection H as _ <-. cbn in *. lia.
Qed.

Lemma holds_oneOf : forall symbols, holds_position (PP.oneOf symbols).
Proof.
  intros symbols c r c' H. cbn in H.
  induction symbols as [|sym symbols IH]; [discriminate|].
  cbn in H. destruct (PP.eat sym c) eqn:E; [|now apply IH].
  injection H as _ <-. apply eat_remaining in E. lia.
Qed.

Lemma advances_Suppress : forall e, advances e -> advances (PP.Suppress e).
Proof.
  intros e He c r c' H. cbn in H.
  destruct (PP.parse_at false e c) as [[r0 c0]|] eqn:E; [|discriminate].
  injection H as _ <-. now apply (parse_at_advances _ _ _ _ _ He E).
Qed.

Lemma holds_Group : forall e, holds_position e -> holds_position (PP.Group e).
Proof.
  intros e He c r c' H. cbn in H.
  destruct (PP.parse_at false e c) as [[r0 c0]|] eqn:E; [|discriminate].
  injection H as _ <-. now apply (parse_at_holds _ _ _ _ _ He E).
Qed.

Lemma holds_Optional : forall e, holds_position e -> holds_position (PP.Optional e).
Proof.
  intros e He c r c' H. cbn in H.
  destruct (PP.parse_at false e c) as [[r0 c0]|] eqn:E.
  - injection H as _ <-. now apply (parse_at_holds _ _ _ _ _ He E).
  - injection H as _ <-. lia.
Qed.

Lemma and_rest_holds :
  forall exprs acc c r c',
    Forall holds_position exprs ->
    PP.and_rest exprs acc c = Some (r, c') ->
    PP.remaining c' <= PP.remaining c.
Proof.
  induction exprs as [|e exprs IH]; intros acc c r c' He H.
  - injection H as _ <-. lia.
  - cbn [PP.and_rest] in H. inversion He as [|? ? He1 He2]; subst.
    destruct (PP.parse_at true e c) as [[r1 c1]|] eqn:E; [|discriminate].
    apply (IH _ _ _ _ He2) in H. apply (parse_at_holds _ _ _ _ _ He1) in E. lia.
Qed.

Lemma advances_And :
  forall e exprs,
    advances e -> Forall holds_position exprs -> advances (PP.And (e :: exprs)).
Proof.
  intros e exprs He Hrest c r c' H. cbn in H.
  destruct (PP.parse_at false e c) as [[r1 c1]|] eqn:E; [|discriminate].
  apply (and_rest_holds _ _ _ _ _ Hrest) in H.
  apply (parse_at_advances _ _ _ _ _ He) in E. lia.
Qed.

Lemma holds_And :
  forall exprs, Forall holds_position exprs -> holds_position (PP.And exprs).
Proof.
  intros [|e exprs] He c r c' H.
  - cbn in H. injection H as _ <-. lia.
  - cbn in H. inversion He as [|? ? He1 He2]; subst.
    destruct (PP.parse_at false e c) as [[r1 c1]|] eqn:E; [|discriminate].
    apply (and_rest_holds _ _ _ _ _ He2) in H.
    apply (parse_at_holds _ _ _ _ _ He1) in E. lia.
Qed.

Lemma advances_MatchFirst :
  forall exprs, Forall advances exprs -> advances (PP.MatchFirst exprs).
Proof.
  intros exprs He c r c' H. cbn in H.
  induction He as [|e exprs He1 _ IH]; [discriminate|].
  cbn in H. destruct (PP.parse_at true e c) as [[r1 c1]|] eqn:E; [|now apply IH].
  injection H as _ <-. now apply (parse_at_advances _ _ _ _ _ He1 E).
Qed.

(** With a body that advances, [repeat] stops on a failure of the body
    before its fuel is used up: any two amounts of fuel above the number of
    characters left give the same result. *)
Lemma repeat_fuel :
  forall e,
    advances e ->
    forall n c acc fuel1 fuel2,
      PP.remaining c < n -> n <= fuel1 -> n <= fuel2 ->
      PP.repeat fuel1 e acc c = PP.repeat fuel2 e acc c.
Proof.
  intros e He. induction n as [|n IH]; intros c acc fuel1 fuel2 Hc H1 H2; [lia|].
  destruct fuel1 as [|fuel1]; [lia|]. destruct fuel2 as [|fuel2]; [lia|].
  cbn [PP.repeat].
  destruct (PP.parse_at true e c) as [[r c']|] eqn:E; [|reflexivity].
  apply (parse_at_advances _ _ _ _ _ He) in E.
  apply IH; lia.
Qed.

(** The same for [scanString]. *)
Lemma scan_fuel :
  forall e n c fuel1 fuel2,
    PP.remaining c < n -> n <= fuel1 -> n <= fuel2 ->
    PP.scan fuel1 e c = PP.scan fuel2 e c.
Proof.
  intros e. induction n as [|n IH]; intros c fuel1 fuel2 Hc H1 H2; [lia|].
  destruct fuel1 as [|fuel1]; [lia|]. destruct fuel2 as [|fuel2]; [lia|].
  cbn [PP.scan].
  pose proof (preParse_remaining c) as Hpre.
  assert (Hstep :
            match PP.rest (PP.preParse c) with
            | "" => []
            | String a s' => PP.scan fuel1 e {| PP.before := Some a; PP.rest := s' |}
            end
            = match PP.rest (PP.preParse c) with
              | "" => []
              | String a s' => PP.scan fuel2 e {| PP.before := Some a; PP.rest := s' |}
              end).
  { unfold PP.remaining in Hpre at 1.
    destruct (PP.rest (PP.preParse c)) as [|a s']; [reflexivity|].
    apply IH; cbn in *; lia. }
  destruct (PP.parse_at false e (PP.preParse c)) as [[r c']|]; [|exact Hstep].
  destruct (Nat.ltb_spec (PP.remaining c') (PP.remaining c)); [|exact Hstep].
  f_equal. apply IH; lia.
Qed.

(** The bodies of the repetitions in the patterns of the source advance. *)
Lemma identifier_advances : advances Patterns.identifier.
Proof. apply advances_Word. Qed.

Lemma delimited_body_advances :
  forall e, holds_position e ->
            advances (PP.And [PP.Suppress (PP.Literal ","); e]).
Proof.
  intros e He. apply advances_And.
  - apply advances_Suppress, advances_Literal. discriminate.
  - now repeat constructor.
Qed.

Lemma pattern_repetitions_advance :
  advances
    (PP.And [ PP.Suppress (PP.Literal ",");
              PP.Group
                (PP.And [ PP.Optional
                            (PP.MatchFirst [PP.Keyword "typename"; PP.Keyword "class"]);
                          PP.Word (PP.alphas ++ "_") (PP.alphanums ++ "_") ]) ]) /\
  advances
    (PP.And [ PP.Suppress (PP.Literal ",");
              PP.MatchFirst [ PP.Word (PP.alphas ++ "_") (PP.alphanums ++ "_");
                              PP.And [PP.Literal "typename"; Patterns.identifier] ] ]) /\
  advances
    (PP.And [ PP.Suppress (PP.Literal ",");
              PP.And [ PP.Optional (PP.oneOf ["public"; "private"; "protected"]);
                       PP.Word (PP.alphas ++ "_") (PP.alphanums ++ "_") ] ]) /\
  advances
    (PP.MatchFirst [ PP.Suppress (PP.Literal CoreParsingKeyword.OPENING_ANGLE_BRACKET);
                     PP.Suppress (PP.Literal CoreParsingKeyword.CLOSING_ANGLE_BRACKET);
                     PP.Suppress (PP.Literal CoreParsingKeyword.DOUBLE_QUOTE) ]).
Proof.
  repeat split.
  - apply delimited_body_advances, holds_Group, holds_And.
    repeat constructor.
    + apply holds_Optional, advances_holds, advances_MatchFirst.
      repeat constructor; apply advances_Keyword; discriminate.
    + apply advances_holds, advances_Word.
  - apply delimited_body_advances, advances_holds, advances_MatchFirst.
    repeat constructor; [apply advances_Word|].
    apply advances_And; [apply advances_Literal; discriminate|].
    repeat constructor. apply advances_holds, identifier_advances.
  - apply delimited_body_advances, holds_And.
    repeat constructor.
    + apply holds_Optional, holds_oneOf.
    + apply advances_holds, advances_Word.
  - apply advances_MatchFirst.
    repeat constructor; apply advances_Suppress, advances_Literal; discriminate.
Qed.

(** ** The names of the entities of a pass *)

(** Whatever the tokens seen so far, a class/struct match builds an entity
    whose unique and display names follow the spec's formulas for the path
    made of the namespace stack and the class-name stack. *)
Lemma built_entity_names :
  forall (seen : list (nat * string * list string)) (st : scan_state)
         (token : string) (following : list string) (parsed : PP.ParseResults),
    scan_from initial_state seen = Some st ->
    unique_name (build_entity st token following parsed)
      = spec_unique_name (current_namespace st ++ class_scope_stack st)
                         (PP.get_string "name" parsed)
                         (attached_parameters (current_template_params st) parsed) /\
    display_name (build_entity st token following parsed)
      = spec_display_name (PP.get_string "name" parsed)
                          (attached_parameters (current_template_params st) parsed).
Proof.
  intros seen st token following parsed Hrun.
  assert (Hnames : names_nonempty st).
  { apply (scan_from_names_nonempty seen initial_state); [|exact Hrun].
    split; constructor. }
  destruct Hnames as [Hns Hcls].
  unfold build_entity.
  match goal with
  | |- context [create_unique_entity_name (virtual_scan ?e following)] =>
      destruct (virtual_scan_keeps e following) as (Hn & Hs & Ht & _);
      apply composed_names; [ now apply Forall_app | rewrite Hs | rewrite Hn | rewrite Ht ]
  end.
  all: unfold attached_parameters;
    destruct (current_template_params st) as [[|p ps]|];
    destruct (PyStr.truthy (PP.get "template_params" parsed));
    destruct (PyStr.truthy (PP.get "bases" parsed)); reflexivity.
Qed.

(** * Further properties of the passes *)

(** ** Counters, log and entity list of the entity pass *)


Lemma on_close_scope_keeps :
  forall st st',
    on_close_scope st = Some st' ->
    scanned_entities st' = scanned_entities st /\
    statistics st' = statistics st /\
    warnings st' = warnings st /\
    current_template_params st' = current_template_params st.
Proof.
  intros st st' H.
  destruct (on_close_scope_cases st) as (ns & cls & E & _).
  rewrite E in H. injection H as <-. repeat split.
Qed.

(** What one step adds: a successful declaration match is a hit, a failed
    one is a miss with one warning, and only a class/struct hit appends an
    entity. *)
Lemma scan_token_accounting :
  forall st token following st',
    scan_token st token following = Some st' ->
    exists hit miss : bool,
      (if hit then 1 else 0) + (if miss then 1 else 0)
        = (if declaration_keyword token then 1 else 0) /\
      PARSING_HITS (statistics st')
        = (if hit then 1 else 0) + PARSING_HITS (statistics st) /\
      PARSING_MISSES (statistics st')
        = (if miss then 1 else 0) + PARSING_MISSES (statistics st) /\
      List.length (warnings st')
        = (if miss then 1 else 0) + List.length (warnings st) /\
      List.length (scanned_entities st') <=
        (if hit then 1 else 0) + List.length (scanned_entities st).
Proof.
  intros st token following st' H. unfold scan_token in H.
  unfold declaration_keyword.
  destruct (String.eqb token CPPParsingKeyword.TEMPLATE).
  { injection H as <-. unfold on_template.
    destruct (PP.parseString _ _);
      [exists true, false | exists false, true]; cbn;
      rewrite ?length_app; cbn; repeat split; lia. }
  destruct (String.eqb token CPPParsingKeyword.CLASS
            || String.eqb token CPPParsingKeyword.STRUCT) eqn:Eclass.
  { injection H as <-. unfold on_class.
    replace (false || String.eqb token CPPParsingKeyword.CLASS
             || String.eqb token CPPParsingKeyword.STRUCT
             || String.eqb token CPPParsingKeyword.NAMESPACE) with true
      by (cbn [orb]; now rewrite Eclass).
    destruct (PP.parseString _ _);
      [exists true, false | exists false, true]; cbn;
      rewrite ?length_app; cbn; repeat split; lia. }
  cbn [orb]. rewrite Eclass. cbn [orb].
  destruct (String.eqb token CPPParsingKeyword.NAMESPACE).
  { injection H as <-. unfold on_namespace.
    destruct (PP.parseString _ _);
      [exists true, false | exists false, true]; cbn;
      rewrite ?length_app; cbn; repeat split; lia. }
  exists false, false.
  destruct (String.eqb token CPPParsingKeyword.CLOSE_SCOPE).
  - apply on_close_scope_keeps in H as (-> & -> & -> & _). cbn. repeat split; lia.
  - injection H as <-. cbn. repeat split; lia.
Qed.

Lemma scan_from_accounting :
  forall triples st st',
    scan_from st triples = Some st' ->
    PARSING_HITS (statistics st') + PARSING_MISSES (statistics st')
      = count_tokens declaration_keyword triples
          + PARSING_HITS (statistics st) + PARSING_MISSES (statistics st) /\
    PARSING_MISSES (statistics st') + List.length (warnings st)
      = PARSING_MISSES (statistics st) + List.length (warnings st') /\
    List.length (scanned_entities st') + PARSING_HITS (statistics st)
      <= List.length (scanned_entities st) + PARSING_HITS (statistics st').
Proof.
  induction triples as [|[[index token] following] more IH]; intros st st' H.
  - injection H as <-. cbn. repeat split; lia.
  - cbn [scan_from count_tokens] in *.
    destruct (scan_token st token following) as [st1|] eqn:E; [|discriminate].
    apply IH in H as (H1 & H2 & H3).
    apply scan_token_accounting in E as (hit & miss & E0 & E1 & E2 & E3 & E4).
    repeat split; lia.
Qed.


(** X2.  Whatever the token stream, no entity of the pass is marked
    abstract: the branch that sets the flag is never taken. *)
Theorem entity_pass_marks_nothing_abstract :
  forall filtered_tokens : list string,
  exists st,
    scan_entities filtered_tokens = Some st /\
    Forall (fun e => is_abstract e = false) (scanned_entities st).
Proof.
  intros filtered_tokens.
  destruct (scan_entities_total filtered_tokens) as (st & Hrun).
  exists st. split; [exact Hrun|].
  now apply (entity_pass_never_abstract filtered_tokens).
Qed.

Lemma scan_token_grows :
  forall st token following st',
    scan_token st token following = Some st' ->
    (exists added, scanned_entities st' = (scanned_entities st ++ added)%list) /\
    (exists logged, warnings st' = (warnings st ++ logged)%list).
Proof.
  intros st token following st' H. unfold scan_token in H.
  destruct (String.eqb token CPPParsingKeyword.TEMPLATE).
  { injection H as <-. unfold on_template.
    destruct (PP.parseString _ _); cbn; split;
      (now exists []; rewrite app_nil_r) || (eexists; reflexivity). }
  destruct (String.eqb token CPPParsingKeyword.CLASS
            || String.eqb token CPPParsingKeyword.STRUCT).
  { injection H as <-. unfold on_class.
    destruct (PP.parseString _ _); cbn; split;
      (now exists []; rewrite app_nil_r) || (eexists; reflexivity). }
  destruct (String.eqb token CPPParsingKeyword.NAMESPACE).
  { injection H as <-. unfold on_namespace.
    destruct (PP.parseString _ _); cbn; split;
      (now exists []; rewrite app_nil_r) || (eexists; reflexivity). }
  destruct (String.eqb token CPPParsingKeyword.CLOSE_SCOPE).
  - apply on_close_scope_keeps in H as (-> & _ & -> & _).
    split; exists []; now rewrite app_nil_r.
  - injection H as <-. split; exists []; now rewrite app_nil_r.
Qed.

Lemma scan_from_grows :
  forall (triples : list (nat * string * list string)) (st : scan_state),
  exists st' added logged,
    scan_from st triples = Some st' /\
    scanned_entities st' = (scanned_entities st ++ added)%list /\
    warnings st' = (warnings st ++ logged)%list.
Proof.
  induction triples as [|[[index token] following] more IH]; intros st.
  - exists st, [], []. now rewrite !app_nil_r.
  - cbn [scan_from].
    destruct (scan_token_total st token following) as (st1 & E). rewrite E.
    destruct (scan_token_grows _ _ _ _ E) as ((a1 & Ha1) & (l1 & Hl1)).
    destruct (IH st1) as (st' & a2 & l2 & Hrun & Ha2 & Hl2).
    exists st', (a1 ++ a2)%list, (l1 ++ l2)%list.
    split; [exact Hrun|].
    rewrite Ha2, Hl2, Ha1, Hl1, !app_assoc. split; reflexivity.
Qed.

(** X3.  From any state and over any tokens, the pass only appends: the
    entity list and the log it started with are prefixes of the ones it ends
    with, and neither counter goes down. *)
Theorem entity_pass_appends_only :
  forall (st : scan_state) (triples : list (nat * string * list string)),
  exists st' added logged,
    scan_from st triples = Some st' /\
    scanned_entities st' = (scanned_entities st ++ added)%list /\
    warnings st' = (warnings st ++ logged)%list /\
    PARSING_HITS (statistics st) <= PARSING_HITS (statistics st') /\
    PARSING_MISSES (statistics st) <= PARSING_MISSES (statistics st').
Proof.
  intros st triples.
  destruct (scan_from_grows triples st) as (st' & added & logged & Hrun & Ha & Hl).
  exists st', added, logged.
  destruct (scan_from_accounting _ _ _ Hrun) as (_ & H2 & H3).
  rewrite Hl in H2. rewrite Ha in H3. rewrite length_app in H2, H3.
  split; [exact Hrun|]. split; [exact Ha|]. split; [exact Hl|].
  split; lia.
Qed.

(** ** The entities of a pass *)

(** The composer leaves a record whose names agree with its attributes. *)
Lemma composer_names_consistent :
  forall e, names_consistent (create_unique_entity_name e).
Proof.
  intros e. unfold names_consistent.
  destruct (create_unique_entity_name_keeps e) as (Hn & Hs & Ht & _).
  rewrite Hn, Hs, Ht.
  assert (Hkept : forall ps : list string,
             map (fun param => if PyStr.contains "::" param then param
                               else PyStr.last_of (PyStr.split "::" param)) ps = ps).
  { induction ps as [|q ps IH]; [reflexivity|].
    cbn [map]. now rewrite unique_name_parameter_kept, IH. }
  assert (Hparts :
            forall last_part,
              PyStr.join "::"
                ((if String.eqb (namespace e) "" then [] else [namespace e])
                   ++ [last_part])
              = namespace_prefix (namespace e) ++ last_part).
  { intros last_part. unfold namespace_prefix.
    destruct (String.eqb (namespace e) ""); cbn [app]; [reflexivity|].
    rewrite join_two. now rewrite append_assoc. }
  unfold create_unique_entity_name, spec_display_name.
  destruct (template_parameters e) as [[|p ps]|];
    cbn [unique_name display_name set_names parameters_of spec_template_suffix];
    rewrite ?Hkept, Hparts, ?append_empty_r; split; reflexivity.
Qed.

Lemma scan_token_entity :
  forall st token following st',
    scan_token st token following = Some st' ->
    scanned_entities st' = scanned_entities st \/
    exists parsed,
      class_or_struct token /\
      PP.parseString (Patterns.class_pattern token)
                     (create_read_ahead_string token following) = Some parsed /\
      scanned_entities st'
      = (scanned_entities st ++ [build_entity st token following parsed])%list.
Proof.
  intros st token following st' H. unfold scan_token in H.
  destruct (String.eqb token CPPParsingKeyword.TEMPLATE).
  { injection H as <-. unfold on_template.
    destruct (PP.parseString _ _); left; reflexivity. }
  destruct (String.eqb token CPPParsingKeyword.CLASS
            || String.eqb token CPPParsingKeyword.STRUCT) eqn:Eclass.
  { injection H as <-. unfold on_class.
    destruct (PP.parseString _ _) as [parsed|] eqn:E; [|now left].
    right. exists parsed. repeat split.
    apply orb_true_iff in Eclass as [Ec|Ec]; apply String.eqb_eq in Ec;
      [now left | now right]. }
  destruct (String.eqb token CPPParsingKeyword.NAMESPACE).
  { injection H as <-. unfold on_namespace.
    destruct (PP.parseString _ _); left; reflexivity. }
  destruct (String.eqb token CPPParsingKeyword.CLOSE_SCOPE).
  - apply on_close_scope_keeps in H as (-> & _). now left.
  - injection H as <-. now left.
Qed.

Lemma scan_from_entities_invariant :
  forall (P : EntityResult -> Prop),
    (forall st token following parsed,
        class_or_struct token ->
        PP.parseString (Patterns.class_pattern token)
                       (create_read_ahead_string token following) = Some parsed ->
        P (build_entity st token following parsed)) ->
    forall triples st st',
      Forall P (scanned_entities st) ->
      scan_from st triples = Some st' ->
      Forall P (scanned_entities st').
Proof.
  intros P HP. induction triples as [|[[index token] following] more IH];
    intros st st' Hst Hrun.
  - now injection Hrun as <-.
  - cbn [scan_from] in Hrun.
    destruct (scan_token st token following) as [st1|] eqn:E; [|discriminate].
    apply (IH st1); [|exact Hrun].
    destruct (scan_token_entity _ _ _ _ E) as [->|(parsed & Ht & Hp & ->)];
      [exact Hst|].
    apply Forall_app. split; [exact Hst|].
    constructor; [now apply HP | constructor].
Qed.

(** X4.  Every entity of a pass, whatever the token stream, is of type
    [class] or [struct], has a non-empty name, and carries a unique name and
    a display name that agree with its own namespace, name and template
    parameters. *)
Theorem entity_pass_records_consistent :
  forall filtered_tokens : list string,
  exists st,
    scan_entities filtered_tokens = Some st /\
    Forall (fun e =>
              (entity_type e = CPPParsingKeyword.CLASS
               \/ entity_type e = CPPParsingKeyword.STRUCT) /\
              entity_name e <> "" /\
              names_consistent e)
           (scanned_entities st).
Proof.
  intros filtered_tokens.
  destruct (scan_entities_total filtered_tokens) as (st & Hrun).
  exists st. split; [exact Hrun|].
  unfold scan_entities in Hrun.
  apply (scan_from_entities_invariant _) with (3 := Hrun); [|constructor].
  intros st0 token following parsed Htoken Hparsed.
  destruct (build_entity_fields st0 token following parsed) as (Hn & _ & _ & Hk).
  rewrite Hk, Hn. split; [exact Htoken|].
  split; [now apply class_name_nonempty in Hparsed|].
  unfold build_entity. apply composer_names_consistent.
Qed.

(** ** Tokens without effect *)

Lemma scan_token_inert :
  forall st token following,
    changes_state token = false -> scan_token st token following = Some st.
Proof.
  intros st token following H. unfold changes_state, declaration_keyword in H.
  repeat (apply orb_false_elim in H as [H ?]).
  unfold scan_token.
  repeat match goal with E : _ = false |- _ => rewrite E; clear E end.
  reflexivity.
Qed.

(** X5.  Only [template], [class], [struct], [namespace] and [}] tokens
    change the state of the pass: a run of other tokens, such as [{], [;] or
    plain identifiers, leaves stacks, pending parameters, entities, counters
    and log as they are. *)
Theorem other_tokens_leave_state :
  forall (st : scan_state) (triples : list (nat * string * list string)),
    Forall (fun triple => changes_state (snd (fst triple)) = false) triples ->
    scan_from st triples = Some st.
Proof.
  intros st triples H. induction H as [|[[index token] following] more Ht _ IH].
  - reflexivity.
  - cbn [scan_from]. cbn in Ht. now rewrite (scan_token_inert _ _ _ Ht).
Qed.

Lemma other_tokens_leave_state_witness :
  scan_from
    {| current_namespace := ["N"]; current_template_params := Some ["T"];
       class_scope_stack := ["C"]; scanned_entities := [];
       statistics := {| PARSING_HITS := 2; PARSING_MISSES := 0 |};
       warnings := [] |}
    (_gen_word_read_ahead ["{"; "int"; "x"; ";"; "void"; "f"; "("; ")"; ";"])
  = Some
      {| current_namespace := ["N"]; current_template_params := Some ["T"];
         class_scope_stack := ["C"]; scanned_entities := [];
         statistics := {| PARSING_HITS := 2; PARSING_MISSES := 0 |};
         warnings := [] |}.
Proof.
  apply other_tokens_leave_state.
  repeat constructor.
Defined.

(** ** Runs of closing braces *)

Lemma on_close_scope_result :
  forall st,
    on_close_scope st =
      Some {| current_namespace :=
                (match class_scope_stack st with
                 | [] => removelast (current_namespace st)
                 | _ :: _ => current_namespace st
                 end);
              current_template_params := current_template_params st;
              class_scope_stack := removelast (class_scope_stack st);
              scanned_entities := scanned_entities st;
              statistics := statistics st;
              warnings := warnings st |}.
Proof.
  intros st. unfold on_close_scope.
  destruct (class_scope_stack st) as [|c cs] eqn:Hc.
  - destruct (current_namespace st) as [|n ns] eqn:Hn.
    + cbn. f_equal. destruct st; cbn in *; now subst.
    + destruct (pop_nonempty _ (n :: ns)) as (x & Hpop & _); [discriminate|].
      cbn [PyStr.truthy]. now rewrite Hpop.
  - destruct (pop_nonempty _ (c :: cs)) as (x & Hpop & _); [discriminate|].
    cbn [PyStr.truthy]. now rewrite Hpop.
Qed.

(** X6.  A run of [k] closing braces takes the innermost [k] scopes off,
    class names first and namespace segments after them, and stops at the
    empty state: with [c] class names and [n] namespace segments open, the
    first [c - k] class names and the first [n - (k - c)] segments remain.
    Pending parameters, entities, counters and log are untouched. *)
Theorem closing_braces_unwind :
  forall (closes : list (nat * string * list string)) (st : scan_state),
    Forall (fun triple => snd (fst triple) = CPPParsingKeyword.CLOSE_SCOPE) closes ->
    exists st',
      scan_from st closes = Some st' /\
      class_scope_stack st'
        = firstn (List.length (class_scope_stack st) - List.length closes)
                 (class_scope_stack st) /\
      current_namespace st'
        = firstn (List.length (current_namespace st)
                  - (List.length closes - List.length (class_scope_stack st)))
                 (current_namespace st) /\
      current_template_params st' = current_template_params st /\
      scanned_entities st' = scanned_entities st /\
      statistics st' = statistics st /\
      warnings st' = warnings st.
Proof.
  induction closes as [|[[index token] following] more IH]; intros st Hcloses.
  - exists st. split; [reflexivity|]. cbn [List.length].
    rewrite !Nat.sub_0_r, !firstn_all. repeat split.
  - inversion Hcloses as [|? ? Htoken Hmore]; subst. cbn in Htoken. subst token.
    cbn [scan_from].
    change (scan_token st CPPParsingKeyword.CLOSE_SCOPE following)
      with (on_close_scope st).
    rewrite on_close_scope_result.
    match goal with
    | |- context [scan_from ?s more] => destruct (IH s Hmore)
        as (st' & Hrun & Hcls & Hns & Hp & He & Hs & Hw)
    end.
    exists st'. split; [exact Hrun|].
    cbn in Hcls, Hns, Hp, He, Hs, Hw.
    rewrite Hcls, Hns, Hp, He, Hs, Hw. cbn [List.length].
    rewrite !removelast_firstn_len, !firstn_firstn, !length_firstn.
    repeat split.
    + f_equal. lia.
    + destruct (class_scope_stack st) as [|c cs]; cbn [List.length].
      * rewrite ?removelast_firstn_len, ?firstn_firstn, ?length_firstn.
        f_equal. cbn [Init.Nat.pred]. lia.
      * f_equal. lia.
Qed.

Lemma closing_braces_unwind_witness :
  exists st',
    scan_from
      {| current_namespace := ["a"; "b"]; current_template_params := None;
         class_scope_stack := ["Outer"; "Inner"]; scanned_entities := [];
         statistics := {| PARSING_HITS := 4; PARSING_MISSES := 0 |};
         warnings := [] |}
      [(0, "}", [";"; "}"; "}"]); (2, "}", ["}"]); (3, "}", [])] = Some st' /\
    class_scope_stack st' = [] /\
    current_namespace st' = ["a"].
Proof.
  destruct (closing_braces_unwind
              [(0, "}", [";"; "}"; "}"]); (2, "}", ["}"]); (3, "}", [])]
              {| current_namespace := ["a"; "b"]; current_template_params := None;
                 class_scope_stack := ["Outer"; "Inner"]; scanned_entities := [];
                 statistics := {| PARSING_HITS := 4; PARSING_MISSES := 0 |};
                 warnings := [] |})
    as (st' & Hrun & Hcls & Hns & _).
  - repeat constructor.
  - exists st'. split; [exact Hrun|]. split; [exact Hcls | exact Hns].
Defined.


(** ** Headers followed by an identifier *)

Lemma read_ahead_shape :
  forall obj following,
    create_read_ahead_string obj following = obj ++ read_ahead_tail following.
Proof.
  intros obj [|x more]; unfold create_read_ahead_string, PyStr.join; cbn.
  - now rewrite append_empty_r.
  - reflexivity.
Qed.

Lemma read_ahead_tail_ends_word :
  forall body following,
    PyStr.char_in " "%char body = false ->
    ends_word body (read_ahead_tail following) = true.
Proof.
  intros body [|x more] H; cbn; [reflexivity | now rewrite H].
Qed.

Lemma span_word :
  forall body w tail prev,
    all_in body w = true ->
    ends_word body tail = true ->
    PP.span body prev (w ++ tail)
    = (w, {| PP.before := Some (last_char prev w); PP.rest := tail |}).
Proof.
  intros body w tail. induction w as [|a w IH]; intros prev Hw Htail.
  - cbn [String.append last_char]. destruct tail as [|c tail]; [reflexivity|].
    cbn in Htail. cbn [PP.span].
    destruct (PyStr.char_in c body); [discriminate | reflexivity].
  - cbn [all_in] in Hw. apply andb_true_iff in Hw as [Ha Hw].
    cbn [String.append PP.span last_char]. rewrite Ha, (IH a Hw Htail).
    reflexivity.
Qed.

Lemma identifier_start_not_white :
  forall a,
    PyStr.char_in a (PP.alphas ++ "_") = true -> PP.is_white a = false.
Proof.
  intros a H. destruct (PP.is_white a) eqn:E; [|reflexivity].
  unfold PP.is_white, PP.DEFAULT_WHITE_CHARS in E. cbn [existsb] in E.
  repeat (apply orb_true_iff in E as [E|E]);
    try (apply Ascii.eqb_eq in E; subst a; discriminate H).
  discriminate E.
Qed.

(** A named identifier [Word], tried in front of a blank and an identifier
    token, matches the whole token. *)
Lemma named_identifier_matches :
  forall name w tail prev,
    is_identifier w = true ->
    ends_word (PP.alphanums ++ "_") tail = true ->
    exists b,
      PP.parse_at true
        (PP.setResultsName name (PP.Word (PP.alphas ++ "_") (PP.alphanums ++ "_")))
        {| PP.before := prev; PP.rest := String " " (w ++ tail) |}
      = Some ({| PP.toklist := [PP.PStr w]; PP.tokdict := [(name, [PP.PStr w])] |},
              {| PP.before := b; PP.rest := tail |}).
Proof.
  intros name w tail prev Hw Htail.
  destruct w as [|a w]; [discriminate|].
  cbn [is_identifier] in Hw. apply andb_true_iff in Hw as [Ha Hw].
  exists (Some (last_char a w)).
  unfold PP.parse_at.
  cbn [PP.setResultsName PP.skipWhitespace PP.Word andb PP.parseImpl].
  unfold PP.preParse. cbn [PP.before PP.rest].
  change (PP.skip_white prev (String " " (String a w ++ tail)))
    with (PP.skip_white (Some " "%char) (String a (w ++ tail))).
  cbn [PP.skip_white]. rewrite (identifier_start_not_white a Ha).
  cbn [PP.rest]. rewrite Ha, (span_word _ _ _ _ Hw Htail).
  reflexivity.
Qed.

Lemma optional_matches :
  forall e b c, exists r c', PP.parse_at b (PP.Optional e) c = Some (r, c').
Proof.
  intros e b c. unfold PP.parse_at. cbn [PP.parseImpl PP.Optional].
  destruct (PP.parse_at false e _) as [[r c']|]; eauto.
Qed.

Lemma named_optional_matches :
  forall name e b c,
  exists r c', PP.parse_at b (PP.setResultsName name (PP.Optional e)) c = Some (r, c').
Proof.
  intros name e b c. unfold PP.parse_at.
  cbn [PP.parseImpl PP.setResultsName PP.Optional PP.skipWhitespace].
  destruct (PP.parse_at false e _) as [[r c']|].
  - destruct (PP.toklist r); eauto.
  - cbn. eauto.
Qed.

(** After the name, the class/struct pattern cannot fail, and nothing it
    stores is called [name]. *)
Lemma class_pattern_after_name :
  forall acc c,
  exists r c',
    PP.and_rest
      [ PP.setResultsName "template_params" Patterns.template_params;
        PP.Optional
          (PP.And [ PP.Suppress (PP.Literal ":");
                    PP.setResultsName "bases"
                      (PP.delimitedList
                         (PP.And [ PP.Optional (PP.oneOf ["public"; "private"; "protected"]);
                                   PP.Word (PP.alphas ++ "_") (PP.alphanums ++ "_") ])) ]) ]
      acc c = Some (r, c') /\
    PP.lookup "name" (PP.tokdict r) = PP.lookup "name" (PP.tokdict acc).
Proof.
  intros acc c. cbn [PP.and_rest].
  destruct (named_optional_matches "template_params"
              (PP.And [ PP.Suppress (PP.Literal "<");
                        PP.delimitedList
                          (PP.MatchFirst [ PP.Word (PP.alphas ++ "_") (PP.alphanums ++ "_");
                                           PP.And [PP.Literal "typename"; Patterns.identifier] ]);
                        PP.Suppress (PP.Literal ">") ])
              true c) as (r2 & c2 & E2).
  change (PP.setResultsName "template_params" (PP.Optional _))
    with (PP.setResultsName "template_params" Patterns.template_params) in E2.
  rewrite E2.
  match goal with
  | |- context [PP.parse_at true (PP.Optional ?e) c2] =>
      destruct (optional_matches e true c2) as (r3 & c3 & E3)
  end.
  rewrite E3. exists (PP.add_results (PP.add_results acc r2) r3), c3.
  split; [reflexivity|].
  apply (keys_in_parse_at _ _ _ _ _ _ template_params_keys) in E2.
  apply (keys_in_parse_at _ _ _ _ _ _ bases_keys) in E3.
  cbn [PP.tokdict PP.add_results]. rewrite <- app_assoc.
  assert (Habsent : PP.lookup "name" (PP.tokdict r2 ++ PP.tokdict r3)%list = []).
  { apply lookup_absent, Forall_app. split.
    - eapply Forall_impl; [|exact E2]. intros [k v] [<-|[]]. discriminate.
    - eapply Forall_impl; [|exact E3]. intros [k v] [<-|[]]. discriminate. }
  revert Habsent. generalize (PP.tokdict r2 ++ PP.tokdict r3)%list as d.
  induction (PP.tokdict acc) as [|[k v] d0 IH]; intros d Hd; cbn [app PP.lookup].
  - exact Hd.
  - now rewrite (IH d Hd).
Qed.

Lemma read_ahead_after_keyword :
  forall token x more,
    create_read_ahead_string token (x :: more)
    = token ++ String " " (x ++ read_ahead_tail more).
Proof.
  intros token x more.
  rewrite read_ahead_shape. cbn [read_ahead_tail].
  change (PyStr.join " " (x :: more)) with (create_read_ahead_string x more).
  now rewrite read_ahead_shape.
Qed.

Lemma read_ahead_tail_cons :
  forall x more,
    read_ahead_tail (x :: more) = String " " (x ++ read_ahead_tail more).
Proof.
  intros x more. cbn [read_ahead_tail].
  change (PyStr.join " " (x :: more)) with (create_read_ahead_string x more).
  now rewrite read_ahead_shape.
Qed.

(** The class/struct pattern matches whenever the next token is an
    identifier, and captures that token as the name. *)
Lemma class_header_matches :
  forall token name more,
    class_or_struct token ->
    is_identifier name = true ->
    exists parsed,
      PP.parseString (Patterns.class_pattern token)
                     (create_read_ahead_string token (name :: more)) = Some parsed /\
      PP.get_string "name" parsed = name.
Proof.
  intros token name more Htoken Hname.
  rewrite read_ahead_after_keyword.
  assert (Htail : ends_word (PP.alphanums ++ "_") (read_ahead_tail more) = true)
    by now apply read_ahead_tail_ends_word.
  unfold PP.parseString, Patterns.class_pattern.
  assert (Hkw :
            exists b,
              PP.parse_at true
                (PP.And [ PP.Keyword token;
                          PP.setResultsName "name" Patterns.identifier;
                          PP.setResultsName "template_params" Patterns.template_params;
                          PP.Optional
                            (PP.And [ PP.Suppress (PP.Literal ":");
                                      PP.setResultsName "bases"
                                        (PP.delimitedList
                                           (PP.And [ PP.Optional (PP.oneOf ["public"; "private"; "protected"]);
                                                     PP.Word (PP.alphas ++ "_") (PP.alphanums ++ "_") ])) ]) ])
                (PP.start (token ++ String " " (name ++ read_ahead_tail more)))
              = PP.and_rest
                  [ PP.setResultsName "name" Patterns.identifier;
                    PP.setResultsName "template_params" Patterns.template_params;
                    PP.Optional
                      (PP.And [ PP.Suppress (PP.Literal ":");
                                PP.setResultsName "bases"
                                  (PP.delimitedList
                                     (PP.And [ PP.Optional (PP.oneOf ["public"; "private"; "protected"]);
                                               PP.Word (PP.alphas ++ "_") (PP.alphanums ++ "_") ])) ]) ]
                  (PP.one_result token)
                  {| PP.before := b;
                     PP.rest := String " " (name ++ read_ahead_tail more) |}).
  { destruct Htoken as [-> | ->];
      [exists (Some "s"%char) | exists (Some "t"%char)]; reflexivity. }
  destruct Hkw as (b & ->).
  cbn [PP.and_rest].
  destruct (named_identifier_matches "name" name (read_ahead_tail more) b Hname Htail)
    as (b' & E1).
  change (PP.setResultsName "name" Patterns.identifier)
    with (PP.setResultsName "name" (PP.Word (PP.alphas ++ "_") (PP.alphanums ++ "_"))).
  rewrite E1.
  destruct (class_pattern_after_name
              (PP.add_results (PP.one_result token)
                 {| PP.toklist := [PP.PStr name];
                    PP.tokdict := [("name", [PP.PStr name])] |})
              {| PP.before := b'; PP.rest := read_ahead_tail more |})
    as (r & c' & Hrest & Hlookup).
  cbn [PP.and_rest] in Hrest. rewrite Hrest.
  exists r. split; [reflexivity|].
  unfold PP.get_string, PP.get. rewrite Hlookup. reflexivity.
Qed.

(** X7.  A [class] or [struct] token followed by an identifier token is a
    class/struct match, whatever comes before or after: one entity named
    after that token, of the keyword's type and in the namespace of the
    current stacks, is appended and the hit counter goes up by one. *)
Theorem class_keyword_before_identifier :
  forall (st : scan_state) (token name : string) (more : list string),
    class_or_struct token ->
    is_identifier name = true ->
    exists st' entity,
      scan_token st token (name :: more) = Some st' /\
      scanned_entities st' = (scanned_entities st ++ [entity])%list /\
      entity_name entity = name /\
      entity_type entity = token /\
      namespace entity
        = namespace_of_path (current_namespace st ++ class_scope_stack st) /\
      statistics st' = increment_hits (statistics st) /\
      warnings st' = warnings st.
Proof.
  intros st token name more Htoken Hname.
  destruct (class_header_matches token name more Htoken Hname)
    as (parsed & Hparsed & Hcaptured).
  rewrite (scan_token_class _ _ _ Htoken), (on_class_matched _ _ _ _ Hparsed).
  do 2 eexists. split; [reflexivity|]. cbn.
  destruct (build_entity_fields st token (name :: more) parsed)
    as (Hn & Hs & _ & Hk).
  rewrite Hn, Hs, Hk, Hcaptured. repeat split.
Qed.

Lemma class_keyword_before_identifier_witness :
  exists st' entity,
    scan_token
      {| current_namespace := ["app"]; current_template_params := None;
         class_scope_stack := ["Outer"]; scanned_entities := [];
         statistics := {| PARSING_HITS := 2; PARSING_MISSES := 0 |};
         warnings := [] |}
      "class" ["Helper"; ";"] = Some st' /\
    scanned_entities st' = [entity] /\
    entity_name entity = "Helper" /\
    entity_type entity = "class" /\
    namespace entity = "app::Outer" /\
    statistics st' = {| PARSING_HITS := 3; PARSING_MISSES := 0 |} /\
    warnings st' = [].
Proof.
  exact (class_keyword_before_identifier
           {| current_namespace := ["app"]; current_template_params := None;
              class_scope_stack := ["Outer"]; scanned_entities := [];
              statistics := {| PARSING_HITS := 2; PARSING_MISSES := 0 |};
              warnings := [] |}
           "class" "Helper" [";"] (or_introl eq_refl) eq_refl).
Defined.





(** ** Namespace headers *)

Lemma namespace_header_matches :
  forall name more,
    is_identifier name = true ->
    PP.parseString Patterns.namespace_pattern
                   (create_read_ahead_string CPPParsingKeyword.NAMESPACE (name :: more))
    = Some {| PP.toklist := [PP.PStr CPPParsingKeyword.NAMESPACE; PP.PStr name];
              PP.tokdict := [("name", [PP.PStr name])] |}.
Proof.
  intros name more Hname.
  rewrite read_ahead_after_keyword.
  assert (Htail : ends_word (PP.alphanums ++ "_") (read_ahead_tail more) = true)
    by now apply read_ahead_tail_ends_word.
  unfold PP.parseString, Patterns.namespace_pattern.
  change (PP.parse_at true
            (PP.And [ PP.Keyword CPPParsingKeyword.NAMESPACE;
                      PP.setResultsName "name"
                        (PP.Word (PP.alphas ++ "_") (PP.alphanums ++ "_")) ])
            (PP.start (CPPParsingKeyword.NAMESPACE
                         ++ String " " (name ++ read_ahead_tail more))))
    with (PP.and_rest
            [ PP.setResultsName "name"
                (PP.Word (PP.alphas ++ "_") (PP.alphanums ++ "_")) ]
            (PP.one_result CPPParsingKeyword.NAMESPACE)
            {| PP.before := Some "e"%char;
               PP.rest := String " " (name ++ read_ahead_tail more) |}).
  cbn [PP.and_rest].
  destruct (named_identifier_matches "name" name (read_ahead_tail more)
              (Some "e"%char) Hname Htail) as (b' & ->).
  reflexivity.
Qed.


Lemma namespace_pushed :
  forall st name more,
    is_identifier name = true ->
    scan_token st CPPParsingKeyword.NAMESPACE (name :: more)
    = Some {| current_namespace := current_namespace st ++ [name];
              current_template_params := current_template_params st;
              class_scope_stack := class_scope_stack st;
              scanned_entities := scanned_entities st;
              statistics := increment_hits (statistics st);
              warnings := warnings st |}.
Proof.
  intros st name more Hname.
  change (scan_token st CPPParsingKeyword.NAMESPACE (name :: more))
    with (Some (on_namespace st CPPParsingKeyword.NAMESPACE (name :: more))).
  unfold on_namespace. now rewrite (namespace_header_matches _ _ Hname).
Qed.

(** X9.  A [namespace] token followed by an identifier token pushes that
    token on the namespace stack and counts a hit, whatever follows the
    name; nothing else changes. *)
Theorem namespace_keyword_before_identifier :
  forall (st : scan_state) (name : string) (more : list string),
    is_identifier name = true ->
    scan_token st CPPParsingKeyword.NAMESPACE (name :: more)
    = Some {| current_namespace := current_namespace st ++ [name];
              current_template_params := current_template_params st;
              class_scope_stack := class_scope_stack st;
              scanned_entities := scanned_entities st;
              statistics := increment_hits (statistics st);
              warnings := warnings st |}.
Proof.
  intros st name more Hname. now apply namespace_pushed.
Qed.

Lemma namespace_keyword_before_identifier_witness :
  scan_token initial_state "namespace" ["geo"; "{"; "}"]
  = Some {| current_namespace := ["geo"];
            current_template_params := None;
            class_scope_stack := [];
            scanned_entities := [];
            statistics := {| PARSING_HITS := 1; PARSING_MISSES := 0 |};
            warnings := [] |}.
Proof.
  exact (namespace_keyword_before_identifier initial_state "geo" ["{"; "}"] eq_refl).
Defined.



(** ** A class definition inside a namespace *)

Lemma class_header_with_body :
  forall token name more,
    class_or_struct token ->
    is_identifier name = true ->
    PP.parseString (Patterns.class_pattern token)
                   (create_read_ahead_string
                      token (name :: CPPParsingKeyword.OPEN_SCOPE :: more))
    = Some {| PP.toklist := [PP.PStr token; PP.PStr name];
              PP.tokdict := [("name", [PP.PStr name])] |}.
Proof.
  intros token name more Htoken Hname.
  rewrite read_ahead_after_keyword.
  assert (Htail : ends_word (PP.alphanums ++ "_")
                            (read_ahead_tail (CPPParsingKeyword.OPEN_SCOPE :: more)) = true)
    by now apply read_ahead_tail_ends_word.
  unfold PP.parseString, Patterns.class_pattern.
  assert (Hkw :
            exists b,
              PP.parse_at true
                (PP.And [ PP.Keyword token;
                          PP.setResultsName "name" Patterns.identifier;
                          PP.setResultsName "template_params" Patterns.template_params;
                          PP.Optional
                            (PP.And [ PP.Suppress (PP.Literal ":");
                                      PP.setResultsName "bases"
                                        (PP.delimitedList
                                           (PP.And [ PP.Optional (PP.oneOf ["public"; "private"; "protected"]);
                                                     PP.Word (PP.alphas ++ "_") (PP.alphanums ++ "_") ])) ]) ])
                (PP.start (token ++ String " "
                             (name ++ read_ahead_tail (CPPParsingKeyword.OPEN_SCOPE :: more))))
              = PP.and_rest
                  [ PP.setResultsName "name" Patterns.identifier;
                    PP.setResultsName "template_params" Patterns.template_params;
                    PP.Optional
                      (PP.And [ PP.Suppress (PP.Literal ":");
                                PP.setResultsName "bases"
                                  (PP.delimitedList
                                     (PP.And [ PP.Optional (PP.oneOf ["public"; "private"; "protected"]);
                                               PP.Word (PP.alphas ++ "_") (PP.alphanums ++ "_") ])) ]) ]
                  (PP.one_result token)
                  {| PP.before := b;
                     PP.rest := String " "
                                  (name ++ read_ahead_tail (CPPParsingKeyword.OPEN_SCOPE :: more)) |}).
  { destruct Htoken as [-> | ->];
      [exists (Some "s"%char) | exists (Some "t"%char)]; reflexivity. }
  destruct Hkw as (b & ->).
  cbn [PP.and_rest].
  destruct (named_identifier_matches
              "name" name (read_ahead_tail (CPPParsingKeyword.OPEN_SCOPE :: more))
              b Hname Htail) as (b' & E1).
  change (PP.setResultsName "name" Patterns.identifier)
    with (PP.setResultsName "name" (PP.Word (PP.alphas ++ "_") (PP.alphanums ++ "_"))).
  rewrite E1. rewrite read_ahead_tail_cons.
  destruct more; reflexivity.
Qed.

Lemma identifier_not_punctuation :
  forall name c,
    is_identifier name = true ->
    PyStr.char_in c (PP.alphas ++ "_") = false ->
    String.eqb name (String c "") = false.
Proof.
  intros [|a name] c Hname Hc; [discriminate|].
  cbn [is_identifier] in Hname. apply andb_true_iff in Hname as [Ha _].
  apply String.eqb_neq. intros [= -> _]. now rewrite Ha in Hc.
Qed.

Lemma entity_bases_kept :
  forall e following,
    base_types (create_unique_entity_name (virtual_scan e following)) = base_types e.
Proof.
  intros e following.
  transitivity (base_types (virtual_scan e following)).
  - unfold create_unique_entity_name.
    destruct (template_parameters (virtual_scan e following)) as [[|p ps]|];
      reflexivity.
  - unfold virtual_scan. destruct (existsb _ _); [reflexivity|].
    destruct (PyStr.truthy _); reflexivity.
Qed.

(** X11.  For all identifiers [N] and [C] that are not keywords of the pass,
    the stream [namespace N { class C { } ; }] yields exactly one entity: it
    is named [C], lies in namespace [N], has unique name [N::C] and display
    name [C], no template parameters and no base types; both stacks are empty
    again after the last brace, with two hits and no miss. *)
Theorem namespace_class_definition :
  forall N C : string,
    is_identifier N = true -> changes_state N = false ->
    is_identifier C = true -> changes_state C = false ->
    exists st e,
      scan_entities ["namespace"; N; "{"; "class"; C; "{"; "}"; ";"; "}"] = Some st /\
      scanned_entities st = [e] /\
      entity_name e = C /\
      namespace e = N /\
      unique_name e = N ++ "::" ++ C /\
      display_name e = C /\
      template_parameters e = None /\
      base_types e = None /\
      current_namespace st = [] /\
      class_scope_stack st = [] /\
      statistics st = {| PARSING_HITS := 2; PARSING_MISSES := 0 |} /\
      warnings st = [].
Proof.
  intros N C HN HNk HC HCk.
  unfold scan_entities, _gen_word_read_ahead.
  cbn [gen_word_read_ahead_from scan_from].
  rewrite (namespace_pushed initial_state N _ HN).
  rewrite (scan_token_inert _ N _ HNk).
  rewrite (scan_token_inert _ "{" _ eq_refl).
  rewrite (scan_token_class _ "class" _ (or_introl eq_refl)).
  rewrite (on_class_matched _ _ _ _
             (class_header_with_body "class" C ["}"; ";"; "}"] (or_introl eq_refl) HC)).
  cbn [initial_state current_namespace class_scope_stack current_template_params
       scanned_entities statistics warnings params_set app track_scope].
  unfold CPPParsingKeyword.OPEN_SCOPE, CPPParsingKeyword.SEMICOLON.
  rewrite (identifier_not_punctuation C "{" HC eq_refl).
  rewrite (identifier_not_punctuation C ";" HC eq_refl).
  change (String.eqb "{" "{") with true. cbv iota.
  rewrite (scan_token_inert _ C _ HCk).
  rewrite (scan_token_inert _ "{" _ eq_refl).
  change (scan_token ?s "}" ?f) with (on_close_scope s).
  rewrite on_close_scope_result.
  cbn [current_namespace class_scope_stack current_template_params
       scanned_entities statistics warnings removelast app].
  rewrite (scan_token_inert _ ";" _ eq_refl).
  change (scan_token ?s "}" ?f) with (on_close_scope s).
  rewrite on_close_scope_result.
  cbn [current_namespace class_scope_stack current_template_params
       scanned_entities statistics warnings removelast app].
  do 2 eexists. split; [reflexivity|]. cbn [scanned_entities current_namespace
    class_scope_stack statistics warnings].
  split; [reflexivity|].
  match goal with
  | |- context [build_entity ?s ?t ?f ?p] =>
      destruct (build_entity_fields s t f p) as (Hn & Hs & Ht & _);
      pose proof (composer_names_consistent
                    (virtual_scan
                       (create_entity_result C "class" (namespace_of_path [N]))
                       f)) as [Hu Hd];
      pose proof (entity_bases_kept
                    (create_entity_result C "class" (namespace_of_path [N])) f) as Hb;
      change (create_unique_entity_name
                (virtual_scan (create_entity_result C "class" (namespace_of_path [N])) f))
        with (build_entity s t f p) in Hu, Hd, Hb
  end.
  rewrite Hu, Hd, Hb, !Hn, !Hs, !Ht.
  cbn [current_namespace class_scope_stack current_template_params app
       attached_parameters PP.get PP.tokdict PP.lookup String.eqb Ascii.eqb
       Bool.eqb PyStr.truthy PP.get_string PP.tok_string
       namespace_of_path PyStr.join String.concat
       base_types create_entity_result].
  unfold namespace_prefix, spec_display_name. cbn [parameters_of spec_template_suffix map].
  destruct N as [|a N]; [discriminate HN|].
  cbn [String.eqb]. rewrite !append_empty_r.
  repeat split; try reflexivity.
  now rewrite <- append_assoc.
Qed.

Lemma namespace_class_definition_witness :
  exists st e,
    scan_entities ["namespace"; "geo"; "{"; "class"; "Point"; "{"; "}"; ";"; "}"]
      = Some st /\
    scanned_entities st = [e] /\
    entity_name e = "Point" /\
    namespace e = "geo" /\
    unique_name e = "geo::Point" /\
    display_name e = "Point" /\
    template_parameters e = None /\
    base_types e = None /\
    current_namespace st = [] /\
    class_scope_stack st = [] /\
    statistics st = {| PARSING_HITS := 2; PARSING_MISSES := 0 |} /\
    warnings st = [].
Proof.
  exact (namespace_class_definition "geo" "Point" eq_refl eq_refl eq_refl eq_refl).
Defined.

(** ** More on the unique-name composer *)

(** X12.  Composing the names of an entity a second time changes nothing:
    the composer reads only the namespace, the name and the template
    parameters, which it leaves alone. *)
Theorem create_unique_entity_name_idempotent :
  forall e : EntityResult,
    create_unique_entity_name (create_unique_entity_name e)
    = create_unique_entity_name e.
Proof.
  intros e. unfold create_unique_entity_name at 1 3.
  destruct (create_unique_entity_name_keeps e) as (Hn & Hs & Ht & _).
  rewrite Hn, Hs, Ht.
  unfold create_unique_entity_name.
  destruct (template_parameters e) as [[|p ps]|]; reflexivity.
Qed.

(** X13.  When no template parameter of the entity holds a scope separator,
    the unique name is the display name behind the namespace prefix; in
    particular both names are the same for an entity outside any namespace. *)
Theorem unique_name_extends_display_name :
  forall e : EntityResult,
    Forall (fun param => PyStr.contains "::" param = false)
           (parameters_of (template_parameters e)) ->
    unique_name (create_unique_entity_name e)
    = namespace_prefix (namespace e) ++ display_name (create_unique_entity_name e).
Proof.
  intros e Hparams.
  destruct (composer_names_consistent e) as [Hu Hd].
  destruct (create_unique_entity_name_keeps e) as (Hn & Hs & Ht & _).
  rewrite Hu, Hd, Hn, Hs, Ht. unfold spec_display_name.
  replace (map last_scope_segment (parameters_of (template_parameters e)))
    with (parameters_of (template_parameters e)); [reflexivity|].
  induction Hparams as [|param params Hparam _ IH]; [reflexivity|].
  cbn [map]. unfold last_scope_segment at 1.
  now rewrite (last_segment_without_sep _ _ Hparam), <- IH.
Qed.

Lemma unique_name_extends_display_name_witness :
  unique_name
    (create_unique_entity_name
       (set_template_parameters ["K"; "V"]
          (create_entity_result "Map" "class" "util::detail")))
  = "util::detail::" ++ display_name
      (create_unique_entity_name
         (set_template_parameters ["K"; "V"]
            (create_entity_result "Map" "class" "util::detail"))).
Proof.
  apply (unique_name_extends_display_name
           (set_template_parameters ["K"; "V"]
              (create_entity_result "Map" "class" "util::detail"))).
  repeat constructor.
Defined.

(** ** The path of a file record *)

Lemma prefix_reflexive : forall s, String.prefix s s = true.
Proof.
  induction s as [|a s IH]; [reflexivity|].
  cbn [String.prefix]. destruct (ascii_dec a a); [exact IH | contradiction].
Qed.

Lemma split_from_skips :
  forall sep x rest cur,
    PyStr.split_from sep (String.length x) cur (x ++ rest)
    = PyStr.split_from sep 0 cur rest.
Proof.
  intros sep x rest cur. induction x as [|b x IH]; [reflexivity|].
  cbn [String.length String.append PyStr.split_from]. exact IH.
Qed.

Lemma split_leading_sep :
  forall sep rest,
    sep <> "" ->
    PyStr.split sep (sep ++ rest) = "" :: PyStr.split sep rest.
Proof.
  intros [|a sep] rest Hsep; [contradiction|].
  unfold PyStr.split. cbn [String.append PyStr.split_from].
  change (String a (sep ++ rest)) with (String a sep ++ rest).
  rewrite (prefix_append _ _ rest (prefix_reflexive (String a sep))).
  replace (String.length (String a sep) - 1) with (String.length sep)
    by (cbn [String.length]; lia).
  now rewrite split_from_skips.
Qed.

Lemma replace_without_occurrence :
  forall old s,
    PyStr.contains old s = false -> PyStr.replace old "" s = s.
Proof.
  intros old s H. unfold PyStr.replace, PyStr.split.
  now rewrite (split_from_without_sep _ _ _ H).
Qed.

(** X14.  The path of a file relative to the analysis: for a file below the
    parent of the source directory the parent and the slash behind it are
    cut off, provided that prefix does not occur again in the rest; a path
    in which the prefix does not occur is kept whole. *)
Theorem relative_path_strips_parent :
  forall parent rest : string,
    PyStr.contains (parent ++ "/") rest = false ->
    relative_file_path_to_analysis parent (parent ++ "/" ++ rest) = rest /\
    relative_file_path_to_analysis parent rest = rest.
Proof.
  intros parent rest Hrest. unfold relative_file_path_to_analysis.
  split; [|now apply replace_without_occurrence].
  rewrite <- append_assoc. unfold PyStr.replace.
  rewrite split_leading_sep by (destruct parent; discriminate).
  unfold PyStr.split. rewrite (split_from_without_sep _ _ _ Hrest).
  reflexivity.
Qed.

Lemma relative_path_strips_parent_witness :
  relative_file_path_to_analysis "/home/dev" "/home/dev/proj/include/shape.h"
    = "proj/include/shape.h" /\
  relative_file_path_to_analysis "/home/dev" "proj/include/shape.h"
    = "proj/include/shape.h".
Proof.
  exact (relative_path_strips_parent "/home/dev" "proj/include/shape.h" eq_refl).
Defined.

(** ** The loop over the file records *)


(** ** Include directives *)

Lemma char_in_app :
  forall c x y, PyStr.char_in c (x ++ y) = PyStr.char_in c x || PyStr.char_in c y.
Proof.
  intros c x y. induction x as [|a x IH]; [reflexivity|].
  cbn [String.append PyStr.char_in]. now rewrite IH, orb_assoc.
Qed.

Lemma all_in_weaken :
  forall small big s,
    (forall c, PyStr.char_in c small = true -> PyStr.char_in c big = true) ->
    all_in small s = true -> all_in big s = true.
Proof.
  intros small big s Hsub. induction s as [|a s IH]; [reflexivity|].
  cbn [all_in]. intros H. apply andb_true_iff in H as [Ha Hs].
  now rewrite (Hsub a Ha), (IH Hs).
Qed.

Lemma path_char_is_include_char :
  forall c,
    PyStr.char_in c (PP.alphanums ++ CoreParsingKeyword.DOT ++ CoreParsingKeyword.SLASH
                       ++ CoreParsingKeyword.UNDERSCORE) = true ->
    PyStr.char_in c include_chars = true.
Proof.
  intros c H. unfold include_chars.
  rewrite !char_in_app in *.
  apply orb_true_iff in H as [H|H]; [now rewrite H|].
  apply orb_true_iff in H as [H|H]; [rewrite H; now rewrite ?orb_true_r|].
  apply orb_true_iff in H as [H|H]; rewrite H; now rewrite ?orb_true_r.
Qed.

Lemma char_in_differs :
  forall chars a b,
    PyStr.char_in a chars = true -> PyStr.char_in b chars = false ->
    Ascii.eqb b a = false.
Proof.
  intros chars a b Ha Hb. destruct (Ascii.eqb_spec b a) as [->|]; [|reflexivity].
  now rewrite Ha in Hb.
Qed.

Lemma path_char_not_white :
  forall a,
    PyStr.char_in a (PP.alphanums ++ CoreParsingKeyword.DOT ++ CoreParsingKeyword.SLASH
                       ++ CoreParsingKeyword.UNDERSCORE) = true ->
    PP.is_white a = false.
Proof.
  intros a H. destruct (PP.is_white a) eqn:E; [|reflexivity].
  unfold PP.is_white, PP.DEFAULT_WHITE_CHARS in E. cbn [existsb] in E.
  repeat (apply orb_true_iff in E as [E|E]);
    try (apply Ascii.eqb_eq in E; subst a; discriminate H).
  discriminate E.
Qed.

(** A named [Word] tried at the first character of a token made of its
    characters matches the whole token. *)
Lemma named_word_at :
  forall name init body a w tail prev,
    PyStr.char_in a init = true ->
    PP.is_white a = false ->
    all_in body w = true ->
    ends_word body tail = true ->
    PP.parse_at true (PP.setResultsName name (PP.Word init body))
                {| PP.before := prev; PP.rest := String a (w ++ tail) |}
    = Some ({| PP.toklist := [PP.PStr (String a w)];
               PP.tokdict := [(name, [PP.PStr (String a w)])] |},
            {| PP.before := Some (last_char a w); PP.rest := tail |}).
Proof.
  intros name init body a w tail prev Ha Hwhite Hw Htail.
  unfold PP.parse_at.
  cbn [PP.setResultsName PP.skipWhitespace PP.Word andb PP.parseImpl].
  unfold PP.preParse. cbn [PP.before PP.rest PP.skip_white]. rewrite Hwhite.
  cbn [PP.rest]. rewrite Ha, (span_word _ _ _ _ Hw Htail).
  reflexivity.
Qed.

Lemma parse_at_behind_blank :
  forall e prev s,
    PP.skipWhitespace e = true ->
    PP.parse_at true e {| PP.before := prev; PP.rest := String " " s |}
    = PP.parse_at true e {| PP.before := Some " "%char; PP.rest := s |}.
Proof.
  intros e prev s He. unfold PP.parse_at. rewrite He. reflexivity.
Qed.

Lemma brackets_fail_at_path :
  forall prev a s,
    PyStr.char_in a (PP.alphanums ++ CoreParsingKeyword.DOT ++ CoreParsingKeyword.SLASH
                       ++ CoreParsingKeyword.UNDERSCORE) = true ->
    forall b,
      PP.parse_at b
        (PP.MatchFirst
           [ PP.Suppress (PP.Literal CoreParsingKeyword.OPENING_ANGLE_BRACKET);
             PP.Suppress (PP.Literal CoreParsingKeyword.CLOSING_ANGLE_BRACKET);
             PP.Suppress (PP.Literal CoreParsingKeyword.DOUBLE_QUOTE) ])
        {| PP.before := prev; PP.rest := String a s |}
      = None.
Proof.
  intros prev a s Ha b.
  pose proof (path_char_not_white a Ha) as Hwhite.
  assert (Hpre : PP.preParse {| PP.before := prev; PP.rest := String a s |}
                 = {| PP.before := prev; PP.rest := String a s |}).
  { unfold PP.preParse. cbn [PP.before PP.rest PP.skip_white]. now rewrite Hwhite. }
  unfold PP.parse_at.
  cbn [PP.MatchFirst PP.skipWhitespace PP.parseImpl PP.first_match].
  replace (if b && true then PP.preParse {| PP.before := prev; PP.rest := String a s |}
           else {| PP.before := prev; PP.rest := String a s |})
    with {| PP.before := prev; PP.rest := String a s |}
    by (destruct b; cbn [andb]; now rewrite ?Hpre).
  unfold PP.parse_at.
  cbn [PP.Suppress PP.Literal PP.skipWhitespace PP.parseImpl andb].
  rewrite Hpre. unfold PP.parse_at.
  cbn [PP.Literal PP.skipWhitespace PP.parseImpl andb PP.eat PP.rest
       CoreParsingKeyword.OPENING_ANGLE_BRACKET
       CoreParsingKeyword.CLOSING_ANGLE_BRACKET
       CoreParsingKeyword.DOUBLE_QUOTE].
  rewrite (char_in_differs _ a "<"%char Ha eq_refl).
  rewrite (char_in_differs _ a ">"%char Ha eq_refl).
  rewrite (char_in_differs _ a (ascii_of_nat 34) Ha eq_refl).
  reflexivity.
Qed.

Lemma brackets_none_at_path :
  forall prev a s,
    PyStr.char_in a (PP.alphanums ++ CoreParsingKeyword.DOT ++ CoreParsingKeyword.SLASH
                       ++ CoreParsingKeyword.UNDERSCORE) = true ->
    PP.parse_at true
      (PP.ZeroOrMore
         (PP.MatchFirst
            [ PP.Suppress (PP.Literal CoreParsingKeyword.OPENING_ANGLE_BRACKET);
              PP.Suppress (PP.Literal CoreParsingKeyword.CLOSING_ANGLE_BRACKET);
              PP.Suppress (PP.Literal CoreParsingKeyword.DOUBLE_QUOTE) ]))
      {| PP.before := prev; PP.rest := String a s |}
    = Some (PP.no_results, {| PP.before := prev; PP.rest := String a s |}).
Proof.
  intros prev a s Ha.
  pose proof (path_char_not_white a Ha) as Hwhite.
  unfold PP.parse_at at 1.
  cbn [PP.ZeroOrMore PP.MatchFirst PP.skipWhitespace PP.parseImpl andb].
  unfold PP.preParse. cbn [PP.before PP.rest PP.skip_white]. rewrite Hwhite.
  now rewrite (brackets_fail_at_path prev a s Ha false).
Qed.

(** One bracket token in front of the path is passed over. *)
Lemma bracket_passed_over :
  forall bracket prev a s,
    is_include_bracket bracket = true ->
    PyStr.char_in a (PP.alphanums ++ CoreParsingKeyword.DOT ++ CoreParsingKeyword.SLASH
                       ++ CoreParsingKeyword.UNDERSCORE) = true ->
    exists b,
      PP.parse_at true
        (PP.ZeroOrMore
           (PP.MatchFirst
              [ PP.Suppress (PP.Literal CoreParsingKeyword.OPENING_ANGLE_BRACKET);
                PP.Suppress (PP.Literal CoreParsingKeyword.CLOSING_ANGLE_BRACKET);
                PP.Suppress (PP.Literal CoreParsingKeyword.DOUBLE_QUOTE) ]))
        {| PP.before := prev; PP.rest := bracket ++ String " " (String a s) |}
      = Some (PP.no_results,
              {| PP.before := b; PP.rest := String " " (String a s) |}).
Proof.
  intros bracket prev a s Hbracket Ha.
  assert (Hnext :
            forall b,
              PP.parse_at true
                (PP.MatchFirst
                   [ PP.Suppress (PP.Literal CoreParsingKeyword.OPENING_ANGLE_BRACKET);
                     PP.Suppress (PP.Literal CoreParsingKeyword.CLOSING_ANGLE_BRACKET);
                     PP.Suppress (PP.Literal CoreParsingKeyword.DOUBLE_QUOTE) ])
                {| PP.before := b; PP.rest := String " " (String a s) |} = None).
  { intros b. rewrite parse_at_behind_blank by reflexivity.
    apply brackets_fail_at_path, Ha. }
  unfold is_include_bracket in Hbracket.
  repeat (apply orb_true_iff in Hbracket as [Hbracket|Hbracket]);
    apply String.eqb_eq in Hbracket; subst bracket;
    eexists; unfold PP.parse_at at 1;
    cbn [PP.ZeroOrMore PP.MatchFirst PP.skipWhitespace PP.parseImpl andb];
    match goal with
    | |- match PP.parse_at false ?e ?c with _ => _ end = _ =>
        let r := eval cbv in (PP.parse_at false e c) in
        change (PP.parse_at false e c) with r
    end.
  all: cbv iota beta; cbn [PP.repeat]; rewrite Hnext; reflexivity.
Qed.

Lemma include_keyword_matched :
  forall tail,
    PP.parse_at true Patterns.expression_to_match
                (PP.start (CPPParsingKeyword.INCLUDE ++ String " " tail))
    = PP.and_rest
        [ PP.ZeroOrMore
            (PP.MatchFirst
               [ PP.Suppress (PP.Literal CoreParsingKeyword.OPENING_ANGLE_BRACKET);
                 PP.Suppress (PP.Literal CoreParsingKeyword.CLOSING_ANGLE_BRACKET);
                 PP.Suppress (PP.Literal CoreParsingKeyword.DOUBLE_QUOTE) ]);
          PP.setResultsName CoreParsingKeyword.IMPORT_ENTITY_NAME Patterns.include_name ]
        (PP.one_result CPPParsingKeyword.INCLUDE)
        {| PP.before := Some "e"%char; PP.rest := String " " tail |}.
Proof. reflexivity. Qed.

Lemma include_name_matches :
  forall path more prev,
    is_include_path path = true ->
    exists b,
      PP.parse_at true
        (PP.setResultsName CoreParsingKeyword.IMPORT_ENTITY_NAME Patterns.include_name)
        {| PP.before := prev; PP.rest := String " " (path ++ read_ahead_tail more) |}
      = Some ({| PP.toklist := [PP.PStr path];
                 PP.tokdict := [(CoreParsingKeyword.IMPORT_ENTITY_NAME, [PP.PStr path])] |},
              {| PP.before := b; PP.rest := read_ahead_tail more |}).
Proof.
  intros [|a path] more prev Hpath; [discriminate|].
  cbn [is_include_path all_in] in Hpath. apply andb_true_iff in Hpath as [Ha Hpath].
  exists (Some (last_char a path)).
  rewrite parse_at_behind_blank by reflexivity.
  apply named_word_at.
  - now apply path_char_is_include_char.
  - now apply path_char_not_white.
  - apply all_in_weaken with (2 := Hpath). apply path_char_is_include_char.
  - now apply read_ahead_tail_ends_word.
Qed.

(** The include pattern on a path token, bare or behind one bracket
    token. *)
Lemma include_path_matched :
  forall path more,
    is_include_path path = true ->
    matched_include CPPParsingKeyword.INCLUDE (path :: more) = Some path.
Proof.
  intros path more Hpath. unfold matched_include.
  change (String.eqb CPPParsingKeyword.INCLUDE CPPParsingKeyword.INCLUDE) with true.
  cbv iota. rewrite read_ahead_after_keyword. unfold PP.parseString.
  rewrite include_keyword_matched. cbn [PP.and_rest].
  destruct path as [|a path]; [discriminate|].
  pose proof Hpath as Hpath'.
  cbn [is_include_path all_in] in Hpath. apply andb_true_iff in Hpath as [Ha _].
  rewrite parse_at_behind_blank by reflexivity.
  cbn [String.append].
  rewrite (brackets_none_at_path _ a _ Ha).
  pose proof (include_name_matches (String a path) more (Some "e"%char) Hpath')
    as (b' & Hname).
  rewrite parse_at_behind_blank in Hname by reflexivity.
  cbn [String.append] in Hname. rewrite Hname.
  reflexivity.
Qed.

Lemma include_bracket_path_matched :
  forall bracket path more,
    is_include_bracket bracket = true ->
    is_include_path path = true ->
    matched_include CPPParsingKeyword.INCLUDE (bracket :: path :: more) = Some path.
Proof.
  intros bracket path more Hbracket Hpath. unfold matched_include.
  change (String.eqb CPPParsingKeyword.INCLUDE CPPParsingKeyword.INCLUDE) with true.
  cbv iota. rewrite read_ahead_after_keyword, read_ahead_tail_cons.
  unfold PP.parseString.
  rewrite include_keyword_matched. cbn [PP.and_rest].
  rewrite parse_at_behind_blank by reflexivity.
  destruct path as [|a path]; [discriminate|].
  pose proof Hpath as Hpath'.
  cbn [is_include_path all_in] in Hpath. apply andb_true_iff in Hpath as [Ha _].
  cbn [String.append].
  destruct (bracket_passed_over bracket (Some " "%char) a
              (path ++ read_ahead_tail more) Hbracket Ha) as (b & ->).
  destruct (include_name_matches (String a path) more b Hpath') as (b' & Hname).
  cbn [String.append] in Hname. rewrite Hname.
  reflexivity.
Qed.

Lemma add_import_matched :
  forall resolve_path ignored exists_path parent_of source_directory absolute_dir_path
         st following path,
    matched_include CPPParsingKeyword.INCLUDE following = Some path ->
    add_import resolve_path ignored exists_path parent_of source_directory
               absolute_dir_path st CPPParsingKeyword.INCLUDE following
    = imported ignored
        (try_resolve_dependency resolve_path exists_path parent_of source_directory
                                absolute_dir_path path)
        st.
Proof.
  intros resolve_path ignored exists_path parent_of source_directory absolute_dir_path
         st following path H.
  unfold matched_include in H. unfold add_import.
  change (String.eqb CPPParsingKeyword.INCLUDE CPPParsingKeyword.INCLUDE) with true in *.
  cbv iota in *.
  destruct (PP.parseString _ _) as [parsing_result|]; [|discriminate].
  injection H as ->. reflexivity.
Qed.

(** X16.  An [#include] token followed by a path token (letters, digits,
    [.], [/], [_]), bare or behind one [<], [>] or quote token, is a hit whose
    path is exactly that token: the path is resolved, then appended to the
    dependency list unless the ignore list holds it, whatever tokens come
    after. *)
Theorem include_directive_records_path :
  forall (resolve_path : string -> string -> string -> string)
         (ignored exists_path : string -> bool) (parent_of : string -> string)
         (source_directory absolute_dir_path : string)
         (st : import_state) (bracket path : string) (more : list string),
    is_include_bracket bracket = true ->
    is_include_path path = true ->
    add_import resolve_path ignored exists_path parent_of source_directory
               absolute_dir_path st CPPParsingKeyword.INCLUDE (bracket :: path :: more)
    = imported ignored
        (try_resolve_dependency resolve_path exists_path parent_of source_directory
                                absolute_dir_path path)
        st /\
    add_import resolve_path ignored exists_path parent_of source_directory
               absolute_dir_path st CPPParsingKeyword.INCLUDE (path :: more)
    = imported ignored
        (try_resolve_dependency resolve_path exists_path parent_of source_directory
                                absolute_dir_path path)
        st.
Proof.
  intros resolve_path ignored exists_path parent_of source_directory absolute_dir_path
         st bracket path more Hbracket Hpath.
  split; apply add_import_matched.
  - now apply include_bracket_path_matched.
  - now apply include_path_matched.
Qed.

Lemma include_directive_records_path_witness :
  add_import (fun dependency _ _ => "src/" ++ dependency)
             (fun _ => false) (fun _ => true) (fun _ => "/home/dev") "/home/dev/src"
             "/home/dev/src/geo" initial_imports
             "#include" ["<"; "geo/point.h"; ">"; "class"; "P"; ";"]
  = {| scanned_import_dependencies := ["src/geo/point.h"];
       import_statistics := {| PARSING_HITS := 1; PARSING_MISSES := 0 |};
       import_warnings := [] |}.
Proof.
  exact (proj1
           (include_directive_records_path
              (fun dependency _ _ => "src/" ++ dependency)
              (fun _ => false) (fun _ => true) (fun _ => "/home/dev") "/home/dev/src"
              "/home/dev/src/geo" initial_imports
              "<" "geo/point.h" [">"; "class"; "P"; ";"] eq_refl eq_refl)).
Defined.




(** ** Template headers *)

Lemma word_at :
  forall init body a w tail prev,
    PyStr.char_in a init = true ->
    PP.is_white a = false ->
    all_in body w = true ->
    ends_word body tail = true ->
    PP.parse_at true (PP.Word init body)
                {| PP.before := prev; PP.rest := String a (w ++ tail) |}
    = Some (PP.one_result (String a w),
            {| PP.before := Some (last_char a w); PP.rest := tail |}).
Proof.
  intros init body a w tail prev Ha Hwhite Hw Htail.
  unfold PP.parse_at.
  cbn [PP.skipWhitespace PP.Word andb PP.parseImpl].
  unfold PP.preParse. cbn [PP.before PP.rest PP.skip_white]. rewrite Hwhite.
  cbn [PP.rest]. rewrite Ha, (span_word _ _ _ _ Hw Htail).
  reflexivity.
Qed.

(** One [typename T] parameter in front of the cursor. *)
Lemma template_parameter_matches :
  forall name tail prev,
    is_identifier name = true ->
    ends_word (PP.alphanums ++ "_") tail = true ->
    exists b,
      PP.parse_at true template_parameter
        {| PP.before := prev;
           PP.rest := String " " (CPPParsingKeyword.TYPENAME ++ String " " (name ++ tail)) |}
      = Some ({| PP.toklist := [parameter_group name]; PP.tokdict := [] |},
              {| PP.before := b; PP.rest := tail |}).
Proof.
  intros [|a name] tail prev Hname Htail; [discriminate|].
  cbn [is_identifier] in Hname. apply andb_true_iff in Hname as [Ha Hname].
  exists (Some (last_char a name)).
  rewrite parse_at_behind_blank by reflexivity.
  change (PP.parse_at true template_parameter
            {| PP.before := Some " "%char;
               PP.rest := CPPParsingKeyword.TYPENAME
                            ++ String " " (String a name ++ tail) |})
    with (match PP.and_rest [PP.Word (PP.alphas ++ "_") (PP.alphanums ++ "_")]
                            (PP.one_result CPPParsingKeyword.TYPENAME)
                            {| PP.before := Some "e"%char;
                               PP.rest := String " " (String a (name ++ tail)) |}
          with
          | Some (r, c') =>
              Some ({| PP.toklist := [PP.PGroup (PP.toklist r)]; PP.tokdict := [] |}, c')
          | None => None
          end).
  cbn [PP.and_rest].
  rewrite parse_at_behind_blank by reflexivity.
  rewrite (word_at _ _ a name tail _ Ha (identifier_start_not_white a Ha) Hname Htail).
  reflexivity.
Qed.

(** A further parameter, behind its comma. *)
Lemma next_template_parameter_matches :
  forall name tail prev,
    is_identifier name = true ->
    ends_word (PP.alphanums ++ "_") tail = true ->
    exists b,
      forall pre,
        PP.parse_at pre next_template_parameter
          {| PP.before := prev;
             PP.rest := String ","
                          (String " " (CPPParsingKeyword.TYPENAME
                                         ++ String " " (name ++ tail))) |}
        = Some ({| PP.toklist := [parameter_group name]; PP.tokdict := [] |},
                {| PP.before := b; PP.rest := tail |}).
Proof.
  intros name tail prev Hname Htail.
  destruct (template_parameter_matches name tail (Some ","%char) Hname Htail)
    as (b & Hgroup).
  exists b. intros pre.
  replace (PP.parse_at pre next_template_parameter
             {| PP.before := prev;
                PP.rest := String ","
                             (String " " (CPPParsingKeyword.TYPENAME
                                            ++ String " " (name ++ tail))) |})
    with (PP.and_rest [template_parameter] PP.no_results
            {| PP.before := Some ","%char;
               PP.rest := String " " (CPPParsingKeyword.TYPENAME
                                        ++ String " " (name ++ tail)) |})
    by (destruct pre; reflexivity).
  cbn [PP.and_rest]. rewrite Hgroup. reflexivity.
Qed.

Lemma string_length_append :
  forall s t : string, String.length (s ++ t) = String.length s + String.length t.
Proof.
  induction s as [|a s IH]; intros t; cbn; [reflexivity | now rewrite IH].
Qed.

(** The repetition of the parameter list takes all further parameters and
    stops in front of the closing bracket, well within its fuel. *)
Lemma repeat_template_parameters :
  forall others more fuel acc prev,
    Forall (fun name => is_identifier name = true) others ->
    String.length (read_ahead_tail (more_parameter_tokens others ++ ">" :: more)) < fuel ->
    exists b,
      PP.repeat fuel next_template_parameter acc
        {| PP.before := prev;
           PP.rest := read_ahead_tail (more_parameter_tokens others ++ ">" :: more) |}
      = ({| PP.toklist := PP.toklist acc ++ map parameter_group others;
            PP.tokdict := PP.tokdict acc |},
         {| PP.before := b; PP.rest := read_ahead_tail (">" :: more) |}).
Proof.
  induction others as [|name others IH]; intros more fuel acc prev Hnames Hfuel.
  - exists prev. destruct fuel as [|fuel]; [lia|].
    cbn [more_parameter_tokens flat_map app map PP.repeat].
    rewrite read_ahead_tail_cons, app_nil_r.
    replace (PP.parse_at true next_template_parameter
               {| PP.before := prev; PP.rest := String " " (">" ++ read_ahead_tail more) |})
      with (@None (PP.ParseResults * PP.cursor)) by reflexivity.
    destruct acc; reflexivity.
  - inversion Hnames as [|? ? Hname Hothers]; subst.
    destruct fuel as [|fuel]; [lia|].
    cbn [more_parameter_tokens flat_map app] in *.
    fold (more_parameter_tokens others) in *.
    rewrite !read_ahead_tail_cons in *.
    set (tail := read_ahead_tail (more_parameter_tokens others ++ ">" :: more)) in *.
    assert (Htail : ends_word (PP.alphanums ++ "_") tail = true).
    { subst tail. destruct others; cbn [more_parameter_tokens flat_map app];
        now apply read_ahead_tail_ends_word. }
    destruct (next_template_parameter_matches name tail (Some " "%char) Hname Htail)
      as (b1 & Hnext).
    cbn [PP.repeat].
    rewrite parse_at_behind_blank by reflexivity.
    cbn [String.append] in *. rewrite (Hnext true).
    assert (Hlen : String.length tail < fuel).
    { repeat (rewrite ?string_length_append in Hfuel; cbn [String.length] in Hfuel).
      lia. }
    destruct (IH more fuel
                (PP.add_results acc
                   {| PP.toklist := [parameter_group name]; PP.tokdict := [] |})
                b1 Hothers Hlen) as (b & Hrest).
    exists b. fold tail in Hrest. rewrite Hrest.
    cbn [PP.add_results PP.toklist PP.tokdict map].
    f_equal; [|now rewrite read_ahead_tail_cons].
    f_equal; [now rewrite <- app_assoc | apply app_nil_r].
Qed.

(** The further parameters, then the closing bracket. *)
Lemma more_parameters_matched :
  forall others more prev,
    Forall (fun name => is_identifier name = true) others ->
    exists c' c'',
      PP.parse_at true (PP.ZeroOrMore next_template_parameter)
        {| PP.before := prev;
           PP.rest := read_ahead_tail (more_parameter_tokens others ++ ">" :: more) |}
      = Some ({| PP.toklist := map parameter_group others; PP.tokdict := [] |}, c') /\
      PP.parse_at true (PP.Suppress (PP.Literal ">")) c' = Some (PP.no_results, c'').
Proof.
  intros [|name others] more prev Hnames.
  - cbn [more_parameter_tokens flat_map app map]. rewrite read_ahead_tail_cons.
    do 2 eexists. split; reflexivity.
  - inversion Hnames as [|? ? Hname Hothers]; subst.
    cbn [more_parameter_tokens flat_map app].
    fold (more_parameter_tokens others).
    rewrite !read_ahead_tail_cons.
    set (tail := read_ahead_tail (more_parameter_tokens others ++ ">" :: more)).
    assert (Htail : ends_word (PP.alphanums ++ "_") tail = true).
    { subst tail. destruct others; cbn [more_parameter_tokens flat_map app];
        now apply read_ahead_tail_ends_word. }
    cbn [String.append].
    destruct (next_template_parameter_matches name tail (Some " "%char) Hname Htail)
      as (b1 & Hnext).
    destruct (repeat_template_parameters
                others more (S (String.length tail))
                {| PP.toklist := [parameter_group name]; PP.tokdict := [] |}
                b1 Hothers (Nat.lt_succ_diag_r _)) as (b & Hrest).
    fold tail in Hrest.
    exists {| PP.before := b; PP.rest := read_ahead_tail (">" :: more) |}.
    eexists. split.
    + rewrite parse_at_behind_blank by reflexivity.
      change (PP.parse_at true (PP.ZeroOrMore next_template_parameter)
                {| PP.before := Some " "%char;
                   PP.rest := String ","
                                (String " " (CPPParsingKeyword.TYPENAME
                                               ++ String " " (name ++ tail))) |})
        with (match PP.parse_at false next_template_parameter
                      {| PP.before := Some " "%char;
                         PP.rest := String ","
                                      (String " " (CPPParsingKeyword.TYPENAME
                                                     ++ String " " (name ++ tail))) |}
              with
              | Some (r, c') =>
                  Some (PP.repeat (S (PP.remaining c')) next_template_parameter r c')
              | None =>
                  Some (PP.no_results,
                        {| PP.before := Some " "%char;
                           PP.rest := String ","
                                        (String " " (CPPParsingKeyword.TYPENAME
                                                       ++ String " " (name ++ tail))) |})
              end).
      rewrite (Hnext false).
      unfold PP.remaining. cbn [PP.rest]. rewrite Hrest. reflexivity.
    + rewrite read_ahead_tail_cons. reflexivity.
Qed.

Lemma last_item_of_groups :
  forall names, map Patterns.last_item (map parameter_group names) = names.
Proof.
  induction names as [|name names IH]; [reflexivity|].
  cbn [map]. rewrite IH. reflexivity.
Qed.

(** The template pattern on a header of [typename] parameters. *)
Lemma template_header_matches :
  forall first others more,
    is_identifier first = true ->
    Forall (fun name => is_identifier name = true) others ->
    exists parsed,
      PP.parseString Patterns.template_pattern
        (create_read_ahead_string CPPParsingKeyword.TEMPLATE
           (template_header_tokens first others ++ more))
      = Some parsed /\
      PP.get "params" parsed = map parameter_group (first :: others).
Proof.
  intros first others more Hfirst Hothers.
  unfold template_header_tokens. cbn [app]. rewrite <- app_assoc. cbn [app].
  rewrite read_ahead_shape, !read_ahead_tail_cons.
  set (tail := read_ahead_tail (more_parameter_tokens others ++ ">" :: more)).
  assert (Htail : ends_word (PP.alphanums ++ "_") tail = true).
  { subst tail. destruct others; cbn [more_parameter_tokens flat_map app];
      now apply read_ahead_tail_ends_word. }
  destruct (template_parameter_matches first tail (Some "<"%char) Hfirst Htail)
    as (b1 & Hgroup).
  destruct (more_parameters_matched others more b1 Hothers)
    as (c' & c'' & Hmore & Hclose).
  fold tail in Hmore.
  unfold PP.parseString.
  change (PP.parse_at true Patterns.template_pattern
            (PP.start (CPPParsingKeyword.TEMPLATE
                         ++ String " " ("<" ++ String " "
                              (CPPParsingKeyword.TYPENAME ++ String " " (first ++ tail))))))
    with (match
             match
               match PP.parse_at true template_parameter
                       {| PP.before := Some "<"%char;
                          PP.rest := String " " (CPPParsingKeyword.TYPENAME
                                                   ++ String " " (first ++ tail)) |}
               with
               | Some (r, c1) =>
                   PP.and_rest [PP.ZeroOrMore next_template_parameter] r c1
               | None => None
               end
             with
             | Some (r, c2) =>
                 match PP.toklist r with
                 | [] => Some (r, c2)
                 | _ :: _ =>
                     Some ({| PP.toklist := PP.toklist r;
                              PP.tokdict := PP.tokdict r ++ [("params", PP.toklist r)] |},
                           c2)
                 end
             | None => None
             end
           with
           | Some (r, c2) =>
               PP.and_rest [PP.Suppress (PP.Literal ">")]
                 (PP.add_results
                    (PP.add_results (PP.one_result CPPParsingKeyword.TEMPLATE)
                                    PP.no_results) r)
                 c2
           | None => None
           end).
  rewrite Hgroup. cbn [PP.and_rest]. rewrite Hmore.
  cbn [PP.add_results PP.toklist PP.tokdict app]. rewrite Hclose.
  eexists. split; [reflexivity|]. reflexivity.
Qed.

Lemma template_parameters_pending :
  forall st first others more,
    is_identifier first = true ->
    Forall (fun name => is_identifier name = true) others ->
    scan_token st CPPParsingKeyword.TEMPLATE
               (template_header_tokens first others ++ more)
    = Some {| current_namespace := current_namespace st;
              current_template_params := Some (first :: others);
              class_scope_stack := class_scope_stack st;
              scanned_entities := scanned_entities st;
              statistics := increment_hits (statistics st);
              warnings := warnings st |}.
Proof.
  intros st first others more Hfirst Hothers.
  destruct (template_header_matches first others more Hfirst Hothers)
    as (parsed & Hparsed & Hparams).
  change (scan_token st CPPParsingKeyword.TEMPLATE
                     (template_header_tokens first others ++ more))
    with (Some (on_template st CPPParsingKeyword.TEMPLATE
                            (template_header_tokens first others ++ more))).
  unfold on_template. rewrite Hparsed, Hparams, last_item_of_groups.
  reflexivity.
Qed.

(** X18.  A [template] token followed by a header of one or more
    [typename] parameters, [< typename T1 , typename T2 ... >] with
    identifiers for names, is a hit that sets the pending template parameters
    to the list of the names, in order, whatever follows the header; nothing
    else changes. *)
Theorem template_header_sets_pending :
  forall (st : scan_state) (first : string) (others more : list string),
    is_identifier first = true ->
    Forall (fun name => is_identifier name = true) others ->
    scan_token st CPPParsingKeyword.TEMPLATE
               (template_header_tokens first others ++ more)
    = Some {| current_namespace := current_namespace st;
              current_template_params := Some (first :: others);
              class_scope_stack := class_scope_stack st;
              scanned_entities := scanned_entities st;
              statistics := increment_hits (statistics st);
              warnings := warnings st |}.
Proof.
  intros st first others more Hfirst Hothers.
  now apply template_parameters_pending.
Qed.

Lemma template_header_sets_pending_witness :
  scan_token initial_state "template"
             ["<"; "typename"; "K"; ","; "typename"; "V"; ">"; "class"; "Map"; "{"]
  = Some {| current_namespace := [];
            current_template_params := Some ["K"; "V"];
            class_scope_stack := [];
            scanned_entities := [];
            statistics := {| PARSING_HITS := 1; PARSING_MISSES := 0 |};
            warnings := [] |}.
Proof.
  apply (template_header_sets_pending initial_state "K" ["V"] ["class"; "Map"; "{"]).
  - reflexivity.
  - repeat constructor.
Defined.

Lemma template_parameter_fails :
  forall prev a s,
    PyStr.char_in a (PP.alphas ++ "_") = false ->
    PP.is_white a = false ->
    PP.parse_at true template_parameter
                {| PP.before := prev; PP.rest := String " " (String a s) |}
    = None.
Proof.
  intros prev a s Ha Hwhite.
  assert (Ht : Ascii.eqb "t" a = false).
  { rewrite Ascii.eqb_sym. now apply (char_in_differs (PP.alphas ++ "_") "t" a). }
  assert (Hc : Ascii.eqb "c" a = false).
  { rewrite Ascii.eqb_sym. now apply (char_in_differs (PP.alphas ++ "_") "c" a). }
  assert (Hpre : forall b, PP.preParse {| PP.before := b; PP.rest := String a s |}
                           = {| PP.before := b; PP.rest := String a s |}).
  { intros b. unfold PP.preParse. cbn [PP.before PP.rest PP.skip_white].
    now rewrite Hwhite. }
  assert (Hkeywords :
            PP.first_match [PP.Keyword "typename"; PP.Keyword "class"]
                           {| PP.before := Some " "%char; PP.rest := String a s |}
            = None).
  { cbn [PP.first_match]. unfold PP.parse_at.
    cbn [PP.Keyword PP.skipWhitespace PP.parseImpl andb].
    rewrite Hpre. cbn [PP.eat PP.rest]. now rewrite Ht, Hc. }
  rewrite parse_at_behind_blank by reflexivity.
  unfold PP.parse_at, template_parameter.
  cbn [PP.Group PP.And PP.Optional PP.MatchFirst PP.skipWhitespace PP.parseImpl andb].
  rewrite Hpre. unfold PP.parse_at.
  cbn [PP.Group PP.And PP.Optional PP.skipWhitespace PP.parseImpl andb].
  change (PP.parse_at false (PP.MatchFirst [PP.Keyword "typename"; PP.Keyword "class"])
            {| PP.before := Some " "%char; PP.rest := String a s |})
    with (PP.first_match [PP.Keyword "typename"; PP.Keyword "class"]
            {| PP.before := Some " "%char; PP.rest := String a s |}).
  rewrite Hkeywords.
  cbn [PP.and_rest]. unfold PP.parse_at.
  cbn [PP.Word PP.skipWhitespace PP.parseImpl andb].
  rewrite Hpre. cbn [PP.rest]. now rewrite Ha.
Qed.

Lemma template_header_mismatch :
  forall rest,
    other_token_follows rest = true ->
    PP.parseString Patterns.template_pattern
      (create_read_ahead_string CPPParsingKeyword.TEMPLATE ("<" :: rest))
    = None.
Proof.
  intros [|[|a t] more] Hother; [reflexivity | discriminate |].
  cbn [other_token_follows] in Hother. apply andb_true_iff in Hother as [Hstart Hwhite].
  apply negb_true_iff in Hstart, Hwhite.
  rewrite read_ahead_shape, !read_ahead_tail_cons. cbn [String.append].
  pose proof (template_parameter_fails (Some "<"%char) a (t ++ read_ahead_tail more)
                Hstart Hwhite) as Hfail.
  unfold PP.parseString.
  change (PP.parse_at true Patterns.template_pattern
            (PP.start (CPPParsingKeyword.TEMPLATE
                         ++ String " " (String "<" (String " "
                              (String a (t ++ read_ahead_tail more)))))))
    with (match
             match
               match PP.parse_at true template_parameter
                       {| PP.before := Some "<"%char;
                          PP.rest := String " " (String a (t ++ read_ahead_tail more)) |}
               with
               | Some (r, c1) =>
                   PP.and_rest [PP.ZeroOrMore next_template_parameter] r c1
               | None => None
               end
             with
             | Some (r, c2) =>
                 match PP.toklist r with
                 | [] => Some (r, c2)
                 | _ :: _ =>
                     Some ({| PP.toklist := PP.toklist r;
                              PP.tokdict := PP.tokdict r ++ [("params", PP.toklist r)] |},
                           c2)
                 end
             | None => None
             end
           with
           | Some (r, c2) =>
               PP.and_rest [PP.Suppress (PP.Literal ">")]
                 (PP.add_results
                    (PP.add_results (PP.one_result CPPParsingKeyword.TEMPLATE)
                                    PP.no_results) r)
                 c2
           | None => None
           end).
  now rewrite Hfail.
Qed.

(** X19.  A [template] token followed by [<] and then by nothing or by a
    token that does not start like an identifier, as in the header
    [template <>] of an explicit specialization, is a miss: the pending
    template parameters are cleared, the miss counter goes up and one warning
    is logged. *)
Theorem template_header_without_parameters :
  forall (st : scan_state) (rest : list string),
    other_token_follows rest = true ->
    scan_token st CPPParsingKeyword.TEMPLATE ("<" :: rest)
    = Some {| current_namespace := current_namespace st;
              current_template_params := None;
              class_scope_stack := class_scope_stack st;
              scanned_entities := scanned_entities st;
              statistics := increment_misses (statistics st);
              warnings := warnings st ++ ["Failed to parse template declaration"] |}.
Proof.
  intros st rest Hother.
  change (scan_token st CPPParsingKeyword.TEMPLATE ("<" :: rest))
    with (Some (on_template st CPPParsingKeyword.TEMPLATE ("<" :: rest))).
  unfold on_template. now rewrite (template_header_mismatch _ Hother).
Qed.

Lemma template_header_without_parameters_witness :
  scan_token
    {| current_namespace := []; current_template_params := Some ["T"];
       class_scope_stack := []; scanned_entities := [];
       statistics := {| PARSING_HITS := 1; PARSING_MISSES := 0 |};
       warnings := [] |}
    "template" ["<"; ">"; "class"; "Box"; "<"; "int"; ">"; "{"]
  = Some {| current_namespace := []; current_template_params := None;
            class_scope_stack := []; scanned_entities := [];
            statistics := {| PARSING_HITS := 1; PARSING_MISSES := 1 |};
            warnings := ["Failed to parse template declaration"] |}.
Proof.
  exact (template_header_without_parameters
           {| current_namespace := []; current_template_params := Some ["T"];
              class_scope_stack := []; scanned_entities := [];
              statistics := {| PARSING_HITS := 1; PARSING_MISSES := 0 |};
              warnings := [] |}
           [">"; "class"; "Box"; "<"; "int"; ">"; "{"] eq_refl).
Defined.

(** ** A template class definition *)

Lemma scan_from_inert_prefix :
  forall inert rest index st,
    Forall (fun token => changes_state token = false) inert ->
    scan_from st (gen_word_read_ahead_from index (inert ++ rest))
    = scan_from st (gen_word_read_ahead_from (List.length inert + index) rest).
Proof.
  induction inert as [|token inert IH]; intros rest index st Hinert; [reflexivity|].
  inversion Hinert as [|? ? Htoken Hmore]; subst.
  cbn [app gen_word_read_ahead_from scan_from List.length].
  rewrite (scan_token_inert _ _ _ Htoken), (IH _ _ _ Hmore).
  f_equal. f_equal. lia.
Qed.

Lemma contains_outside_char :
  forall chars c x s,
    all_in chars s = true ->
    PyStr.char_in c chars = false ->
    PyStr.contains (String c x) s = false.
Proof.
  intros chars c x s. induction s as [|a s IH]; intros Hs Hc; [reflexivity|].
  cbn [all_in] in Hs. apply andb_true_iff in Hs as [Ha Hs].
  cbn [PyStr.contains String.prefix]. rewrite (IH Hs Hc).
  destruct (ascii_dec c a) as [->|]; [|reflexivity].
  now rewrite Ha in Hc.
Qed.

Lemma identifier_unqualified :
  forall name, is_identifier name = true -> PyStr.contains "::" name = false.
Proof.
  intros [|a name] H; [discriminate|].
  cbn [is_identifier] in H. apply andb_true_iff in H as [Ha Hname].
  apply (contains_outside_char (PP.alphanums ++ "_")); [|reflexivity].
  cbn [all_in]. rewrite Hname, andb_true_r.
  unfold PP.alphanums. rewrite !char_in_app.
  rewrite char_in_app in Ha.
  apply orb_true_iff in Ha as [Ha|Ha]; rewrite Ha, ?orb_true_r; reflexivity.
Qed.

Lemma template_header_tokens_inert :
  forall first others,
    changes_state first = false ->
    Forall (fun name => changes_state name = false) others ->
    Forall (fun token => changes_state token = false)
           (template_header_tokens first others).
Proof.
  intros first others Hfirst Hothers. unfold template_header_tokens.
  repeat (constructor; [reflexivity || exact Hfirst|]).
  apply Forall_app. split; [|repeat constructor].
  induction Hothers as [|name others Hname _ IH]; [constructor|].
  cbn [more_parameter_tokens flat_map app].
  repeat (constructor; [reflexivity || exact Hname|]). exact IH.
Qed.

Lemma segments_of_identifiers :
  forall names,
    Forall (fun name => is_identifier name = true) names ->
    map last_scope_segment names = names.
Proof.
  intros names H. induction H as [|name names Hname _ IH]; [reflexivity|].
  cbn [map]. rewrite IH. unfold last_scope_segment.
  now rewrite (last_segment_without_sep _ _ (identifier_unqualified _ Hname)).
Qed.

Lemma build_entity_names_consistent :
  forall st token following parsed,
    names_consistent (build_entity st token following parsed).
Proof.
  intros st token following parsed. unfold build_entity.
  apply composer_names_consistent.
Qed.

(** X20.  For identifiers that are not keywords of the pass, the stream
    [template < typename T1 , ... , typename Tn > class C { } ;] yields
    exactly one entity: it is named [C], carries the parameters [T1 ... Tn]
    in order, and has the unique name and the display name
    [C<T1,...,Tn>]; afterwards no parameters are pending and both stacks are
    empty, with two hits and no miss. *)
Theorem template_class_definition :
  forall (first : string) (others : list string) (C : string),
    is_identifier first = true -> changes_state first = false ->
    Forall (fun name => is_identifier name = true) others ->
    Forall (fun name => changes_state name = false) others ->
    is_identifier C = true -> changes_state C = false ->
    exists st e,
      scan_entities
        ("template" :: template_header_tokens first others
                    ++ ["class"; C; "{"; "}"; ";"]) = Some st /\
      scanned_entities st = [e] /\
      entity_name e = C /\
      namespace e = "" /\
      template_parameters e = Some (first :: others) /\
      unique_name e = C ++ "<" ++ PyStr.join "," (first :: others) ++ ">" /\
      display_name e = C ++ "<" ++ PyStr.join "," (first :: others) ++ ">" /\
      current_template_params st = None /\
      current_namespace st = [] /\
      class_scope_stack st = [] /\
      statistics st = {| PARSING_HITS := 2; PARSING_MISSES := 0 |} /\
      warnings st = [].
Proof.
  intros first others C Hfirst Hfirstk Hothers Hothersk HC HCk.
  unfold scan_entities, _gen_word_read_ahead.
  cbn [gen_word_read_ahead_from scan_from].
  rewrite (template_parameters_pending initial_state first others _ Hfirst Hothers).
  rewrite (scan_from_inert_prefix _ _ _ _
             (template_header_tokens_inert first others Hfirstk Hothersk)).
  cbn [gen_word_read_ahead_from scan_from].
  rewrite (scan_token_class _ "class" _ (or_introl eq_refl)).
  rewrite (on_class_matched _ _ _ _
             (class_header_with_body "class" C ["}"; ";"] (or_introl eq_refl) HC)).
  cbn [initial_state current_namespace class_scope_stack current_template_params
       scanned_entities statistics warnings params_set PyStr.truthy app track_scope].
  unfold CPPParsingKeyword.OPEN_SCOPE, CPPParsingKeyword.SEMICOLON.
  rewrite (identifier_not_punctuation C "{" HC eq_refl).
  rewrite (identifier_not_punctuation C ";" HC eq_refl).
  change (String.eqb "{" "{") with true. cbv iota.
  rewrite (scan_token_inert _ C _ HCk).
  rewrite (scan_token_inert _ "{" _ eq_refl).
  change (scan_token ?s "}" ?f) with (on_close_scope s).
  rewrite on_close_scope_result.
  cbn [current_namespace class_scope_stack current_template_params
       scanned_entities statistics warnings removelast app].
  rewrite (scan_token_inert _ ";" _ eq_refl).
  do 2 eexists. split; [reflexivity|].
  cbn [scanned_entities current_namespace class_scope_stack statistics warnings
       current_template_params].
  split; [reflexivity|].
  match goal with
  | |- context [build_entity ?s ?t ?f ?p] =>
      destruct (build_entity_fields s t f p) as (Hn & Hs & Ht & _);
      pose proof (build_entity_names_consistent s t f p) as [Hu Hd];
      set (e := build_entity s t f p) in *
  end.
  cbn in Hn, Hs, Ht.
  unfold spec_display_name in Hd.
  rewrite ?Hn, ?Hs, ?Ht in Hu. rewrite ?Hn, ?Ht in Hd.
  assert (Hsegments : map last_scope_segment (first :: others) = first :: others)
    by (apply segments_of_identifiers; now constructor).
  cbn [parameters_of] in Hu, Hd.
  rewrite Hsegments in Hd.
  rewrite Hn, Hs, Ht, Hu, Hd.
  repeat split; reflexivity.
Qed.

Lemma template_class_definition_witness :
  exists st e,
    scan_entities
      ["template"; "<"; "typename"; "K"; ","; "typename"; "V"; ">";
       "class"; "Map"; "{"; "}"; ";"] = Some st /\
    scanned_entities st = [e] /\
    entity_name e = "Map" /\
    namespace e = "" /\
    template_parameters e = Some ["K"; "V"] /\
    unique_name e = "Map<K,V>" /\
    display_name e = "Map<K,V>" /\
    current_template_params st = None /\
    current_namespace st = [] /\
    class_scope_stack st = [] /\
    statistics st = {| PARSING_HITS := 2; PARSING_MISSES := 0 |} /\
    warnings st = [].
Proof.
  apply (template_class_definition "K" ["V"] "Map");
    try reflexivity; repeat constructor.
Defined.

(** ** Include directives without a path *)




